(** * Options analytics: IV metrics, catalyst screening, research summary

    A shallow embedding of the pure core of the options-analytics utilities
    ([iv_analytics.py], [catalyst_screener.py], [options_research.py]), of the
    clinical-trials adapter ([clinical_trials.py]) and of the validation logic
    of the two router entry points ([options_router.py]).

    Conventions of the embedding:
    - the numeric functions are embedded twice.  In [Binary64] a Python
      [float] is a double: every operation rounds its exact result to the
      nearest binary64 value, ties to even, and [round(x, n)] is the double
      nearest to the decimal nearest to [x]; the functions whose returned
      values are stated digit for digit ([IvAnalytics64],
      [CatalystScreener64]) are written over it.  Elsewhere a [float] is
      idealised as an exact rational ([Q]) and [round(x, n)] is
      round-half-to-even at [n] decimals, which is enough for what is stated
      there: bounds, order, which rows are kept, which error is raised.
      Infinities and NaN do not exist in [Q]; where the source can produce
      them (a division by a zero price inside a pandas column) the model
      says so with an [option];
    - a Python [int] is a [Z];
    - a [datetime.date] is its proleptic Gregorian ordinal ([date.toordinal()]),
      so that [(a - b).days] is a subtraction;
    - a raised exception is the left injection of a sum, handlers test the
      exception class as [except (ValueError, TypeError)] does;
    - a DataFrame with the option-chain columns is a list of rows. *)

From Stdlib Require Import ZArith QArith Qround Qabs Qminmax Qpower List String Ascii Bool Lia Lqa.
From Stdlib Require Import Sorting.Sorted Sorting.Permutation DecimalString Floats.
From Stdlib Require OrderedTypeEx.
Import ListNotations.

Local Open Scope Z_scope.

(* ================================================================== *)
(** ** The Python fragment: exceptions and loosely typed cells *)

Module Py.

Inductive exn : Type :=
| ValueError
| TypeError
| ZeroDivisionError
| OverflowError
| AttributeError (msg : string)
| OpenBBError (msg : string)
| EmptyDataError (msg : string)
| ValidationError.

Definition result (A : Type) : Type := (exn + A)%type.

Abbreviation Ok := (@inr exn _).
Abbreviation Raise := (@inl exn _).

Definition bind {A B : Type} (m : result A) (k : A -> result B) : result B :=
  match m with
  | inl e => inl e
  | inr a => k a
  end.

(** [try: body / except (ValueError, TypeError): handler]. *)
Definition try_except_VT {A : Type} (body : result A) (handler : result A)
  : result A :=
  match body with
  | inl ValueError => handler
  | inl TypeError => handler
  | other => other
  end.

(** [try: body / except ValueError as e: handler e]. *)
Definition try_except_V {A : Type} (body : result A) (handler : result A)
  : result A :=
  match body with
  | inl ValueError => handler
  | other => other
  end.

Definition returns {A : Type} (m : result A) : Prop := exists a, m = Ok a.

End Py.

Import Py.

Declare Scope py_scope.
Delimit Scope py_scope with py.
Notation "x <- m ;; k" := (Py.bind m (fun x => k))
  (at level 61, m at next level, right associativity) : py_scope.

(* ================================================================== *)
(** ** Floats as rationals, [round(x, ndigits)] *)

Module Num.

Local Open Scope Q_scope.

(** Round to the nearest integer, ties to the even one. *)
Definition round_half_even (q : Q) : Z :=
  let f := Qfloor q in
  match Qcompare (q - inject_Z f) (1 # 2) with
  | Lt => f
  | Gt => (f + 1)%Z
  | Eq => if Z.even f then f else (f + 1)%Z
  end.

Definition pow10 (n : nat) : Z := (10 ^ Z.of_nat n)%Z.

(** [round(q, n)] for a float [q] and [n] decimals. *)
Definition py_round (q : Q) (n : nat) : Q :=
  Qred (inject_Z (round_half_even (q * inject_Z (pow10 n))) / inject_Z (pow10 n)).

(** A rational stand-in for [math.sqrt], exact to twelve decimals, to run
    the definitions on examples. *)
Definition sqrt_approx (x : Q) : Q :=
  Qred (inject_Z (Z.sqrt (Qfloor (x * inject_Z (10 ^ 24)))) / inject_Z (10 ^ 12)).

(** The decimal text of a natural number. *)
Definition nat_text (z : Z) : string :=
  NilZero.string_of_uint (N.to_uint (Z.to_N z)).

(** [f"{q:.0f}"]: the nearest integer, ties to even, with the sign of [q]
    (so a small negative value prints as [-0]). *)
Definition format_f0 (q : Q) : string :=
  ((if negb (Qle_bool 0 q) then "-" else "")
   ++ nat_text (Z.abs (round_half_even q)))%string.

Definition Qgeb (a b : Q) : bool := Qle_bool b a.
Definition Qltb (a b : Q) : bool := negb (Qle_bool b a).
Definition Qgtb (a b : Q) : bool := negb (Qle_bool a b).

End Num.

Import Num.

(* ================================================================== *)
(** ** Floats as doubles: binary64 arithmetic

    Every operation on finite values is the exact operation on rationals
    followed by the rounding to the nearest double, ties to the even
    significand, which is how IEEE 754 defines it. *)

Module Binary64.

Local Open Scope Q_scope.

(** A Python [float]: a finite binary64 value, an infinity or NaN.  The two
    zeros are one value: the code only computes and compares, and there
    [-0.0] behaves as [0.0]. *)
Inductive float : Type :=
| Fin (q : Q)
| PInf
| NInf
| NaN.

Definition pow2 (e : Z) : Q := Qpower 2 e.

(** [floor (log2 q)] for a positive [q]. *)
Definition ilog2 (q : Q) : Z :=
  let r := Qred q in
  let k := (Z.log2 (Qnum r) - Z.log2 (Zpos (Qden r)))%Z in
  if Qle_bool (pow2 k) r then k else (k - 1)%Z.

(** The exponent of the last bit of the 53-bit significand that holds [q];
    [-1074] in the subnormal range. *)
Definition exponent (q : Q) : Z := Z.max (ilog2 (Qabs q) - 52) (-1074).

(** Rounding to the nearest multiple of [2 ^ exponent q], ties to the even
    significand: round-to-nearest-even with an unbounded exponent range
    above. *)
Definition round_fin (q : Q) : Q :=
  if Qeq_bool q 0 then 0
  else Qred (inject_Z (round_half_even (q / pow2 (exponent q))) * pow2 (exponent q)).

(** The binary64 value of an exact result: what rounds to [2 ^ 1024] or
    beyond is an infinity. *)
Definition of_Q (q : Q) : float :=
  let r := round_fin q in
  if Qle_bool (pow2 1024) r then PInf
  else if Qle_bool r (- pow2 1024) then NInf
  else Fin r.

(** A value of the type that a double can hold. *)
Definition is_binary64 (x : float) : Prop :=
  match x with
  | Fin q => of_Q q = Fin q
  | _ => True
  end.

Definition sign_inf (negative : bool) : float := if negative then NInf else PInf.

Definition add (x y : float) : float :=
  match x, y with
  | NaN, _ | _, NaN => NaN
  | PInf, NInf | NInf, PInf => NaN
  | PInf, _ | _, PInf => PInf
  | NInf, _ | _, NInf => NInf
  | Fin a, Fin b => of_Q (a + b)
  end.

Definition sub (x y : float) : float :=
  match x, y with
  | NaN, _ | _, NaN => NaN
  | PInf, PInf | NInf, NInf => NaN
  | PInf, _ | _, NInf => PInf
  | NInf, _ | _, PInf => NInf
  | Fin a, Fin b => of_Q (a - b)
  end.

Definition mul (x y : float) : float :=
  match x, y with
  | NaN, _ | _, NaN => NaN
  | Fin a, Fin b => of_Q (a * b)
  | Fin a, PInf | PInf, Fin a =>
      if Qeq_bool a 0 then NaN else sign_inf (Qltb a 0)
  | Fin a, NInf | NInf, Fin a =>
      if Qeq_bool a 0 then NaN else sign_inf (negb (Qltb a 0))
  | PInf, PInf | NInf, NInf => PInf
  | PInf, NInf | NInf, PInf => NInf
  end.

(** [x / y] on two floats: a zero divisor raises, whatever [x] is. *)
Definition truediv (x y : float) : result float :=
  match x, y with
  | _, Fin b =>
      if Qeq_bool b 0 then Raise ZeroDivisionError
      else Ok match x with
              | Fin a => of_Q (a / b)
              | PInf => sign_inf (Qltb b 0)
              | NInf => sign_inf (negb (Qltb b 0))
              | NaN => NaN
              end
  | NaN, _ | _, NaN => Ok NaN
  | Fin _, _ => Ok (Fin 0)
  | _, _ => Ok NaN
  end.

(** [x < y], [x <= y], [x >= y], [x > y]: false as soon as one side is NaN. *)
Definition lt (x y : float) : bool :=
  match x, y with
  | NaN, _ | _, NaN => false
  | Fin a, Fin b => Qltb a b
  | NInf, NInf | PInf, _ => false
  | NInf, _ => true
  | Fin _, PInf => true
  | Fin _, NInf => false
  end.

Definition le (x y : float) : bool :=
  match x, y with
  | NaN, _ | _, NaN => false
  | Fin a, Fin b => Qle_bool a b
  | NInf, _ => true
  | PInf, PInf => true
  | PInf, _ => false
  | Fin _, PInf => true
  | Fin _, NInf => false
  end.

Definition gt (x y : float) : bool := lt y x.
Definition ge (x y : float) : bool := le y x.

(** [float(z)] for an int: correctly rounded, [OverflowError] when too
    large. *)
Definition of_int (z : Z) : result float :=
  match of_Q (inject_Z z) with
  | Fin q => Ok (Fin q)
  | _ => Raise OverflowError
  end.

(** [a / b] on two ints: the quotient correctly rounded. *)
Definition int_truediv (a b : Z) : result float :=
  if (b =? 0)%Z then Raise ZeroDivisionError
  else match of_Q (inject_Z a / inject_Z b) with
       | Fin q => Ok (Fin q)
       | _ => Raise OverflowError
       end.

(** [round(x, n)] for [n >= 0]: the decimal with [n] places nearest to the
    exact value of [x] (ties to even), and then the double nearest to that
    decimal. *)
Definition py_round (x : float) (n : nat) : float :=
  match x with
  | Fin q =>
      of_Q (inject_Z (round_half_even (q * inject_Z (pow10 n))) / inject_Z (pow10 n))
  | _ => x
  end.

(** The significand of the correctly rounded square root of a positive
    [q]: the integer nearest to [sqrt (q / 4 ^ e)]. *)
Definition sqrt_significand (t : Q) : Z :=
  let s := Z.sqrt (Qfloor t) in
  match Qcompare t (inject_Z (s * s + s) + (1 # 4)) with
  | Lt => s
  | Gt => (s + 1)%Z
  | Eq => if Z.even s then s else (s + 1)%Z
  end.

Definition sqrt_fin (q : Q) : Q :=
  if Qle_bool q 0 then 0
  else
    let e := (ilog2 q / 2 - 52)%Z in
    Qred (inject_Z (sqrt_significand (q / pow2 (2 * e))) * pow2 e).

(** [math.sqrt(x)]: correctly rounded; a negative argument is a
    [ValueError]. *)
Definition math_sqrt (x : float) : result float :=
  match x with
  | Fin q => if Qltb q 0 then Raise ValueError else Ok (Fin (sqrt_fin q))
  | PInf => Ok PInf
  | NInf => Raise ValueError
  | NaN => Ok NaN
  end.

(** The value of one of the kernel's binary64 floats, to compare the
    operations above with the hardware's. *)
Definition of_prim (f : PrimFloat.float) : float :=
  match Prim2SF f with
  | S754_zero _ => Fin 0
  | S754_infinity negative => sign_inf negative
  | S754_nan => NaN
  | S754_finite negative m e =>
      Fin (Qred ((if negative then - (1) else 1) * inject_Z (Zpos m) * pow2 e))
  end.

End Binary64.

(* ================================================================== *)
(** ** Calendar dates and [datetime.strptime(s, "%Y-%m-%d")] *)

Module Dates.

(** A [datetime.date], as [date.toordinal()]: day 1 is 0001-01-01. *)
Definition date : Type := Z.

(** [date.max], 9999-12-31. *)
Definition date_max : date := 3652059.

(** [(a - b).days]. *)
Definition days_between (a b : date) : Z := a - b.

Definition is_leap (y : Z) : bool :=
  (y mod 4 =? 0) && (negb (y mod 100 =? 0) || (y mod 400 =? 0)).

Definition days_in_month (y m : Z) : Z :=
  if m =? 2 then (if is_leap y then 29 else 28)
  else if (m =? 4) || (m =? 6) || (m =? 9) || (m =? 11) then 30
  else 31.

Definition days_before_year (y : Z) : Z :=
  let y1 := y - 1 in y1 * 365 + y1 / 4 - y1 / 100 + y1 / 400.

Definition days_before_month_tbl (m : Z) : Z :=
  match m with
  | 1 => 0 | 2 => 31 | 3 => 59 | 4 => 90 | 5 => 120 | 6 => 151
  | 7 => 181 | 8 => 212 | 9 => 243 | 10 => 273 | 11 => 304 | 12 => 334
  | _ => 0
  end.

Definition days_before_month (y m : Z) : Z :=
  days_before_month_tbl m + (if (2 <? m) && is_leap y then 1 else 0).

Definition ymd2ord (y m d : Z) : date :=
  days_before_year y + days_before_month y m + d.

(** The [date(y, m, d)] constructor: [ValueError] outside the calendar. *)
Definition mk_date (y m d : Z) : option date :=
  if (1 <=? y) && (y <=? 9999) && (1 <=? m) && (m <=? 12)
     && (1 <=? d) && (d <=? days_in_month y m)
  then Some (ymd2ord y m d) else None.

(** [_ord2ymd] of the datetime module. *)
Definition ord2ymd (n0 : date) : Z * Z * Z :=
  let n := n0 - 1 in
  let n400 := n / 146097 in let n := n mod 146097 in
  let n100 := n / 36524 in let n := n mod 36524 in
  let n4 := n / 1461 in let n := n mod 1461 in
  let n1 := n / 365 in let n := n mod 365 in
  let year := n400 * 400 + 1 + n100 * 100 + n4 * 4 + n1 in
  if (n1 =? 4) || (n100 =? 4) then (year - 1, 12, 31)
  else
    let leapyear := (n1 =? 3) && (negb (n4 =? 24) || (n100 =? 3)) in
    let month := Z.shiftr (n + 50) 5 in
    let preceding :=
      days_before_month_tbl month + (if (2 <? month) && leapyear then 1 else 0) in
    if n <? preceding then
      let month' := month - 1 in
      let dim := if month' =? 2 then (if leapyear then 29 else 28)
                 else if (month' =? 4) || (month' =? 6) || (month' =? 9)
                         || (month' =? 11) then 30 else 31 in
      (year, month', n - (preceding - dim) + 1)
    else (year, month, n - preceding + 1).

(** *** Decimal text *)

Definition is_digit (c : ascii) : bool :=
  (48 <=? Z.of_nat (nat_of_ascii c)) && (Z.of_nat (nat_of_ascii c) <=? 57).

Definition digit_val (c : ascii) : Z := Z.of_nat (nat_of_ascii c) - 48.

Definition digit_char (d : Z) : ascii := ascii_of_nat (Z.to_nat (48 + d mod 10)).

(** [n] decimal digits of [z], most significant first (zero padded). *)
Fixpoint digits (n : nat) (z : Z) : string :=
  match n with
  | O => EmptyString
  | S k => (digits k (z / 10) ++ String (digit_char z) EmptyString)%string
  end.

(** [date.isoformat()], which is also [str(date)]. *)
Definition isoformat (d : date) : string :=
  let '(y, m, dd) := ord2ymd d in
  (digits 4 y ++ "-" ++ digits 2 m ++ "-" ++ digits 2 dd)%string.

(** *** The format ["%Y-%m-%d"]

    [strptime] compiles the format to the regular expression
    [(\d\d\d\d)-(1[0-2]|0[1-9]|[1-9])-(3[01]|[12]\d|0[1-9]|[1-9]| [1-9])],
    matches it at the start of the text and rejects any text left over. *)

Definition in_range (c : ascii) (lo hi : Z) : bool :=
  is_digit c && (lo <=? digit_val c) && (digit_val c <=? hi).

Definition month_two (s : string) : option (Z * string) :=
  match s with
  | String a (String b rest) =>
      if (Ascii.eqb a "1" && in_range b 0 2) || (Ascii.eqb a "0" && in_range b 1 9)
      then Some (10 * digit_val a + digit_val b, rest) else None
  | _ => None
  end.

Definition month_one (s : string) : option (Z * string) :=
  match s with
  | String a rest => if in_range a 1 9 then Some (digit_val a, rest) else None
  | EmptyString => None
  end.

Definition expect_dash (r : option (Z * string)) : option (Z * string) :=
  match r with
  | Some (v, String "-" rest) => Some (v, rest)
  | _ => None
  end.

(** The month group followed by the dash: the two-digit alternatives are
    tried first and the matcher backtracks to the one-digit one. *)
Definition match_month (s : string) : option (Z * string) :=
  match expect_dash (month_two s) with
  | Some r => Some r
  | None => expect_dash (month_one s)
  end.

(** The day group: the first alternative that matches, and the rest. *)
Definition match_day (s : string) : option (Z * string) :=
  match s with
  | String a (String b rest) =>
      if (Ascii.eqb a "3" && in_range b 0 1) || (in_range a 1 2 && is_digit b)
         || (Ascii.eqb a "0" && in_range b 1 9)
      then Some (10 * digit_val a + digit_val b, rest)
      else if in_range a 1 9 then Some (digit_val a, String b rest)
      else if Ascii.eqb a " " && in_range b 1 9 then Some (digit_val b, rest)
      else None
  | String a EmptyString =>
      if in_range a 1 9 then Some (digit_val a, EmptyString) else None
  | EmptyString => None
  end.

(** [datetime.strptime(s, "%Y-%m-%d").date()]; [None] is a [ValueError]. *)
Definition strptime_ymd (s : string) : option date :=
  match s with
  | String y1 (String y2 (String y3 (String y4 (String "-" rest)))) =>
      if is_digit y1 && is_digit y2 && is_digit y3 && is_digit y4 then
        let y := 1000 * digit_val y1 + 100 * digit_val y2
                 + 10 * digit_val y3 + digit_val y4 in
        match match_month rest with
        | Some (m, rest') =>
            match match_day rest' with
            | Some (d, EmptyString) => mk_date y m d
            | _ => None
            end
        | None => None
        end
      else None
  | _ => None
  end.

End Dates.

Import Dates.

(* ================================================================== *)
(** ** Cells and rows of an option chain *)

Module Chain.

(** A loosely typed cell or list element where the source expects a date in
    text form: a string, a [datetime.date], or [None]. *)
Inductive pyval : Type :=
| PStr (s : string)
| PDate (d : date)
| PNone.

(** [str(x)]. *)
Definition py_str (x : pyval) : string :=
  match x with
  | PStr s => s
  | PDate d => isoformat d
  | PNone => "None"
  end.

(** [x[:10]]: only text can be sliced. *)
Definition slice10 (x : pyval) : result string :=
  match x with
  | PStr s => Ok (substring 0 10 s)
  | _ => Raise TypeError
  end.

(** [datetime.strptime(s, "%Y-%m-%d").date()]. *)
Definition strptime (s : string) : result date :=
  match strptime_ymd s with
  | Some d => Ok d
  | None => Raise ValueError
  end.

Definition pyval_eqb (a b : pyval) : bool :=
  match a, b with
  | PStr s, PStr t => String.eqb s t
  | PDate d, PDate e => Z.eqb d e
  | PNone, PNone => true
  | _, _ => false
  end.

(** Truthiness of a cell: [None] and the empty string are false. *)
Definition truthy (x : pyval) : bool :=
  match x with
  | PStr EmptyString => false
  | PStr _ => true
  | PDate _ => true
  | PNone => false
  end.

(** One row of the chain, with the columns the screening code reads. *)
Record OptionRow : Type := mkRow {
  strike : Q;
  expiration : pyval;
  option_type : string;
  implied_volatility : Q;
  open_interest : Z;
  volume : Z
}.

(** A DataFrame holding these columns. *)
Definition DataFrame : Type := list OptionRow.

Definition empty (df : DataFrame) : bool :=
  match df with [] => true | _ => false end.

End Chain.

Import Chain.

(* ================================================================== *)
(** ** [list.sort(key=...)]: a stable sort *)

Module PySort.

Section Stable.
Context {A : Type}.
Variable leb : A -> A -> bool.

(** [x] goes in front of the first element it is not greater than, so an
    element keeps its place in front of the later ones with an equal key. *)
Fixpoint insert (x : A) (l : list A) : list A :=
  match l with
  | [] => [x]
  | y :: l' => if leb x y then x :: l else y :: insert x l'
  end.

Definition sort (l : list A) : list A := fold_right insert [] l.
End Stable.

Definition sort_by_key {A : Type} (key : A -> Z) : list A -> list A :=
  sort (fun a b => key a <=? key b).

Definition sort_by_text {A : Type} (key : A -> string) : list A -> list A :=
  sort (fun a b => String.leb (key a) (key b)).

End PySort.

(* ================================================================== *)
(** ** iv_analytics.py *)

Module IvAnalytics.

Local Open Scope Q_scope.

Definition calculate_iv_rank (current_iv iv_low iv_high : Q) : Q :=
  if Qeq_bool iv_high iv_low then 50
  else
    let iv_rank := ((current_iv - iv_low) / (iv_high - iv_low)) * 100 in
    py_round (Qmax 0 (Qmin 100 iv_rank)) 2.

Definition calculate_iv_percentile (current_iv : Q) (historical_ivs : list Q) : Q :=
  match historical_ivs with
  | [] => 50
  | _ =>
      let days_lower :=
        List.length (filter (fun iv => Qltb iv current_iv) historical_ivs) in
      let percentile :=
        (inject_Z (Z.of_nat days_lower)
         / inject_Z (Z.of_nat (List.length historical_ivs))) * 100 in
      py_round percentile 2
  end.

(** [a / b] on two integers. *)
Definition truediv (a b : Z) : result Q :=
  if (b =? 0)%Z then Raise ZeroDivisionError
  else Ok (inject_Z a / inject_Z b).

Definition ExpectedMove : Type := (Q * Q * (Q * Q))%type.

Section ExpectedMoveDef.
(** [math.sqrt] on a non-negative float; the embedding is parametric in it. *)
Variable fsqrt : Q -> Q.

(** [math.sqrt(x)]: a negative argument is a [ValueError]. *)
Definition math_sqrt (x : Q) : result Q :=
  if Qltb x 0 then Raise ValueError else Ok (fsqrt x).

Definition calculate_expected_move
    (underlying_price iv : Q) (days_to_expiration annualization_factor : Z)
  : result ExpectedMove :=
  (ratio <- truediv days_to_expiration annualization_factor ;;
   time_factor <- math_sqrt ratio ;;
   let expected_move := underlying_price * iv * time_factor in
   let expected_move_percent := iv * time_factor * 100 in
   let lower_bound := underlying_price - expected_move in
   let upper_bound := underlying_price + expected_move in
   Ok (py_round expected_move 2,
       py_round expected_move_percent 2,
       (py_round lower_bound 2, py_round upper_bound 2)))%py.
End ExpectedMoveDef.

(** [Series.idxmin()]: the first row at which the key is least. *)
Fixpoint idxmin {A : Type} (key : A -> Q) (l : list A) : option A :=
  match l with
  | [] => None
  | x :: l' =>
      match idxmin key l' with
      | Some y => if Qle_bool (key x) (key y) then Some x else Some y
      | None => Some x
      end
  end.

Definition first_iv (rows : DataFrame) : list Q :=
  match rows with
  | [] => []
  | r :: _ => [implied_volatility r]
  end.

Definition get_atm_iv
    (options_df : DataFrame) (underlying_price : Q) (expiration : option string)
  : option Q :=
  if Chain.empty options_df then None
  else
    let narrowed :=
      match expiration with
      | Some e =>
          if negb (String.eqb e EmptyString) then
            Some (filter
                    (fun r => String.eqb (substring 0 10 (py_str (Chain.expiration r))) e)
                    options_df)
          else None
      | None => None
      end in
    let df := match narrowed with Some d => d | None => options_df end in
    match narrowed with
    | Some [] => None
    | _ =>
        match idxmin (fun r => Qabs (strike r - underlying_price)) df with
        | None => None
        | Some atm_row =>
            let atm_strike := strike atm_row in
            let atm_options :=
              filter (fun r => Qeq_bool (strike r) atm_strike) df in
            let call_iv :=
              filter (fun r => String.eqb (option_type r) "call") atm_options in
            let put_iv :=
              filter (fun r => String.eqb (option_type r) "put") atm_options in
            let ivs := (first_iv call_iv ++ first_iv put_iv)%list in
            match ivs with
            | _ :: _ =>
                Some (fold_right Qplus 0 ivs / inject_Z (Z.of_nat (List.length ivs)))
            | [] =>
                match atm_options with
                | r :: _ => Some (implied_volatility r)
                | [] => None
                end
            end
        end
    end.

(** [Series.unique()]: the distinct values in order of first appearance. *)
Fixpoint unique (l : list pyval) : list pyval :=
  match l with
  | [] => []
  | x :: l' => x :: filter (fun y => negb (pyval_eqb x y)) (unique l')
  end.

(** One line of the term structure: expiration text and ATM IV. *)
Definition TermPoint : Type := (string * Q)%type.

(** [round(iv, 4) if iv < 10 else round(iv / 100, 4)]. *)
Definition normalized_atm_iv (iv : Q) : Q :=
  if Qltb iv 10 then py_round iv 4 else py_round (iv / 100) 4.

Definition iv_term_structure (options_df : DataFrame) (underlying_price : Q)
  : list TermPoint :=
  if Chain.empty options_df then []
  else
    let expirations := unique (map Chain.expiration options_df) in
    let term_structure :=
      flat_map
        (fun exp =>
           let exp_str := substring 0 10 (py_str exp) in
           match get_atm_iv options_df underlying_price (Some exp_str) with
           | Some iv =>
               [(exp_str, normalized_atm_iv iv)]
           | None => []
           end)
        expirations in
    PySort.sort_by_text fst term_structure.

End IvAnalytics.

(* ================================================================== *)
(** ** iv_analytics.py in double precision *)

Module IvAnalytics64.

Import Binary64.
Local Open Scope Q_scope.

Definition calculate_iv_percentile (current_iv : float) (historical_ivs : list float)
  : result float :=
  match historical_ivs with
  | [] => Ok (Fin 50)
  | _ =>
      let days_lower :=
        List.length (filter (fun iv => lt iv current_iv) historical_ivs) in
      (ratio <- int_truediv (Z.of_nat days_lower)
                            (Z.of_nat (List.length historical_ivs)) ;;
       let percentile := mul ratio (Fin 100) in
       Ok (py_round percentile 2))%py
  end.

Definition ExpectedMove : Type := (float * float * (float * float))%type.

Definition calculate_expected_move
    (underlying_price iv : float) (days_to_expiration annualization_factor : Z)
  : result ExpectedMove :=
  (ratio <- int_truediv days_to_expiration annualization_factor ;;
   time_factor <- math_sqrt ratio ;;
   let expected_move := mul (mul underlying_price iv) time_factor in
   let expected_move_percent := mul (mul iv time_factor) (Fin 100) in
   let lower_bound := sub underlying_price expected_move in
   let upper_bound := add underlying_price expected_move in
   Ok (py_round expected_move 2,
       py_round expected_move_percent 2,
       (py_round lower_bound 2, py_round upper_bound 2)))%py.

Definition calculate_expected_move_from_straddle
    (straddle_price underlying_price : float) : result ExpectedMove :=
  (let expected_move := straddle_price in
   ratio <- truediv straddle_price underlying_price ;;
   let expected_move_percent := mul ratio (Fin 100) in
   let lower_bound := sub underlying_price expected_move in
   let upper_bound := add underlying_price expected_move in
   Ok (py_round expected_move 2,
       py_round expected_move_percent 2,
       (py_round lower_bound 2, py_round upper_bound 2)))%py.

End IvAnalytics64.

(* ================================================================== *)
(** ** catalyst_screener.py *)

Module CatalystScreener.

Local Open Scope Z_scope.

(** A [for] loop threading its accumulator, stopping at the first exception
    that leaves the body. *)
Fixpoint for_each {A S : Type} (body : S -> A -> result S) (l : list A) (s : S)
  : result S :=
  match l with
  | [] => Ok s
  | x :: l' => (s' <- body s x ;; for_each body l' s')%py
  end.

(** [Series.apply(f)]. *)
Fixpoint apply_each {A B : Type} (f : A -> result B) (l : list A)
  : result (list B) :=
  match l with
  | [] => Ok []
  | x :: l' => (y <- f x ;; ys <- apply_each f l' ;; Ok (y :: ys))%py
  end.

(** *** filter_by_catalyst_proximity *)

Definition proximity_body (catalyst_dt : date) (days_before days_after : Z)
    (filtered : list pyval) (exp_str : pyval) : result (list pyval) :=
  try_except_VT
    (s <- slice10 exp_str ;;
     exp_date <- strptime s ;;
     let days_diff := days_between exp_date catalyst_dt in
     if (- days_before <=? days_diff) && (days_diff <=? days_after)
     then Ok (filtered ++ [exp_str]) else Ok filtered)%py
    (Ok filtered).

Definition filter_by_catalyst_proximity
    (options_expirations : list pyval) (catalyst_date : date)
    (days_before days_after : Z) : result (list pyval) :=
  for_each (proximity_body catalyst_date days_before days_after)
           options_expirations [].

(** *** find_nearest_post_catalyst_expiration *)

Definition nearest_body (catalyst_dt : date) (min_days_after max_days_after : Z)
    (valid : list (pyval * Z)) (exp_str : pyval) : result (list (pyval * Z)) :=
  try_except_VT
    (s <- slice10 exp_str ;;
     exp_date <- strptime s ;;
     let days_diff := days_between exp_date catalyst_dt in
     if (min_days_after <=? days_diff) && (days_diff <=? max_days_after)
     then Ok (valid ++ [(exp_str, days_diff)]) else Ok valid)%py
    (Ok valid).

Definition find_nearest_post_catalyst_expiration
    (options_expirations : list pyval) (catalyst_date : date)
    (min_days_after max_days_after : Z) : result (option pyval) :=
  (valid_expirations <-
     for_each (nearest_body catalyst_date min_days_after max_days_after)
              options_expirations [] ;;
   match PySort.sort_by_key snd valid_expirations with
   | [] => Ok None
   | (exp_str, _) :: _ => Ok (Some exp_str)
   end)%py.

(** *** screen_options_before_earnings *)

(** The inner [parse_exp]: a date is kept, anything else is read as text. *)
Definition parse_exp (x : pyval) : result (option date) :=
  match x with
  | PDate d => Ok (Some d)
  | _ =>
      try_except_VT
        (d <- strptime (substring 0 10 (py_str x)) ;; Ok (Some d))%py
        (Ok None)
  end.

(** [column > d] on a column of dates and [None]: a null cell compares
    false. *)
Definition cell_gt (c : option date) (d : date) : bool :=
  match c with
  | Some x => d <? x
  | None => false
  end.

Definition cell_eq (c : option date) (d : date) : bool :=
  match c with
  | Some x => x =? d
  | None => false
  end.

(** [Series.min()], nulls skipped; [None] on a column without a date. *)
Fixpoint col_min (l : list (option date)) : option date :=
  match l with
  | [] => None
  | c :: l' =>
      match c, col_min l' with
      | Some x, Some m => Some (Z.min x m)
      | Some x, None => Some x
      | None, m => m
      end
  end.

(** [abs(strike - price) / price * 100] in float arithmetic: with a zero
    price the quotient is an infinity or NaN, written [None]. *)
Definition strike_distance_pct (strike underlying_price : Q) : option Q :=
  if Qeq_bool underlying_price 0 then None
  else Some (Qabs (strike - underlying_price) / underlying_price * 100)%Q.

(** [column <= bound]: an infinity or NaN never passes. *)
Definition cell_le (c : option Q) (bound : Q) : bool :=
  match c with
  | Some v => Qle_bool v bound
  | None => false
  end.

(** [lambda x: x / 100 if x > 10 else x]. *)
Definition normalized_iv (x : Q) : Q :=
  if Qgtb x 10 then (x / 100)%Q else x.

Definition screen_options_before_earnings
    (options_df : DataFrame) (earnings_date : date) (underlying_price : Q)
    (min_iv : option Q) (max_strike_distance_pct : Q)
    (option_type : option string) : result DataFrame :=
  if Chain.empty options_df then Ok []
  else
    (exp_date <- apply_each parse_exp (map expiration options_df) ;;
     let df := combine options_df exp_date in
     let df := filter (fun re => cell_gt (snd re) earnings_date) df in
     let df :=
       match col_min (map snd df) with
       | Some first_exp => filter (fun re => cell_eq (snd re) first_exp) df
       | None => df
       end in
     let df := map fst df in
     if Chain.empty df then Ok []
     else
       let df :=
         filter (fun r => cell_le (strike_distance_pct (strike r) underlying_price)
                                  max_strike_distance_pct) df in
       if Chain.empty df then Ok []
       else
         let df :=
           match min_iv with
           | Some m =>
               filter (fun r => Qgeb (normalized_iv (implied_volatility r)) m) df
           | None => df
           end in
         let df :=
           match option_type with
           | Some t => filter (fun r => String.eqb (Chain.option_type r) t) df
           | None => df
           end in
         Ok df)%py.

(** *** score_catalyst_play *)

Record Score : Type := mkScore {
  composite_score : Q;
  iv_rank_score : Q;
  time_alignment_score : Z;
  expected_move_score : Z;
  recommendation : string
}.

Definition strong_sell : string :=
  "Strong sell premium candidate (high IV, good timing)".
Definition strong_buy : string :=
  "Strong buy premium candidate (low IV, good timing)".
Definition moderate : string :=
  "Moderate opportunity (consider position sizing)".
Definition weak : string := "Weak setup (proceed with caution)".
Definition poor : string := "Poor setup (consider waiting for better entry)".

Definition _get_recommendation (score iv_rank : Q) : string :=
  if Qgeb score 80 && Qgeb iv_rank 70 then strong_sell
  else if Qgeb score 80 && Qltb iv_rank 30 then strong_buy
  else if Qgeb score 60 then moderate
  else if Qgeb score 40 then weak
  else poor.

Definition time_score (days_to_catalyst days_to_expiration : Z) : Z :=
  let days_after_catalyst := days_to_expiration - days_to_catalyst in
  if days_after_catalyst <? 0 then Z.max 0 (50 + days_after_catalyst * 10)
  else if days_after_catalyst <=? 3 then 100
  else if days_after_catalyst <=? 7 then 80
  else Z.max 30 (80 - (days_after_catalyst - 7) * 5).

Definition move_score (expected_move_pct : Q) : Z :=
  if Qltb expected_move_pct 2 then 20
  else if Qltb expected_move_pct 5 then 50
  else if Qltb expected_move_pct 10 then 80
  else 100.

(** The weighted sum before rounding. *)
Definition weighted_score (iv_score : Q) (ts ms : Z) : Q :=
  ((iv_score * (4 # 10)) + (inject_Z ts * (35 # 100))
   + (inject_Z ms * (25 # 100)))%Q.

Definition score_catalyst_play
    (expected_move_pct iv_rank : Q) (days_to_catalyst days_to_expiration : Z)
  : Score :=
  let iv_score := iv_rank in
  let ts := time_score days_to_catalyst days_to_expiration in
  let ms := move_score expected_move_pct in
  let composite := weighted_score iv_score ts ms in
  {| composite_score := py_round composite 1;
     iv_rank_score := py_round iv_score 1;
     time_alignment_score := ts;
     expected_move_score := ms;
     recommendation := _get_recommendation composite iv_rank |}.

(** *** calculate_earnings_iv_premium *)

Record IvCrush : Type := mkIvCrush {
  iv_crush : Q;
  iv_crush_pct : Q
}.

Definition calculate_earnings_iv_premium (pre_earnings_iv post_earnings_iv : Q)
  : IvCrush :=
  let crush := (pre_earnings_iv - post_earnings_iv)%Q in
  let crush_pct :=
    if Qgtb pre_earnings_iv 0 then (crush / pre_earnings_iv * 100)%Q else 0%Q in
  {| iv_crush := py_round crush 4; iv_crush_pct := py_round crush_pct 2 |}.

(** *** combine_catalysts_with_options *)

(** A catalyst event: a dictionary from field names to cells. *)
Definition CatalystDict : Type := list (string * pyval).

(** [d.get(key)], with [None] for the missing key written [None] here and
    a stored [None] written [Some PNone]. *)
Fixpoint dict_get (d : CatalystDict) (key : string) : option pyval :=
  match d with
  | [] => None
  | (k, v) :: d' => if String.eqb k key then Some v else dict_get d' key
  end.

(** [d.get(key, default)]. *)
Definition dict_get_default (d : CatalystDict) (key : string) (default : pyval)
  : pyval :=
  match dict_get d key with
  | Some v => v
  | None => default
  end.

Record CombinedCatalyst : Type := mkCombined {
  catalyst_date : string;
  catalyst_name : pyval;
  catalyst_type : pyval;
  relevant_expirations : list pyval;
  nearest_post_catalyst_expiration : option pyval;
  days_to_catalyst : Z
}.

(** Truthiness of [relevant_exps or nearest_post]. *)
Definition any_expiration (relevant_exps : list pyval) (nearest_post : option pyval)
  : bool :=
  match relevant_exps with
  | _ :: _ => true
  | [] => match nearest_post with
          | Some e => truthy e
          | None => false
          end
  end.

Section Combine.
(** [date.today()] at the time of the call. *)
Variable today : date.

(** The body of the loop over the catalysts.  [strftime("%Y-%m-%d")] is
    written [isoformat], the text of a date with a four-digit year. *)
Definition combine_body (options_expirations : list pyval)
    (catalyst_date_field catalyst_name_field : string)
    (results : list CombinedCatalyst) (catalyst : CatalystDict)
  : result (list CombinedCatalyst) :=
  match dict_get catalyst catalyst_date_field with
  | None => Ok results
  | Some PNone => Ok results
  | Some cell =>
      (parsed <-
         match cell with
         | PStr s =>
             try_except_VT
               (d <- strptime (substring 0 10 s) ;; Ok (Some d))
               (Ok None)
         | PDate d => Ok (Some d)
         | PNone => Ok None
         end ;;
       match parsed with
       | None => Ok results
       | Some d =>
           relevant_exps <- filter_by_catalyst_proximity options_expirations d 5 7 ;;
           nearest_post <- find_nearest_post_catalyst_expiration
                             options_expirations d 1 14 ;;
           if any_expiration relevant_exps nearest_post then
             Ok (results ++
                 [{| catalyst_date := isoformat d;
                     catalyst_name :=
                       dict_get_default catalyst catalyst_name_field (PStr "Unknown");
                     catalyst_type := dict_get_default catalyst "type" (PStr "event");
                     relevant_expirations := relevant_exps;
                     nearest_post_catalyst_expiration := nearest_post;
                     days_to_catalyst := days_between d today |}])
           else Ok results
       end)%py
  end.

Definition combine_catalysts_with_options
    (options_expirations : list pyval) (catalysts : list CatalystDict)
    (catalyst_date_field catalyst_name_field : string)
  : result (list CombinedCatalyst) :=
  (results <- for_each (combine_body options_expirations catalyst_date_field
                                     catalyst_name_field) catalysts [] ;;
   Ok (PySort.sort_by_key days_to_catalyst results))%py.
End Combine.

End CatalystScreener.

(* ================================================================== *)
(** ** catalyst_screener.py: the score in double precision *)

Module CatalystScreener64.

Import Binary64 CatalystScreener.
Local Open Scope Z_scope.

Record Score : Type := mkScore {
  composite_score : float;
  iv_rank_score : float;
  time_alignment_score : Z;
  expected_move_score : Z;
  recommendation : string
}.

Definition _get_recommendation (score iv_rank : float) : string :=
  if ge score (Fin 80) && ge iv_rank (Fin 70) then strong_sell
  else if ge score (Fin 80) && lt iv_rank (Fin 30) then strong_buy
  else if ge score (Fin 60) then moderate
  else if ge score (Fin 40) then weak
  else poor.

Definition move_score (expected_move_pct : float) : Z :=
  if lt expected_move_pct (Fin 2) then 20
  else if lt expected_move_pct (Fin 5) then 50
  else if lt expected_move_pct (Fin 10) then 80
  else 100.

(** [float(n)] of an int score; the scores lie within 0 and 100, far from
    an overflow. *)
Definition of_score (n : Z) : float := of_Q (inject_Z n).

(** [(iv_score * 0.4) + (time_score * 0.35) + (move_score * 0.25)]. *)
Definition weighted_score (iv_score : float) (ts ms : Z) : float :=
  add (add (mul iv_score (of_Q (4 # 10))) (mul (of_score ts) (of_Q (35 # 100))))
      (mul (of_score ms) (of_Q (25 # 100))).

Definition score_catalyst_play
    (expected_move_pct iv_rank : float) (days_to_catalyst days_to_expiration : Z)
  : Score :=
  let iv_score := iv_rank in
  let ts := time_score days_to_catalyst days_to_expiration in
  let ms := move_score expected_move_pct in
  let composite := weighted_score iv_score ts ms in
  {| composite_score := py_round composite 1;
     iv_rank_score := py_round iv_score 1;
     time_alignment_score := ts;
     expected_move_score := ms;
     recommendation := _get_recommendation composite iv_rank |}.

End CatalystScreener64.

(* ================================================================== *)
(** ** options_research.py

    The summary is embedded with its [overview], [catalysts] and
    [expirations_by_catalyst] entries; the strategy texts and the text report
    are presentation and are left out. *)

Module OptionsResearch.

Import CatalystScreener.

(** A clinical-trial record as the summary reads it.  [dict.get] of a
    missing key is [None], so a field read with a plain [get] is an
    option; the two titles are read with a default, which only a missing
    key brings in: there [None] is the missing key and [Some None] a key
    that holds [None]. *)
Record Trial : Type := mkTrial {
  primary_completion_date : pyval;
  brief_title : option (option string);
  title : option (option string);
  phase : option string;
  nct_id : option string
}.

(** The two shapes of catalyst record the summary builds. *)
Inductive Catalyst : Type :=
| EarningsInfo (date_text : string) (days_until : Z)
               (relevant_expirations : list pyval)
               (nearest_post_expiration : option pyval)
| TrialInfo (name : option string) (phase : option string) (date_text : string)
            (days_until : Z) (nct_id : option string)
            (relevant_expirations : list pyval).

(** [c.get("days_until")]. *)
Definition get_days_until (c : Catalyst) : option Z :=
  match c with
  | EarningsInfo _ d _ _ => Some d
  | TrialInfo _ _ _ d _ _ => Some d
  end.

(** [c.get("days_until", 999)]. *)
Definition days_until_key (c : Catalyst) : Z :=
  match get_days_until c with
  | Some d => d
  | None => 999
  end.

Definition catalyst_type (c : Catalyst) : string :=
  match c with
  | EarningsInfo _ _ _ _ => "earnings"
  | TrialInfo _ _ _ _ _ _ => "clinical_trial"
  end.

Definition _classify_iv_environment (iv_rank iv_percentile : option Q) : string :=
  let iv_metric :=
    match iv_rank with
    | Some r => Some r
    | None => iv_percentile
    end in
  match iv_metric with
  | None => "unknown"
  | Some m =>
      if Qgeb m 80 then "very_high"
      else if Qgeb m 60 then "elevated"
      else if Qgeb m 40 then "neutral"
      else if Qgeb m 20 then "low"
      else "very_low"
  end.

Record Overview : Type := mkOverview {
  atm_iv : option Q;
  iv_rank : option Q;
  iv_percentile : option Q;
  iv_environment : string;
  (** the [expected_move_{days}d] entries, keyed by [days] *)
  expected_moves : list (Z * IvAnalytics.ExpectedMove)
}.

Record Summary : Type := mkSummary {
  symbol : string;
  underlying_price : Q;
  overview : Overview;
  catalysts : list Catalyst;
  expirations_by_catalyst : list (string * list pyval)
}.

Section Build.
Variable fsqrt : Q -> Q.
(** [date.today()] at the time of the call. *)
Variable today : date.

(** [atm_iv if atm_iv < 10 else atm_iv / 100]. *)
Definition normalized_iv (atm_iv : Q) : Q :=
  if Qltb atm_iv 10 then atm_iv else (atm_iv / 100)%Q.

Definition expected_move_entries (underlying_price : Q) (atm_iv : option Q)
  : result (list (Z * IvAnalytics.ExpectedMove)) :=
  match atm_iv with
  | None => Ok []
  | Some iv =>
      if Qeq_bool iv 0 then Ok []
      else
        apply_each
          (fun days =>
             (em <- IvAnalytics.calculate_expected_move fsqrt underlying_price
                      (normalized_iv iv) days 365 ;;
              Ok (days, em))%py)
          [7; 14; 30; 45]
  end.

Definition earnings_catalyst (options_expirations : list pyval)
    (earnings_date : date) : result Catalyst :=
  (let days_to_earnings := days_between earnings_date today in
   rel <- filter_by_catalyst_proximity options_expirations earnings_date 5 7 ;;
   nearest <- find_nearest_post_catalyst_expiration
                options_expirations earnings_date 1 14 ;;
   Ok (EarningsInfo (isoformat earnings_date) days_to_earnings rel nearest))%py.

Definition trial_name (t : Trial) : option string :=
  match brief_title t with
  | Some v => v
  | None => match title t with Some v => v | None => Some "Unknown"%string end
  end.

(** The body of the loop over the trials: the catalysts gathered so far,
    extended or not. *)
Definition trial_body (options_expirations : list pyval)
    (acc : list Catalyst) (trial : Trial) : result (list Catalyst) :=
  let trial_date := primary_completion_date trial in
  if truthy trial_date then
    (parsed <-
       match trial_date with
       | PStr s =>
           try_except_VT
             (d <- strptime (substring 0 10 s) ;; Ok (Some d))
             (Ok None)
       | PDate d => Ok (Some d)
       | PNone => Ok None
       end ;;
     match parsed with
     | None => Ok acc
     | Some d =>
         let days_to_trial := days_between d today in
         if 0 <? days_to_trial then
           (rel <- filter_by_catalyst_proximity options_expirations d 5 14 ;;
            Ok (acc ++ [TrialInfo (trial_name trial) (phase trial)
                                  (isoformat d) days_to_trial
                                  (nct_id trial) rel]))
         else Ok acc
     end)%py
  else Ok acc.

Definition build_research_summary
    (symbol : string) (underlying_price : Q) (options_expirations : list pyval)
    (earnings_date : option date) (clinical_trials : option (list Trial))
    (atm_iv iv_rank iv_percentile : option Q) : result Summary :=
  (moves <- expected_move_entries underlying_price atm_iv ;;
   let ov := {| atm_iv := atm_iv; iv_rank := iv_rank;
                iv_percentile := iv_percentile;
                iv_environment := _classify_iv_environment iv_rank iv_percentile;
                expected_moves := moves |} in
   from_earnings <-
     match earnings_date with
     | Some ed =>
         (info <- earnings_catalyst options_expirations ed ;; Ok [info])
     | None => Ok []
     end ;;
   let by_catalyst :=
     match from_earnings with
     | EarningsInfo _ _ rel _ :: _ => [("earnings"%string, rel)]
     | _ => []
     end in
   with_trials <-
     match clinical_trials with
     | Some trials =>
         for_each (trial_body options_expirations) (firstn 5 trials)
                  from_earnings
     | None => Ok from_earnings
     end ;;
   Ok {| symbol := symbol;
         underlying_price := underlying_price;
         overview := ov;
         catalysts := PySort.sort_by_key days_until_key with_trials;
         expirations_by_catalyst := by_catalyst |})%py.
End Build.

(** *** _generate_strategy_ideas *)

Record Idea : Type := mkIdea {
  strategy : string;
  rationale : string;
  bias : string;
  risk_profile : string;
  timing_note : option string
}.

Definition high_iv_ideas (iv_metric : Q) (has_near_catalyst : bool) : list Idea :=
  [ mkIdea "iron_condor"
           ("IV Rank at " ++ format_f0 iv_metric
            ++ "% suggests elevated premium levels")
           "neutral" "defined_risk" None;
    mkIdea "short_strangle" "Sell premium when IV is rich"
           "neutral" "undefined_risk" None ]
  ++ (if has_near_catalyst then
        [ mkIdea "short_straddle_pre_earnings"
                 "Capture IV crush post-catalyst, but manage gamma risk"
                 "neutral" "high_risk"
                 (Some "Enter 1-2 days before, exit immediately after"%string) ]
      else []).

Definition low_iv_ideas (iv_metric : Q) (has_near_catalyst : bool) : list Idea :=
  [ mkIdea "long_straddle"
           ("IV Rank at " ++ format_f0 iv_metric ++ "% suggests cheap premium")
           "neutral" "defined_risk" None;
    mkIdea "calendar_spread" "Buy cheap front-month IV, sell back-month"
           "directional" "defined_risk" None ]
  ++ (if has_near_catalyst then
        [ mkIdea "long_straddle_pre_catalyst"
                 "Buy cheap premium before catalyst-driven IV expansion"
                 "neutral" "defined_risk"
                 (Some "Enter 5-10 days before, exit before or right after"%string) ]
      else []).

Definition neutral_iv_ideas : list Idea :=
  [ mkIdea "vertical_spread"
           "Neutral IV environment favors directional plays with defined risk"
           "directional" "defined_risk" None ].

Definition post_catalyst_idea : Idea :=
  mkIdea "post_catalyst_expiration"
         "Target first expiration after catalyst for maximum theta capture"
         "neutral" "varies" None.

Definition _generate_strategy_ideas (iv_rank iv_percentile : option Q)
    (has_near_catalyst : bool) (options_expirations : list pyval) : list Idea :=
  let iv_metric :=
    match iv_rank with
    | Some r => Some r
    | None => iv_percentile
    end in
  let ideas :=
    match iv_metric with
    | Some m =>
        if Qgeb m 70 then high_iv_ideas m has_near_catalyst
        else if Qle_bool m 30 then low_iv_ideas m has_near_catalyst
        else neutral_iv_ideas
    | None => []
    end in
  ideas ++ (if has_near_catalyst && (2 <? Z.of_nat (List.length options_expirations))
            then [post_catalyst_idea] else []).

(** [any(c.get("days_until", 999) <= 14 for c in summary["catalysts"])]. *)
Definition has_near_catalyst (cs : list Catalyst) : bool :=
  existsb (fun c => days_until_key c <=? 14) cs.

(** The [strategy_ideas] entry that [build_research_summary] stores in the
    summary it returns. *)
Definition summary_strategy_ideas (s : Summary) (options_expirations : list pyval)
  : list Idea :=
  _generate_strategy_ideas (iv_rank (overview s)) (iv_percentile (overview s))
                           (has_near_catalyst (catalysts s)) options_expirations.

End OptionsResearch.

(* ================================================================== *)
(** ** openbb_nih/models/clinical_trials.py *)

Module ClinicalTrials.

Import CatalystScreener.

(** A date sub-object of the registry, [{"date": ..., "type": ...}]:
    [None] when the key is missing, [Some None] when the object carries no
    date text. *)
Definition DateStruct : Type := option (option string).

(** The parts of a study of the registry that the adapter reads here. *)
Record Study : Type := mkStudy {
  nctId : option string;
  officialTitle : option string;
  briefTitle : option string;
  phases : list string;
  primaryCompletionDateStruct : DateStruct
}.

(** The trial dictionary handed to the data model. *)
Record TrialDict : Type := mkTrialDict {
  d_nct_id : option string;
  d_title : option string;
  d_brief_title : option string;
  d_phase : option string;
  d_primary_completion_date : DateStruct
}.

Record NIHClinicalTrialsData : Type := mkData {
  nct_id : string;
  title : string;
  brief_title : option string;
  phase : option string;
  primary_completion_date : option date
}.

Record NIHClinicalTrialsQueryParams : Type := mkQuery {
  start_date : option date;
  end_date : option date
}.

(** [a or b] on optional text: [None] and the empty text are false. *)
Definition text_or (a b : option string) : option string :=
  match a with
  | Some EmptyString => b
  | Some s => Some s
  | None => b
  end.

Definition parse_text (s : string) : result (option date) :=
  try_except_VT
    (d <- strptime (substring 0 10 s) ;; Ok (Some d))%py
    (Ok None).

(** The field validator of the date fields. *)
Definition validate_dates (v : DateStruct) : result (option date) :=
  match v with
  | None => Ok None
  | Some None => Ok None
  | Some (Some s) => parse_text s
  end.

(** [NIHClinicalTrialsData.model_validate]: [nct_id] and [title] are
    required text. *)
Definition model_validate (t : TrialDict) : result NIHClinicalTrialsData :=
  match d_nct_id t, d_title t with
  | Some n, Some ti =>
      (pcd <- validate_dates (d_primary_completion_date t) ;;
       Ok {| nct_id := n; title := ti; brief_title := d_brief_title t;
             phase := d_phase t; primary_completion_date := pcd |})%py
  | _, _ => Raise ValidationError
  end.

Definition build_trial (study : Study) : TrialDict :=
  {| d_nct_id := nctId study;
     d_title := text_or (officialTitle study) (briefTitle study);
     d_brief_title := briefTitle study;
     d_phase := match phases study with
                | [] => None
                | ps => Some (String.concat ", " ps)
                end;
     d_primary_completion_date := primaryCompletionDateStruct study |}.

(** The date the range filter looks at: the text inside the sub-object,
    parsed; an empty or missing text gives no date. *)
Definition primary_date_of (v : DateStruct) : result (option date) :=
  match v with
  | Some (Some EmptyString) => Ok None
  | Some (Some s) => parse_text s
  | _ => Ok None
  end.

(** The two [continue] tests of the loop. *)
Definition out_of_range (query : NIHClinicalTrialsQueryParams)
    (primary_date : option date) : bool :=
  match primary_date with
  | None => false
  | Some d =>
      (match start_date query with Some s => d <? s | None => false end)
      || (match end_date query with Some e => e <? d | None => false end)
  end.

Definition transform_body (query : NIHClinicalTrialsQueryParams)
    (results : list NIHClinicalTrialsData) (study : Study)
  : result (list NIHClinicalTrialsData) :=
  (let trial := build_trial study in
   primary_date <- primary_date_of (d_primary_completion_date trial) ;;
   if out_of_range query primary_date then Ok results
   else (rec <- model_validate trial ;; Ok (results ++ [rec])))%py.

(** [x.primary_completion_date or dateType.max]. *)
Definition sort_key (x : NIHClinicalTrialsData) : date :=
  match primary_completion_date x with
  | Some d => d
  | None => date_max
  end.

Definition transform_data (query : NIHClinicalTrialsQueryParams)
    (data : list Study) : result (list NIHClinicalTrialsData) :=
  match data with
  | [] => Raise (EmptyDataError "No clinical trials found for the given query.")
  | _ =>
      (results <- for_each (transform_body query) data [] ;;
       match results with
       | [] =>
           Raise (EmptyDataError
                    "No clinical trials found matching the date criteria.")
       | _ => Ok (PySort.sort_by_key sort_key results)
       end)%py
  end.

End ClinicalTrials.

(* ================================================================== *)
(** ** openbb_derivatives/options/options_router.py: the two entry points *)

Module OptionsRouter.

Import CatalystScreener.

(** The posted chain as a frame: its rows, the [underlying_price] column
    when the records carry that field (given by its first cell, [None] for
    a null), and the names of any further columns. *)
Record ChainData : Type := mkChainData {
  records : DataFrame;
  price_column : option (option Q);
  extra_columns : list string
}.

Definition base_columns : list string :=
  ["strike"; "expiration"; "option_type"; "implied_volatility";
   "open_interest"; "volume"]%string.

Definition columns (data : ChainData) : list string :=
  (base_columns
   ++ (match price_column data with Some _ => ["underlying_price"%string] | None => [] end)
   ++ extra_columns data)%list.

Definition has_column (data : ChainData) (name : string) : bool :=
  existsb (String.eqb name) (columns data).

Definition msg_no_data : string := "No data to process!".
Definition msg_no_valid_data : string := "No valid data provided!".
Definition msg_invalid_date : string := "Invalid date format. Use YYYY-MM-DD: ".
Definition msg_price_required : string :=
  "underlying_price must be provided or present in the data.".
Definition msg_last_price : string :=
  "Last price must be provided for options filtering, and was not found in the data.".
Definition msg_no_target (target : string) : string :=
  ("Error: No " ++ target ++ " field found.")%string.
Definition msg_no_attribute : string :=
  "'DataFrame' object has no attribute 'underlying_price'".

(** [options.underlying_price.iloc[0]]: attribute access to a column. *)
Definition getattr_underlying_price (data : ChainData) : result (option Q) :=
  match price_column data with
  | Some cell => Ok cell
  | None => Raise (AttributeError msg_no_attribute)
  end.

(** [surface], from its first line to the point where the filtering of the
    rows starts: the value is the resolved [last_price]. *)
Definition surface_preconditions
    (data : ChainData) (target : string) (underlying_price : option Q)
  : result Q :=
  if Chain.empty (records data) then Raise (OpenBBError msg_no_data)
  else
    (last_price <-
       match underlying_price with
       | Some p =>
           if Qeq_bool p 0 then getattr_underlying_price data else Ok (Some p)
       | None => getattr_underlying_price data
       end ;;
     match last_price with
     | None => Raise (OpenBBError msg_last_price)
     | Some p =>
         if negb (has_column data target)
         then Raise (OpenBBError (msg_no_target target))
         else Ok p
     end)%py.

(** A screened record, with the two entries the scoring adds. *)
Record ScoredRecord : Type := mkScored {
  row : OptionRow;
  catalyst_score : option Q;
  recommendation : option string
}.

Section Screen.
Variable fsqrt : Q -> Q.
(** [datetime.today().date()] at the time of the call. *)
Variable today : date.

(** [x ** 0.5] on a float: a negative base gives a complex number,
    written [None]. *)
Definition pow_half (x : Q) : option Q :=
  if Qltb x 0 then None else Some (fsqrt x).

(** The body of the scoring loop.  With a complex [expected_move_pct] the
    comparison [expected_move_pct < 2] inside [score_catalyst_play] is a
    [TypeError], which nothing catches. *)
Definition score_record (days_to_catalyst : Z) (iv_rank : Q) (r : OptionRow)
  : result ScoredRecord :=
  (let exp_str := substring 0 10 (py_str (expiration r)) in
   dte <- try_except_VT
            (exp_date <- strptime exp_str ;; Ok (days_between exp_date today))
            (Ok 30) ;;
   let record_iv := implied_volatility r in
   let record_iv :=
     if negb (Qeq_bool record_iv 0) && Qgtb record_iv 10
     then (record_iv / 100)%Q else record_iv in
   expected_move_pct <-
     (if negb (Qeq_bool record_iv 0) then
        match pow_half (inject_Z dte / 365)%Q with
        | Some root => Ok (record_iv * root * 100)%Q
        | None => Raise TypeError
        end
      else Ok 5%Q) ;;
   let score_info :=
     score_catalyst_play expected_move_pct iv_rank days_to_catalyst dte in
   Ok {| row := r;
         catalyst_score := Some (composite_score score_info);
         recommendation := Some (CatalystScreener.recommendation score_info) |})%py.

Definition catalyst_screen
    (data : ChainData) (catalyst_date : string) (underlying_price : option Q)
    (min_iv : option Q) (max_strike_distance_pct : Q)
    (option_type : option string) (include_scoring : bool)
  : result (list ScoredRecord) :=
  if Chain.empty (records data) then Raise (OpenBBError msg_no_data)
  else
    let df := records data in
    if Chain.empty df then Raise (OpenBBError msg_no_valid_data)
    else
      (catalyst_dt <-
         try_except_V (strptime catalyst_date)
                      (Raise (OpenBBError msg_invalid_date)) ;;
       let last_price :=
         match underlying_price with
         | Some p => Some p
         | None =>
             match price_column data with
             | Some cell => cell
             | None => None
             end
         end in
       match last_price with
       | None => Raise (OpenBBError msg_price_required)
       | Some last_price =>
           screened <- screen_options_before_earnings
                         df catalyst_dt last_price min_iv
                         max_strike_distance_pct option_type ;;
           if Chain.empty screened then Ok []
           else
             if include_scoring then
               let days_to_catalyst := days_between catalyst_dt today in
               let iv_rank := 50%Q in
               apply_each (score_record days_to_catalyst iv_rank) screened
             else
               Ok (map (fun r => {| row := r; catalyst_score := None;
                                    recommendation := None |}) screened)
       end)%py.
End Screen.

End OptionsRouter.

(* ================================================================== *)
(** * Specification-side definitions, views and sample inputs

    For a property that compares the code with the rule the specification
    gives, the rule is written out here in the specification's words; the
    views are the code read without its exception plumbing. *)

Module IvAnalyticsSpec.

Import IvAnalytics.
Local Open Scope Q_scope.

(** The percentile as the specification words it:
    [100 * count(h in hist with h < x) / len(hist)]. *)
Definition count_lower (x : Q) (hist : list Q) : nat :=
  List.length (filter (fun h => Qltb h x) hist).

Definition exact_percentile (x : Q) (hist : list Q) : Q :=
  100 * inject_Z (Z.of_nat (count_lower x hist))
  / inject_Z (Z.of_nat (List.length hist)).

End IvAnalyticsSpec.

Module CatalystScreenerSpec.

Import CatalystScreener.
Local Open Scope Z_scope.

(** What the guarded parse of a list element amounts to: only a text that
    [strptime] accepts gives a date. *)
Definition element_date (x : pyval) : option date :=
  match x with
  | PStr s => strptime_ymd (substring 0 10 s)
  | _ => None
  end.

(** What [parse_exp] returns, as a value. *)
Definition parse_exp_value (x : pyval) : option date :=
  match x with
  | PDate d => Some d
  | _ => strptime_ymd (substring 0 10 (py_str x))
  end.

(** The frame with its [_exp_date] column. *)
Definition dated (df : DataFrame) : list (OptionRow * option date) :=
  map (fun r => (r, parse_exp_value (expiration r))) df.

(** The successive steps of the screen, as plain filters. *)
Definition after_earnings (df : DataFrame) (ed : date) :=
  filter (fun re : OptionRow * option date => cell_gt (snd re) ed) (dated df).

Definition first_expiration_rows (df : DataFrame) (ed : date) : DataFrame :=
  map fst
    (match col_min (map snd (after_earnings df ed)) with
     | Some first_exp =>
         filter (fun re : OptionRow * option date => cell_eq (snd re) first_exp)
                (after_earnings df ed)
     | None => after_earnings df ed
     end).

Definition near_strikes (price max_pct : Q) (df : DataFrame) : DataFrame :=
  filter (fun r => cell_le (strike_distance_pct (strike r) price) max_pct) df.

Definition iv_and_type (min_iv : option Q) (ot : option string) (df : DataFrame)
  : DataFrame :=
  let df := match min_iv with
            | Some m => filter (fun r => Qgeb (normalized_iv (implied_volatility r)) m) df
            | None => df
            end in
  match ot with
  | Some t => filter (fun r => String.eqb (Chain.option_type r) t) df
  | None => df
  end.

Definition screened (df : DataFrame) (ed : date) (price : Q) (min_iv : option Q)
    (max_pct : Q) (ot : option string) : DataFrame :=
  iv_and_type min_iv ot (near_strikes price max_pct (first_expiration_rows df ed)).

(** The time-alignment rule as the specification words it, on
    [d = days_to_expiration - days_to_catalyst]. *)
Definition time_score_spec (d : Z) : Z :=
  if d <? 0 then Z.max 0 (50 + 10 * d)
  else if (0 <=? d) && (d <=? 3) then 100
  else if (4 <=? d) && (d <=? 7) then 80
  else Z.max 30 (80 - 5 * (d - 7)).

(** The right-open bins of the expected move. *)
Definition move_score_spec (e : Q) : Z :=
  if Qlt_le_dec e 2 then 20
  else if Qlt_le_dec e 5 then 50
  else if Qlt_le_dec e 10 then 80
  else 100.

End CatalystScreenerSpec.

Module IvAnalytics64Spec.
Import Binary64.
Local Open Scope Q_scope.

(** The number of entries strictly below [x]. *)
Definition count_below (x : float) (hist : list float) : nat :=
  List.length (filter (fun h => lt h x) hist).

(** [100 * count(h < x) / len(hist)], as a number. *)
Definition exact_share (x : float) (hist : list float) : Q :=
  100 * inject_Z (Z.of_nat (count_below x hist))
  / inject_Z (Z.of_nat (List.length hist)).

End IvAnalytics64Spec.

Module CatalystScreener64Spec.
Import Binary64 CatalystScreenerSpec.
Local Open Scope Q_scope.

(** The right-open bins on a float: no comparison with NaN holds, so NaN
    falls through to the last bin. *)
Definition move_score_bins (e : float) : Z :=
  match e with
  | Fin q => move_score_spec q
  | NInf => 20
  | PInf | NaN => 100
  end.

(** [0.4 * iv_rank + 0.35 * time_score + 0.25 * move_score] in double
    precision, from left to right. *)
Definition weighted_sum (iv_rank : float) (ts ms : Z) : float :=
  add (add (mul (of_Q (4 # 10)) iv_rank)
           (mul (of_Q (35 # 100)) (of_Q (inject_Z ts))))
      (mul (of_Q (25 # 100)) (of_Q (inject_Z ms))).

(** The same sum as a number. *)
Definition exact_weighted_sum (iv_rank : Q) (ts ms : Z) : Q :=
  (4 # 10) * iv_rank + (35 # 100) * inject_Z ts + (25 # 100) * inject_Z ms.

End CatalystScreener64Spec.

Module OptionsResearchSpec.

Import CatalystScreener OptionsResearch.
Local Open Scope Z_scope.

(** The classification as the specification words it. *)
Definition environment_of_metric (m : Q) : string :=
  if Qle_bool 80 m then "very_high"
  else if Qle_bool 60 m then "elevated"
  else if Qle_bool 40 m then "neutral"
  else if Qle_bool 20 m then "low"
  else "very_low".

Definition environment_spec (iv_rank iv_percentile : option Q) : string :=
  match iv_rank, iv_percentile with
  | Some r, _ => environment_of_metric r
  | None, Some p => environment_of_metric p
  | None, None => "unknown"
  end.

(** Ascending order of two catalyst records on their [days_until]. *)
Definition days_until_le (a b : Catalyst) : Prop :=
  exists x y, get_days_until a = Some x /\ get_days_until b = Some y /\ x <= y.

End OptionsResearchSpec.

Module ClinicalTrialsSpec.

Import CatalystScreener ClinicalTrials.
Local Open Scope Z_scope.

(** What [parse_text] returns, as a value. *)
Definition parse_text_value (s : string) : option date :=
  strptime_ymd (substring 0 10 s).

(** The date derived from the sub-object of the registry. *)
Definition derived_date (v : DateStruct) : option date :=
  match v with
  | Some (Some s) => parse_text_value s
  | _ => None
  end.

(** The derived [primary_completion_date] of a study. *)
Definition study_date (st : Study) : option date :=
  derived_date (primaryCompletionDateStruct st).

(** The record the data model makes of a study, when it accepts it. *)
Definition validated (st : Study) : option NIHClinicalTrialsData :=
  match nctId st, text_or (officialTitle st) (briefTitle st) with
  | Some n, Some t =>
      Some {| nct_id := n; title := t; brief_title := briefTitle st;
              phase := d_phase (build_trial st);
              primary_completion_date := study_date st |}
  | _, _ => None
  end.

(** A date lies within the bounds the caller gave: a bound that is absent
    constrains nothing, a bound that is present is inclusive. *)
Definition in_window (q : NIHClinicalTrialsQueryParams) (d : date) : Prop :=
  (forall s, start_date q = Some s -> s <= d)
  /\ (forall e, end_date q = Some e -> d <= e).

(** The studies the range filter lets through. *)
Definition kept (q : NIHClinicalTrialsQueryParams) (data : list Study) : list Study :=
  filter (fun st => negb (out_of_range q (study_date st))) data.

End ClinicalTrialsSpec.

(** Sample inputs for the examples. *)

Module Samples.

Import CatalystScreener ClinicalTrials OptionsRouter.
Local Open Scope Q_scope.

Definition chain_two_expirations : DataFrame :=
  [ mkRow 100 (PStr "2024-01-26") "call" (35 # 100) 10 5;
    mkRow 100 (PStr "2024-02-02") "call" (25 # 100) 10 5;
    mkRow 100 (PStr "not a date") "put" (36 # 100) 10 5;
    mkRow 130 (PStr "2024-01-26") "put" (36 # 100) 10 5 ].

Definition row_iv_ten : OptionRow :=
  mkRow 100 (PStr "2024-01-26") "call" 10 10 5.

Definition study (id : string) (d : DateStruct) : Study :=
  mkStudy (Some id) (Some "A trial"%string) None ["PHASE3"%string] d.

Definition record (id : string) (d : option date) : NIHClinicalTrialsData :=
  mkData id "A trial" None (Some "PHASE3"%string) d.

Definition posted_chain : ChainData :=
  mkChainData chain_two_expirations None [].

Definition scored_row : ScoredRecord :=
  mkScored (mkRow 100 (PStr "2024-01-26") "call" (35 # 100) 10 5)
           (Some 75%Q) (Some moderate).

End Samples.

(* ================================================================== *)
(** * Views for the further properties

    Names for what the functions compute, used to state the properties of
    the second part below. *)

Module IvAnalyticsViews.
Import IvAnalytics.

(** The first ten characters of the text of a row's expiration. *)
Definition expiration_text (r : OptionRow) : string :=
  substring 0 10 (py_str (expiration r)).

(** The rows of one expiration. *)
Definition rows_of_expiration (e : string) (df : DataFrame) : DataFrame :=
  filter (fun r => String.eqb (expiration_text r) e) df.

(** The distance of a row's strike from a price. *)
Definition strike_gap (price : Q) (r : OptionRow) : Q :=
  Qabs (strike r - price).

End IvAnalyticsViews.

Module CatalystScreenerViews.
Import CatalystScreener CatalystScreenerSpec.
Local Open Scope Z_scope.

(** An element is a text that parses to a date whose distance in days from
    the catalyst lies in the closed interval from [lo] to [hi]. *)
Definition within (catalyst : date) (lo hi : Z) (x : pyval) : bool :=
  match element_date x with
  | Some d => (lo <=? days_between d catalyst) && (days_between d catalyst <=? hi)
  | None => false
  end.

(** The distance in days of an element from the catalyst (0 for an element
    that is no date). *)
Definition days_after (catalyst : date) (x : pyval) : Z :=
  match element_date x with
  | Some d => days_between d catalyst
  | None => 0
  end.

(** The date of a catalyst event, when its date field holds a date or a
    text that parses. *)
Definition catalyst_day (date_field : string) (catalyst : CatalystDict)
  : option date :=
  match dict_get catalyst date_field with
  | Some (PDate d) => Some d
  | Some (PStr s) => strptime_ymd (substring 0 10 s)
  | _ => None
  end.

(** What holds of a record of the result: it comes from a catalyst with a
    readable date, carries the expirations from 5 days before to 7 days
    after that date and the nearest one from 1 to 14 days after, and at
    least one of the two is there. *)
Definition well_formed (today : date) (exps : list pyval) (date_field : string)
    (cats : list CatalystDict) (c : CombinedCatalyst) : Prop :=
  exists cat d,
    In cat cats /\ catalyst_day date_field cat = Some d
    /\ catalyst_date c = isoformat d
    /\ days_to_catalyst c = days_between d today
    /\ relevant_expirations c = filter (within d (- 5) 7) exps
    /\ find_nearest_post_catalyst_expiration exps d 1 14
       = Ok (nearest_post_catalyst_expiration c)
    /\ (relevant_expirations c <> [] \/ nearest_post_catalyst_expiration c <> None).

End CatalystScreenerViews.

Module OptionsResearchViews.
Import CatalystScreener CatalystScreenerSpec CatalystScreenerViews OptionsResearch.
Local Open Scope Z_scope.

(** The completion date of a trial record, when it holds a date or a text
    that parses. *)
Definition trial_day (t : Trial) : option date :=
  match primary_completion_date t with
  | PDate d => Some d
  | PStr s => strptime_ymd (substring 0 10 s)
  | PNone => None
  end.

(** The catalyst record of a trial read out on day [d]. *)
Definition trial_info (today : date) (exps : list pyval) (t : Trial) (d : date)
  : Catalyst :=
  TrialInfo (trial_name t) (phase t) (isoformat d) (days_between d today)
            (nct_id t) (filter (within d (- 5) 14) exps).

(** The trials that make it into the summary: those with a readable date
    in the future. *)
Definition future_trials (today : date) (exps : list pyval) (ts : list Trial)
  : list Catalyst :=
  flat_map (fun t => match trial_day t with
                     | Some d => if 0 <? days_between d today
                                 then [trial_info today exps t d] else []
                     | None => []
                     end) ts.

End OptionsResearchViews.

Module OptionsRouterViews.
Import CatalystScreener OptionsRouter.
Local Open Scope Z_scope.

(** The price [catalyst_screen] works with: the parameter, else the first
    cell of the [underlying_price] column. *)
Definition resolved_price (data : ChainData) (underlying_price : option Q)
  : option Q :=
  match underlying_price with
  | Some p => Some p
  | None => match price_column data with
            | Some cell => cell
            | None => None
            end
  end.

(** The days to expiration the scoring loop computes for a row: from the
    text of its expiration, 30 when that text is no date. *)
Definition scoring_dte (today : date) (r : OptionRow) : Z :=
  match strptime_ymd (substring 0 10 (py_str (expiration r))) with
  | Some d => days_between d today
  | None => 30
  end.

(** A row the scoring loop cannot score: it has expired and its IV is not
    zero. *)
Definition expired_with_iv (today : date) (r : OptionRow) : bool :=
  (scoring_dte today r <? 0) && negb (Qeq_bool (implied_volatility r) 0).

End OptionsRouterViews.

(* ================================================================== *)
(** * Properties

    ** Rounding *)

Module NumFacts.
Local Open Scope Q_scope.

Lemma round_half_even_comp (q q' : Q) :
  q == q' -> round_half_even q = round_half_even q'.
Proof.
  intros H. unfold round_half_even.
  rewrite (Qfloor_comp _ _ H).
  assert (E : q - inject_Z (Qfloor q') == q' - inject_Z (Qfloor q')) by (rewrite H; reflexivity).
  rewrite (Qcompare_comp _ _ E _ _ (Qeq_refl (1#2))). reflexivity.
Qed.

Lemma round_half_even_bounds (q : Q) :
  (Qfloor q <= round_half_even q <= Qfloor q + 1)%Z.
Proof.
  unfold round_half_even.
  destruct (Qcompare _ _); [destruct (Z.even _)|..]; lia.
Qed.

Lemma round_half_even_inject (z : Z) : round_half_even (inject_Z z) = z.
Proof.
  unfold round_half_even. rewrite Qfloor_Z.
  assert (E : inject_Z z - inject_Z z == 0) by ring.
  rewrite (Qcompare_comp _ _ E _ _ (Qeq_refl (1#2))). reflexivity.
Qed.

Lemma round_half_even_le (q q' : Q) :
  q <= q' -> (round_half_even q <= round_half_even q')%Z.
Proof.
  intros H.
  pose proof (Qfloor_resp_le _ _ H) as Hf.
  destruct (Z.eq_dec (Qfloor q) (Qfloor q')) as [E|NE].
  - unfold round_half_even. rewrite E.
    assert (Hd : q - inject_Z (Qfloor q') <= q' - inject_Z (Qfloor q')) by lra.
    destruct (Qcompare_spec (q - inject_Z (Qfloor q')) (1#2));
    destruct (Qcompare_spec (q' - inject_Z (Qfloor q')) (1#2));
    try (destruct (Z.even (Qfloor q'))); try lia; exfalso; lra.
  - pose proof (round_half_even_bounds q). pose proof (round_half_even_bounds q'). lia.
Qed.

Lemma pow10_pos (n : nat) : (0 < pow10 n)%Z.
Proof. unfold pow10. apply Z.pow_pos_nonneg; lia. Qed.

Lemma inject_pow10_pos (n : nat) : 0 < inject_Z (pow10 n).
Proof. change 0 with (inject_Z 0). rewrite <- Zlt_Qlt. apply pow10_pos. Qed.

Lemma py_round_comp (q q' : Q) (n : nat) : q == q' -> py_round q n = py_round q' n.
Proof.
  intros H. unfold py_round.
  rewrite (round_half_even_comp (q * inject_Z (pow10 n)) (q' * inject_Z (pow10 n))); [reflexivity|].
  rewrite H; reflexivity.
Qed.

Lemma py_round_value (q : Q) (n : nat) :
  py_round q n == inject_Z (round_half_even (q * inject_Z (pow10 n))) / inject_Z (pow10 n).
Proof. unfold py_round. apply Qred_correct. Qed.

Lemma py_round_le (q q' : Q) (n : nat) : q <= q' -> py_round q n <= py_round q' n.
Proof.
  intros H. rewrite !py_round_value.
  pose proof (inject_pow10_pos n) as Hp.
  apply Qmult_le_compat_r.
  - rewrite <- Zle_Qle. apply round_half_even_le.
    apply Qmult_le_compat_r; [exact H | apply Qlt_le_weak; exact Hp].
  - apply Qlt_le_weak. apply Qinv_lt_0_compat. exact Hp.
Qed.

(** A value with at most [n] decimals is its own rounding. *)
Lemma py_round_exact (q : Q) (n : nat) (k : Z) :
  q * inject_Z (pow10 n) == inject_Z k -> py_round q n == q.
Proof.
  intros H. rewrite py_round_value.
  rewrite (round_half_even_comp _ _ H), round_half_even_inject.
  rewrite <- H. field.
  pose proof (inject_pow10_pos n). lra.
Qed.

End NumFacts.

(* ================================================================== *)
(** ** Binary64 rounding *)

Module Binary64Facts.

Import Binary64 NumFacts.
Local Open Scope Q_scope.

Lemma two_nonzero : ~ 2 == 0.
Proof. intros H. discriminate H. Qed.

Lemma pow2_pos (e : Z) : 0 < pow2 e.
Proof. apply Qpower_0_lt. reflexivity. Qed.

Lemma pow2_le (a b : Z) : (a <= b)%Z -> pow2 a <= pow2 b.
Proof. intros H. apply Qpower_le_compat_l; [exact H | discriminate]. Qed.

Lemma pow2_lt (a b : Z) : (a < b)%Z -> pow2 a < pow2 b.
Proof. intros H. apply Qpower_lt_compat_l; [exact H | reflexivity]. Qed.

Lemma pow2_le_inv (a b : Z) : pow2 a <= pow2 b -> (a <= b)%Z.
Proof. intros H. apply (Qpower_le_compat_l_inv 2); [exact H | reflexivity]. Qed.

Lemma pow2_plus (a b : Z) : pow2 (a + b) == pow2 a * pow2 b.
Proof. apply Qpower_plus. exact two_nonzero. Qed.

Lemma pow2_minus (a b : Z) : pow2 (a - b) == pow2 a / pow2 b.
Proof. apply Qpower_minus. exact two_nonzero. Qed.

Lemma pow2_Z (n : Z) : (0 <= n)%Z -> pow2 n == inject_Z (2 ^ n).
Proof. intros H. symmetry. apply (Zpower_Qpower 2 n H). Qed.

Lemma pow2_half (k : Z) : pow2 (k - 1) == (1 # 2) * pow2 k.
Proof. rewrite pow2_minus. change (pow2 1) with 2. field. Qed.

(** *** Rounding to the nearest integer *)

Lemma round_half_even_error (x : Q) :
  Qabs (inject_Z (round_half_even x) - x) <= 1 # 2.
Proof.
  pose proof (Qfloor_le x) as Hlo. pose proof (Qlt_floor x) as Hhi.
  rewrite inject_Z_plus in Hhi. change (inject_Z 1) with 1 in Hhi.
  apply Qabs_Qle_condition. unfold round_half_even.
  destruct (Qcompare_spec (x - inject_Z (Qfloor x)) (1 # 2)) as [E|L|G].
  - destruct (Z.even (Qfloor x)).
    + lra.
    + rewrite inject_Z_plus. change (inject_Z 1) with 1. lra.
  - lra.
  - rewrite inject_Z_plus. change (inject_Z 1) with 1. lra.
Qed.

(** An integer at a distance below one half is the rounded value. *)
Lemma round_half_even_near (x : Q) (j : Z) :
  Qabs (x - inject_Z j) < 1 # 2 -> round_half_even x = j.
Proof.
  intros H. apply Qabs_Qlt_condition in H. destruct H as [H1 H2].
  pose proof (round_half_even_error x) as He.
  apply Qabs_Qle_condition in He. destruct He as [He1 He2].
  assert (Hlt : (- 1 < inject_Z (round_half_even x) - inject_Z j < 1)) by lra.
  destruct Hlt as [Ha Hb].
  assert (Ha' : inject_Z (j - 1) < inject_Z (round_half_even x)).
  { unfold Z.sub. rewrite inject_Z_plus. change (inject_Z (- (1))) with (- (1)). lra. }
  assert (Hb' : inject_Z (round_half_even x) < inject_Z (j + 1)).
  { rewrite inject_Z_plus. change (inject_Z 1) with 1. lra. }
  rewrite <- Zlt_Qlt in Ha', Hb'. lia.
Qed.

(** *** The binary logarithm *)

Lemma ilog2_comp (q q' : Q) : q == q' -> ilog2 q = ilog2 q'.
Proof. intros H. unfold ilog2. rewrite (Qred_complete _ _ H). reflexivity. Qed.

Lemma ilog2_lower (q : Q) : 0 < q -> pow2 (ilog2 q) <= q.
Proof.
  intros Hq. unfold ilog2.
  assert (Er : Qred q == q) by apply Qred_correct.
  assert (Hr : 0 < Qred q) by (rewrite Er; exact Hq).
  destruct (Qred q) as [n d] eqn:E. cbn [Qnum Qden].
  assert (Hn : (0 < n)%Z).
  { unfold Qlt in Hr. simpl in Hr. lia. }
  destruct (Qle_bool (pow2 (Z.log2 n - Z.log2 (Z.pos d))) (n # d)) eqn:Eb.
  - apply Qle_bool_iff in Eb. rewrite <- Er. exact Eb.
  - rewrite <- Er.
    pose proof (Z.log2_spec n Hn) as [Ha _].
    pose proof (Z.log2_spec (Z.pos d) (Pos2Z.is_pos d)) as [_ Hb].
    pose proof (Z.log2_nonneg n) as Ha0.
    pose proof (Z.log2_nonneg (Z.pos d)) as Hb0.
    set (a := Z.log2 n) in *. set (b := Z.log2 (Z.pos d)) in *.
    replace (a - b - 1)%Z with (a - Z.succ b)%Z by lia.
    rewrite pow2_minus, (pow2_Z a Ha0), (pow2_Z (Z.succ b)) by lia.
    assert (HB : (0 < 2 ^ Z.succ b)%Z) by (apply Z.pow_pos_nonneg; lia).
    apply Qle_shift_div_r.
    + change 0 with (inject_Z 0). rewrite <- Zlt_Qlt. exact HB.
    + unfold Qle, Qmult, inject_Z. simpl. nia.
Qed.

(** *** Rounding to binary64 *)

Lemma exponent_comp (q q' : Q) : q == q' -> exponent q = exponent q'.
Proof.
  intros H. unfold exponent. rewrite (ilog2_comp (Qabs q) (Qabs q')); [reflexivity|].
  rewrite H. reflexivity.
Qed.

Lemma round_fin_comp (q q' : Q) : q == q' -> round_fin q = round_fin q'.
Proof.
  intros H. unfold round_fin.
  assert (E0 : Qeq_bool q 0 = Qeq_bool q' 0).
  { destruct (Qeq_bool q 0) eqn:E, (Qeq_bool q' 0) eqn:E'; try reflexivity.
    - apply Qeq_bool_iff in E. rewrite H in E. apply Qeq_bool_iff in E. congruence.
    - apply Qeq_bool_iff in E'. rewrite <- H in E'. apply Qeq_bool_iff in E'. congruence. }
  rewrite E0, (exponent_comp q q' H).
  destruct (Qeq_bool q' 0); [reflexivity|].
  apply Qred_complete.
  rewrite (round_half_even_comp (q / pow2 (exponent q')) (q' / pow2 (exponent q')));
    [reflexivity|].
  rewrite H. reflexivity.
Qed.

Lemma of_Q_comp (q q' : Q) : q == q' -> of_Q q = of_Q q'.
Proof. intros H. unfold of_Q. rewrite (round_fin_comp q q' H). reflexivity. Qed.

Lemma round_fin_error (q : Q) (k : Z) :
  (-1022 <= k)%Z -> Qabs q <= pow2 k ->
  Qabs (round_fin q - q) <= pow2 (k - 53).
Proof.
  intros Hk Hq. unfold round_fin.
  destruct (Qeq_bool q 0) eqn:E0.
  - apply Qeq_bool_iff in E0.
    assert (Ez : Qabs (0 - q) == 0) by (rewrite E0; reflexivity).
    rewrite Ez. apply Qlt_le_weak. apply pow2_pos.
  - assert (Hne : ~ q == 0).
    { intros H. apply Qeq_bool_iff in H. congruence. }
    assert (Hpos : 0 < Qabs q).
    { destruct (Qlt_le_dec 0 (Qabs q)) as [H|H]; [exact H|].
      exfalso. apply Hne. apply Qabs_Qle_condition in H. lra. }
    set (e := exponent q).
    pose proof (pow2_pos e) as He.
    assert (Hle : (e <= k - 52)%Z).
    { unfold e, exponent.
      assert (Hl : (ilog2 (Qabs q) <= k)%Z).
      { apply pow2_le_inv. eapply Qle_trans; [apply ilog2_lower; exact Hpos | exact Hq]. }
      lia. }
    rewrite Qred_correct.
    set (x := q / pow2 e).
    assert (Ex : q == x * pow2 e) by (unfold x; field; lra).
    assert (Ed : inject_Z (round_half_even x) * pow2 e - q
                 == (inject_Z (round_half_even x) - x) * pow2 e)
      by (rewrite Ex at 1; ring).
    rewrite Ed, Qabs_Qmult, (Qabs_pos (pow2 e)) by lra.
    pose proof (round_half_even_error x) as Hr.
    replace (k - 53)%Z with (k - 52 - 1)%Z by lia. rewrite pow2_half.
    pose proof (pow2_le e (k - 52) Hle) as Hp.
    pose proof (Qabs_nonneg (inject_Z (round_half_even x) - x)) as Hn.
    eapply Qle_trans; [apply Qmult_le_compat_r; [exact Hr | lra]|].
    apply Qmult_le_l; [reflexivity | exact Hp].
Qed.

(** Below the overflow threshold the value is the rounded one. *)
Lemma of_Q_fin (q : Q) (k : Z) :
  (-1022 <= k <= 1023)%Z -> Qabs q <= pow2 k -> of_Q q = Fin (round_fin q).
Proof.
  intros [Hk1 Hk2] Hq.
  pose proof (round_fin_error q k Hk1 Hq) as He.
  apply Qabs_diff_Qle_condition in He. destruct He as [He1 He2].
  apply Qabs_Qle_condition in Hq. destruct Hq as [Hq1 Hq2].
  pose proof (pow2_lt (k - 53) k ltac:(lia)) as Hs.
  pose proof (pow2_le (k + 1) 1024 ltac:(lia)) as Ht.
  assert (E2 : pow2 (k + 1) == 2 * pow2 k).
  { rewrite pow2_plus. change (pow2 1) with 2. ring. }
  pose proof (pow2_pos (k - 53)) as Hp.
  unfold of_Q.
  destruct (Qle_bool (pow2 1024) (round_fin q)) eqn:E1.
  { apply Qle_bool_iff in E1. lra. }
  destruct (Qle_bool (round_fin q) (- pow2 1024)) eqn:E3.
  { apply Qle_bool_iff in E3. lra. }
  reflexivity.
Qed.

(** The two facts together, as they are used. *)
Lemma of_Q_near (q : Q) (k : Z) :
  (-1022 <= k <= 1023)%Z -> Qabs q <= pow2 k ->
  exists r, of_Q q = Fin r /\ Qabs (r - q) <= pow2 (k - 53).
Proof.
  intros Hk Hq. exists (round_fin q). split.
  - apply (of_Q_fin q k Hk Hq).
  - apply round_fin_error; [lia | exact Hq].
Qed.

Lemma add_comm (x y : float) : add x y = add y x.
Proof.
  destruct x as [a| | |], y as [b| | |]; try reflexivity.
  simpl. apply of_Q_comp. ring.
Qed.

Lemma mul_comm (x y : float) : mul x y = mul y x.
Proof.
  destruct x as [a| | |], y as [b| | |]; try reflexivity.
  simpl. apply of_Q_comp. ring.
Qed.

Lemma lt_irrefl (x : float) : lt x x = false.
Proof.
  destruct x as [a| | |]; try reflexivity.
  simpl. unfold Qltb. apply negb_false_iff. apply Qle_bool_iff. apply Qle_refl.
Qed.

Lemma ilog2_upper (q : Q) : 0 < q -> q < pow2 (ilog2 q + 1).
Proof.
  intros Hq. unfold ilog2.
  assert (Er : Qred q == q) by apply Qred_correct.
  assert (Hr : 0 < Qred q) by (rewrite Er; exact Hq).
  destruct (Qred q) as [n d] eqn:E. cbn [Qnum Qden].
  assert (Hn : (0 < n)%Z).
  { unfold Qlt in Hr. simpl in Hr. lia. }
  destruct (Qle_bool (pow2 (Z.log2 n - Z.log2 (Z.pos d))) (n # d)) eqn:Eb.
  - rewrite <- Er.
    pose proof (Z.log2_spec n Hn) as [_ Ha].
    pose proof (Z.log2_spec (Z.pos d) (Pos2Z.is_pos d)) as [Hb _].
    pose proof (Z.log2_nonneg n) as Ha0.
    pose proof (Z.log2_nonneg (Z.pos d)) as Hb0.
    set (a := Z.log2 n) in *. set (b := Z.log2 (Z.pos d)) in *.
    replace (a - b + 1)%Z with (Z.succ a - b)%Z by lia.
    rewrite pow2_minus, (pow2_Z b Hb0), (pow2_Z (Z.succ a)) by lia.
    assert (HB : (0 < 2 ^ b)%Z) by (apply Z.pow_pos_nonneg; lia).
    apply Qlt_shift_div_l.
    + change 0 with (inject_Z 0). rewrite <- Zlt_Qlt. exact HB.
    + unfold Qlt, Qmult, inject_Z. simpl. nia.
  - rewrite <- Er. replace (Z.log2 n - Z.log2 (Z.pos d) - 1 + 1)%Z
      with (Z.log2 n - Z.log2 (Z.pos d))%Z by lia.
    apply Qnot_le_lt. intros H. apply Qle_bool_iff in H. congruence.
Qed.

Lemma ilog2_ge (q : Q) (k : Z) : pow2 k <= q -> (k <= ilog2 q)%Z.
Proof.
  intros H.
  assert (Hq : 0 < q) by (eapply Qlt_le_trans; [apply pow2_pos | exact H]).
  pose proof (ilog2_upper q Hq) as Hu.
  assert (Hlt : pow2 k < pow2 (ilog2 q + 1)) by (eapply Qle_lt_trans; eassumption).
  apply (Qpower_lt_compat_l_inv 2) in Hlt; [lia | reflexivity].
Qed.

(** In the normal range the relative error is at most [2 ^ -53]. *)
Lemma round_fin_rel (q : Q) :
  pow2 (-1022) <= Qabs q -> Qabs (round_fin q - q) <= Qabs q * pow2 (-53).
Proof.
  intros Hq.
  pose proof (pow2_pos (-1022)) as Hp.
  assert (Hpos : 0 < Qabs q) by lra.
  assert (Hne : ~ q == 0).
  { intros H. rewrite H in Hpos. discriminate Hpos. }
  unfold round_fin.
  destruct (Qeq_bool q 0) eqn:E0; [apply Qeq_bool_iff in E0; contradiction|].
  pose proof (ilog2_ge _ _ Hq) as Hl.
  assert (Ee : exponent q = (ilog2 (Qabs q) - 52)%Z) by (unfold exponent; lia).
  rewrite Ee. set (e := (ilog2 (Qabs q) - 52)%Z).
  pose proof (pow2_pos e) as He.
  rewrite Qred_correct.
  set (x := q / pow2 e).
  assert (Ex : q == x * pow2 e) by (unfold x; field; lra).
  assert (Ed : inject_Z (round_half_even x) * pow2 e - q
               == (inject_Z (round_half_even x) - x) * pow2 e)
    by (rewrite Ex at 1; ring).
  rewrite Ed, Qabs_Qmult, (Qabs_pos (pow2 e)) by lra.
  pose proof (round_half_even_error x) as Hr.
  pose proof (ilog2_lower _ Hpos) as Hlow.
  assert (Ep : pow2 (ilog2 (Qabs q)) == pow2 e * pow2 52).
  { unfold e. rewrite <- pow2_plus. replace (ilog2 (Qabs q) - 52 + 52)%Z
      with (ilog2 (Qabs q)) by lia. reflexivity. }
  rewrite Ep in Hlow.
  assert (P52 : pow2 52 == 4503599627370496) by reflexivity.
  assert (P53 : pow2 (-53) == 1 # 9007199254740992) by reflexivity.
  rewrite P52 in Hlow. rewrite P53.
  eapply Qle_trans; [apply Qmult_le_compat_r; [exact Hr | lra]|].
  revert Hlow. generalize (Qabs q). intros a Hlow. lra.
Qed.

(** *** The square root *)

Lemma sqrt_significand_spec (t : Q) :
  1 <= t ->
  (Z.sqrt (Qfloor t) <= sqrt_significand t)%Z
  /\ (inject_Z (sqrt_significand t) - (1 # 2)) * (inject_Z (sqrt_significand t) - (1 # 2)) <= t
  /\ t <= (inject_Z (sqrt_significand t) + (1 # 2)) * (inject_Z (sqrt_significand t) + (1 # 2)).
Proof.
  intros Ht. unfold sqrt_significand.
  pose proof (Qfloor_le t) as Hlo. pose proof (Qlt_floor t) as Hhi.
  assert (Hf : (1 <= Qfloor t)%Z).
  { change 1%Z with (Qfloor 1). apply Qfloor_resp_le. exact Ht. }
  pose proof (Z.sqrt_spec (Qfloor t) ltac:(lia)) as [Hs1 Hs2].
  set (s := Z.sqrt (Qfloor t)) in *.
  assert (Hs : (1 <= s)%Z).
  { change 1%Z with (Z.sqrt 1). apply Z.sqrt_le_mono. exact Hf. }
  assert (H1 : inject_Z s * inject_Z s <= t).
  { rewrite <- inject_Z_mult. eapply Qle_trans; [|exact Hlo]. rewrite <- Zle_Qle. exact Hs1. }
  assert (H2 : t < (inject_Z s + 1) * (inject_Z s + 1)).
  { eapply Qlt_le_trans; [exact Hhi|].
    change 1 with (inject_Z 1). rewrite <- inject_Z_plus, <- inject_Z_mult, <- Zle_Qle.
    unfold Z.succ in Hs2. lia. }
  assert (H0 : 1 <= inject_Z s) by (change 1 with (inject_Z 1); rewrite <- Zle_Qle; exact Hs).
  assert (Ec : inject_Z (s * s + s) + (1 # 4)
               == (inject_Z s + (1 # 2)) * (inject_Z s + (1 # 2))).
  { rewrite inject_Z_plus, inject_Z_mult. ring. }
  assert (Es1 : inject_Z (s + 1) == inject_Z s + 1).
  { rewrite inject_Z_plus. reflexivity. }
  destruct (Qcompare_spec t (inject_Z (s * s + s) + (1 # 4))) as [E|L|G].
  - rewrite Ec in E. destruct (Z.even s).
    + split; [lia|]. split; [|rewrite E; apply Qle_refl].
      revert H1 H0. generalize (inject_Z s). intros S H1 H0. nra.
    + split; [lia|]. rewrite Es1. split.
      * rewrite E. revert H0. generalize (inject_Z s). intros S H0. nra.
      * revert H2 H0. generalize (inject_Z s). intros S H2 H0. nra.
  - rewrite Ec in L. split; [lia|]. split; [|apply Qlt_le_weak; exact L].
    revert H1 H0. generalize (inject_Z s). intros S H1 H0. nra.
  - rewrite Ec in G. split; [lia|]. rewrite Es1. split.
    + revert G H0. generalize (inject_Z s). intros S G H0. nra.
    + revert H2 H0. generalize (inject_Z s). intros S H2 H0. nra.
Qed.

(** The rounded square root is positive and its square is the argument up
    to a relative error of [2 ^ -51]. *)
Lemma sqrt_fin_spec (q : Q) :
  0 < q ->
  0 < sqrt_fin q /\ Qabs (sqrt_fin q * sqrt_fin q - q) <= q * pow2 (-51).
Proof.
  intros Hq. unfold sqrt_fin.
  destruct (Qle_bool q 0) eqn:E0; [apply Qle_bool_iff in E0; lra|].
  set (e := (ilog2 q / 2 - 52)%Z).
  pose proof (pow2_pos e) as He.
  pose proof (pow2_pos (2 * e)) as He2.
  assert (Ee2 : pow2 (2 * e) == pow2 e * pow2 e).
  { replace (2 * e)%Z with (e + e)%Z by lia. apply pow2_plus. }
  set (t := q / pow2 (2 * e)).
  assert (Et : q == t * (pow2 e * pow2 e)).
  { unfold t. rewrite <- Ee2. field. lra. }
  assert (Ht : pow2 104 <= t).
  { unfold t. apply Qle_shift_div_l; [exact He2|].
    rewrite <- pow2_plus.
    eapply Qle_trans; [|apply ilog2_lower; exact Hq].
    apply pow2_le. unfold e.
    pose proof (Z.mul_div_le (ilog2 q) 2 ltac:(lia)). lia. }
  clearbody t.
  assert (P104 : pow2 104 == inject_Z (2 ^ 104)) by reflexivity.
  rewrite P104 in Ht.
  assert (Ht1 : 1 <= t).
  { eapply Qle_trans; [|exact Ht]. discriminate. }
  destruct (sqrt_significand_spec t Ht1) as [Hs [Hlo Hhi]].
  assert (Hm : (2 ^ 52 <= sqrt_significand t)%Z).
  { eapply Z.le_trans; [|exact Hs].
    change (2 ^ 52)%Z with (Z.sqrt (2 ^ 104)). apply Z.sqrt_le_mono.
    change (2 ^ 104)%Z with (Qfloor (inject_Z (2 ^ 104))). apply Qfloor_resp_le. exact Ht. }
  set (m := sqrt_significand t) in *.
  assert (HM : 4503599627370496 <= inject_Z m).
  { change 4503599627370496 with (inject_Z (2 ^ 52)). rewrite <- Zle_Qle. exact Hm. }
  rewrite Qred_correct.
  assert (P51 : pow2 (-51) == 1 # 2251799813685248) by reflexivity.
  rewrite P51.
  split.
  - apply Qmult_lt_0_compat; [lra | exact He].
  - assert (Ed : inject_Z m * pow2 e * (inject_Z m * pow2 e) - q
                 == (inject_Z m * inject_Z m - t) * (pow2 e * pow2 e)).
    { rewrite Et at 1. ring. }
    rewrite Ed, Qabs_Qmult.
    assert (Hpp : 0 < pow2 e * pow2 e) by (apply Qmult_lt_0_compat; exact He).
    rewrite (Qabs_pos (pow2 e * pow2 e)) by lra.
    assert (Hrel : Qabs (inject_Z m * inject_Z m - t) <= t * (1 # 2251799813685248)).
    { apply Qabs_Qle_condition.
      revert Hlo Hhi HM. generalize (inject_Z m). intros M Hlo Hhi HM.
      split; nra. }
    eapply Qle_trans; [apply Qmult_le_compat_r; [exact Hrel | lra]|].
    rewrite Et. apply Qle_lteq. right. ring.
Qed.

Lemma sqrt_fin_zero (q : Q) : q == 0 -> sqrt_fin q = 0.
Proof.
  intros H. unfold sqrt_fin.
  assert (E : Qle_bool q 0 = true) by (apply Qle_bool_iff; rewrite H; apply Qle_refl).
  rewrite E. reflexivity.
Qed.

Lemma Qred_inject_Z (z : Z) : Qred (inject_Z z) = inject_Z z.
Proof.
  unfold Qred, inject_Z.
  pose proof (Z.ggcd_gcd z 1) as Hg.
  pose proof (Z.ggcd_correct_divisors z 1) as Hd.
  destruct (Z.ggcd z (Z.pos 1)) as [g [a b]]. simpl in Hg, Hd.
  rewrite Z.gcd_1_r in Hg. subst g. destruct Hd as [Ha Hb].
  assert (Ea : a = z) by lia. assert (Eb : b = 1%Z) by lia. subst a b. reflexivity.
Qed.

(** An integer of at most 53 bits is a double. *)
Lemma of_Q_int (z : Z) :
  (Z.abs z <= 2 ^ 53)%Z -> of_Q (inject_Z z) = Fin (inject_Z z).
Proof.
  intros Hz.
  assert (P53 : pow2 53 == inject_Z (2 ^ 53)) by reflexivity.
  assert (Habs : Qabs (inject_Z z) <= pow2 53).
  { rewrite P53. apply Qabs_Qle_condition. split.
    - change (- inject_Z (2 ^ 53)) with (inject_Z (- 2 ^ 53)). rewrite <- Zle_Qle. lia.
    - rewrite <- Zle_Qle. lia. }
  rewrite (of_Q_fin _ 53) by (try lia; exact Habs). f_equal.
  unfold round_fin.
  destruct (Qeq_bool (inject_Z z) 0) eqn:E0.
  { apply Qeq_bool_iff in E0. apply (inject_Z_injective z 0) in E0. subst z. reflexivity. }
  assert (Hne : ~ inject_Z z == 0).
  { intros H. apply Qeq_bool_iff in H. congruence. }
  assert (Hpos : 0 < Qabs (inject_Z z)).
  { destruct (Qlt_le_dec 0 (Qabs (inject_Z z))) as [H|H]; [exact H|].
    exfalso. apply Hne. apply Qabs_Qle_condition in H. lra. }
  set (e := exponent (inject_Z z)).
  assert (He : (-1074 <= e <= 1)%Z).
  { unfold e, exponent.
    assert (Hl : (ilog2 (Qabs (inject_Z z)) <= 53)%Z).
    { apply pow2_le_inv. eapply Qle_trans; [apply ilog2_lower; exact Hpos | exact Habs]. }
    lia. }
  transitivity (Qred (inject_Z z)); [apply Qred_complete | apply Qred_inject_Z].
  destruct (Z.eq_dec e 1) as [E1|N1].
  - (* only at the largest value, [2 ^ 53], which is even *)
    assert (Hl : (ilog2 (Qabs (inject_Z z)) = 53)%Z) by (unfold e, exponent in E1; lia).
    pose proof (ilog2_lower _ Hpos) as Hlo. rewrite Hl, P53 in Hlo.
    assert (Ez : Z.abs z = (2 ^ 53)%Z).
    { change (Qabs (inject_Z z)) with (inject_Z (Z.abs z)) in Hlo.
      rewrite <- Zle_Qle in Hlo. lia. }
    rewrite E1.
    destruct (Z.abs_eq_or_opp z) as [Ea|Ea]; rewrite Ea in Ez.
    + rewrite Ez. reflexivity.
    + assert (Ez' : z = (- 2 ^ 53)%Z) by lia. rewrite Ez'. reflexivity.
  - assert (Hn : (0 <= - e)%Z) by lia.
    assert (Ep : pow2 e == / inject_Z (2 ^ (- e))).
    { replace e with (- (- e))%Z at 1 by lia. unfold pow2. rewrite Qpower_opp.
      fold (pow2 (- e)). rewrite (pow2_Z (- e) Hn). reflexivity. }
    assert (Hp : 0 < inject_Z (2 ^ (- e))).
    { change 0 with (inject_Z 0). rewrite <- Zlt_Qlt. apply Z.pow_pos_nonneg; lia. }
    assert (Ex : inject_Z z / pow2 e == inject_Z (z * 2 ^ (- e))).
    { rewrite Ep, inject_Z_mult. field. lra. }
    rewrite (round_half_even_comp _ _ Ex), round_half_even_inject.
    rewrite Ep, inject_Z_mult. field. lra.
Qed.

Lemma mul_near (a b : Q) (k : Z) :
  (-1022 <= k <= 1023)%Z -> Qabs (a * b) <= pow2 k ->
  exists r, mul (Fin a) (Fin b) = Fin r /\ Qabs (r - a * b) <= pow2 (k - 53).
Proof. intros Hk H. apply (of_Q_near (a * b) k Hk H). Qed.

Lemma add_near (a b : Q) (k : Z) :
  (-1022 <= k <= 1023)%Z -> Qabs (a + b) <= pow2 k ->
  exists r, add (Fin a) (Fin b) = Fin r /\ Qabs (r - (a + b)) <= pow2 (k - 53).
Proof. intros Hk H. apply (of_Q_near (a + b) k Hk H). Qed.

(** Rounding to [n] decimals moves a value by half a unit of the last
    decimal, and by the rounding to a double. *)
Lemma py_round_near (q : Q) (n : nat) (k : Z) :
  (-1022 <= k <= 1023)%Z -> Qabs q + (1 # 2) <= pow2 k ->
  exists v, py_round (Fin q) n = Fin v
            /\ Qabs (v - q) <= (1 # 2) / inject_Z (pow10 n) + pow2 (k - 53).
Proof.
  intros Hk Hq. unfold py_round.
  pose proof (inject_pow10_pos n) as HT.
  assert (HT1 : 1 <= inject_Z (pow10 n)).
  { change 1 with (inject_Z 1). rewrite <- Zle_Qle. pose proof (pow10_pos n). lia. }
  set (T := inject_Z (pow10 n)) in *.
  pose proof (round_half_even_error (q * T)) as He.
  set (z := inject_Z (round_half_even (q * T))) in *.
  assert (Ew : z / T - q == (z - q * T) / T) by (field; lra).
  assert (Hw : Qabs (z / T - q) <= (1 # 2) / T).
  { rewrite Ew. unfold Qdiv. rewrite Qabs_Qmult.
    rewrite (Qabs_pos (/ T)) by (apply Qlt_le_weak, Qinv_lt_0_compat; exact HT).
    apply Qmult_le_compat_r; [exact He|].
    apply Qlt_le_weak, Qinv_lt_0_compat; exact HT. }
  assert (Hhalf : (1 # 2) / T <= 1 # 2).
  { apply Qle_shift_div_r; [exact HT|]. lra. }
  assert (Habs : Qabs (z / T) <= pow2 k).
  { assert (Etri : z / T == (z / T - q) + q) by ring.
    rewrite Etri. eapply Qle_trans; [apply Qabs_triangle|]. lra. }
  destruct (of_Q_near (z / T) k Hk Habs) as [v [Ev Bv]].
  exists v. split; [exact Ev|].
  assert (Etri : v - q == (v - z / T) + (z / T - q)) by ring.
  rewrite Etri. eapply Qle_trans; [apply Qabs_triangle|]. lra.
Qed.

Lemma sub_near (a b : Q) (k : Z) :
  (-1022 <= k <= 1023)%Z -> Qabs (a - b) <= pow2 k ->
  exists r, sub (Fin a) (Fin b) = Fin r /\ Qabs (r - (a - b)) <= pow2 (k - 53).
Proof. intros Hk H. apply (of_Q_near (a - b) k Hk H). Qed.

Lemma exponent_le_abs (q : Q) :
  pow2 (-1074) <= Qabs q -> pow2 (exponent q) <= Qabs q.
Proof.
  intros H.
  assert (Hpos : 0 < Qabs q).
  { eapply Qlt_le_trans; [apply pow2_pos | exact H]. }
  unfold exponent.
  destruct (Z.max_spec (ilog2 (Qabs q) - 52) (-1074)) as [[_ ->]|[_ ->]]; [exact H|].
  eapply Qle_trans; [|apply ilog2_lower; exact Hpos].
  apply pow2_le. lia.
Qed.

Lemma round_fin_value (q : Q) :
  ~ q == 0 ->
  round_fin q == inject_Z (round_half_even (q / pow2 (exponent q))) * pow2 (exponent q).
Proof.
  intros Hne. unfold round_fin.
  destruct (Qeq_bool q 0) eqn:E; [apply Qeq_bool_iff in E; contradiction|].
  apply Qred_correct.
Qed.

(** Rounding keeps the sign. *)
Lemma round_fin_nonneg (q : Q) : 0 <= q -> 0 <= round_fin q.
Proof.
  intros Hq. unfold round_fin.
  destruct (Qeq_bool q 0); [apply Qle_refl|].
  rewrite Qred_correct.
  pose proof (pow2_pos (exponent q)) as He.
  apply Qmult_le_0_compat; [|apply Qlt_le_weak; exact He].
  change 0 with (inject_Z 0). rewrite <- Zle_Qle.
  rewrite <- (round_half_even_inject 0). apply round_half_even_le.
  apply Qle_shift_div_l; [exact He|]. rewrite Qmult_0_l. exact Hq.
Qed.

Lemma round_fin_negative (q : Q) :
  q < 0 -> pow2 (-1074) <= Qabs q -> round_fin q < 0.
Proof.
  intros Hq Habs.
  assert (Hne : ~ q == 0) by lra.
  rewrite (round_fin_value q Hne).
  pose proof (pow2_pos (exponent q)) as He.
  pose proof (exponent_le_abs q Habs) as Hle.
  rewrite (Qabs_neg q) in Hle by lra.
  revert He Hle. generalize (pow2 (exponent q)). intros pe He Hle.
  assert (Hx : q / pe <= inject_Z (-1)).
  { apply Qle_shift_div_r; [exact He|]. change (inject_Z (-1)) with (- (1)). lra. }
  apply round_half_even_le in Hx. rewrite round_half_even_inject in Hx.
  rewrite Zle_Qle in Hx. change (inject_Z (-1)) with (- (1)) in Hx.
  revert Hx. generalize (inject_Z (round_half_even (q / pe))).
  intros z Hx. nra.
Qed.

(** From [2 ^ 1024] on a quotient does not fit. *)
Lemma of_Q_overflow (q : Q) :
  pow2 1024 <= Qabs q -> forall r, of_Q q <> Fin r.
Proof.
  intros H r.
  pose proof (pow2_pos 1024) as H1024.
  assert (Hpos : 0 < Qabs q) by lra.
  assert (Hne : ~ q == 0).
  { intros E. rewrite E in Hpos. discriminate Hpos. }
  pose proof (ilog2_ge _ _ H) as Hl.
  assert (Ee : exponent q = (ilog2 (Qabs q) - 52)%Z) by (unfold exponent; lia).
  pose proof (pow2_pos (exponent q)) as He.
  pose proof (ilog2_lower _ Hpos) as Hlow.
  assert (Ep : pow2 (ilog2 (Qabs q)) == pow2 52 * pow2 (exponent q)).
  { rewrite Ee, <- pow2_plus. replace (52 + (ilog2 (Qabs q) - 52))%Z
      with (ilog2 (Qabs q)) by lia. reflexivity. }
  assert (Hbig : pow2 1024 <= pow2 52 * pow2 (exponent q)).
  { rewrite <- Ep. apply pow2_le. lia. }
  assert (P52 : pow2 52 == inject_Z (2 ^ 52)) by reflexivity.
  unfold of_Q. pose proof (round_fin_value q Hne) as Ev.
  rewrite Ep in Hlow. clear Ep Ee.
  revert He Hlow Hbig Ev. generalize (pow2 (exponent q)). intros pe He Hlow Hbig Ev.
  revert H1024 Hbig. generalize (pow2 1024). intros top H1024 Hbig.
  destruct (Qlt_le_dec q 0) as [Hneg|Hnn].
  - rewrite (Qabs_neg q) in Hlow by lra.
    assert (Hx : q / pe <= inject_Z (- 2 ^ 52)).
    { apply Qle_shift_div_r; [exact He|].
      change (inject_Z (- 2 ^ 52)) with (- inject_Z (2 ^ 52)). rewrite P52 in Hlow. lra. }
    apply round_half_even_le in Hx. rewrite round_half_even_inject in Hx.
    rewrite Zle_Qle in Hx. change (inject_Z (- 2 ^ 52)) with (- inject_Z (2 ^ 52)) in Hx.
    assert (Hr : round_fin q <= - top).
    { rewrite Ev. revert Hx. generalize (inject_Z (round_half_even (q / pe))).
      intros z Hx. rewrite P52 in *.
      assert (Hz : z * pe <= - inject_Z (2 ^ 52) * pe).
      { apply Qmult_le_compat_r; [exact Hx | apply Qlt_le_weak; exact He]. }
      lra. }
    assert (E1 : Qle_bool top (round_fin q) = false).
    { destruct (Qle_bool top (round_fin q)) eqn:E; [|reflexivity].
      apply Qle_bool_iff in E. lra. }
    assert (E2 : Qle_bool (round_fin q) (- top) = true) by (apply Qle_bool_iff; exact Hr).
    rewrite E1, E2. discriminate.
  - rewrite (Qabs_pos q) in Hlow by lra.
    assert (Hx : inject_Z (2 ^ 52) <= q / pe).
    { apply Qle_shift_div_l; [exact He|]. rewrite P52 in Hlow. lra. }
    apply round_half_even_le in Hx. rewrite round_half_even_inject in Hx.
    rewrite Zle_Qle in Hx.
    assert (Hr : top <= round_fin q).
    { rewrite Ev. revert Hx. generalize (inject_Z (round_half_even (q / pe))).
      intros z Hx. rewrite P52 in *.
      assert (Hz : inject_Z (2 ^ 52) * pe <= z * pe).
      { apply Qmult_le_compat_r; [exact Hx | apply Qlt_le_weak; exact He]. }
      lra. }
    assert (E1 : Qle_bool top (round_fin q) = true) by (apply Qle_bool_iff; exact Hr).
    rewrite E1. discriminate.
Qed.

(** *** The model against the hardware

    The same computations with the kernel's binary64 floats. *)

Local Open Scope float_scope.

Example agrees_with_hardware :
  of_prim (1 / 10 + 2 / 10) = add (of_Q (1 # 10)) (of_Q (2 # 10))
  /\ of_prim (23 / 160 * 100) = mul (of_Q (23 # 160)) (Fin 100)
  /\ of_prim (102 / 100 * (125 / 100)) = mul (of_Q (102 # 100)) (of_Q (125 # 100))
  /\ of_prim (77 * (4 / 10) + 75 * (35 / 100) + 80 * (25 / 100))
     = add (add (mul (Fin 77) (of_Q (4 # 10))) (mul (Fin 75) (of_Q (35 # 100))))
           (mul (Fin 80) (of_Q (25 # 100)))
  /\ of_prim (PrimFloat.sqrt 2) = Fin (sqrt_fin 2)
  /\ of_prim (PrimFloat.sqrt (30 / 365)) = Fin (sqrt_fin (round_fin (30 # 365)))
  /\ of_prim (1 / 3 - 1) = sub (of_Q (1 # 3)) (Fin 1)
  /\ of_prim (0x1.fffffffffffffp+1023 + 0x1p+970)
     = add (Fin (pow2 1024 - pow2 971)%Q) (Fin (pow2 970))
  /\ of_prim (0x3p-1074 * 0x1p-1)
     = mul (Fin (3 * pow2 (-1074))%Q) (Fin (1 # 2))
  /\ of_prim (0x1p-1074 * 0x1p-1) = mul (Fin (pow2 (-1074))) (Fin (1 # 2)).
Proof. repeat split; vm_compute; reflexivity. Qed.

End Binary64Facts.

(* ================================================================== *)
(** ** The stable sort *)

Module PySortProps.

Import PySort.

Section ByKey.
Context {A : Type}.
Variable key : A -> Z.

Lemma insert_perm (x : A) (l : list A) :
  Permutation (insert (fun a b => key a <=? key b) x l) (x :: l).
Proof.
  induction l as [|y l IH]; simpl; [apply Permutation_refl|].
  destruct (key x <=? key y); [apply Permutation_refl|].
  eapply Permutation_trans; [apply perm_skip; exact IH | apply perm_swap].
Qed.

Lemma sort_by_key_perm (l : list A) : Permutation (sort_by_key key l) l.
Proof.
  unfold sort_by_key, sort. induction l as [|x l IH]; simpl; [apply Permutation_refl|].
  eapply Permutation_trans; [apply insert_perm | apply perm_skip; exact IH].
Qed.

Lemma insert_sorted (x : A) (l : list A) :
  StronglySorted (fun a b => key a <= key b) l ->
  StronglySorted (fun a b => key a <= key b)
                 (insert (fun a b => key a <=? key b) x l).
Proof.
  induction l as [|y l IH]; intros Hs; simpl.
  - constructor; [constructor | constructor].
  - destruct (Z.leb_spec (key x) (key y)) as [Hle|Hgt].
    + constructor; [exact Hs|].
      inversion Hs as [|? ? Hs' Hall]; subst.
      constructor; [exact Hle|].
      apply Forall_forall. intros z Hz.
      rewrite Forall_forall in Hall. specialize (Hall z Hz).
      simpl in *. lia.
    + inversion Hs as [|? ? Hs' Hall]; subst.
      constructor; [apply IH; exact Hs'|].
      apply Forall_forall. intros z Hz.
      apply (Permutation_in _ (insert_perm x l)) in Hz.
      destruct Hz as [<-|Hz]; [simpl; lia|].
      rewrite Forall_forall in Hall. apply Hall. exact Hz.
Qed.

Lemma sort_by_key_sorted (l : list A) :
  StronglySorted (fun a b => key a <= key b) (sort_by_key key l).
Proof.
  unfold sort_by_key, sort. induction l as [|x l IH]; simpl; [constructor|].
  apply insert_sorted. exact IH.
Qed.

Lemma sort_by_key_in (l : list A) (x : A) : In x (sort_by_key key l) <-> In x l.
Proof.
  split; intros H.
  - apply (Permutation_in _ (sort_by_key_perm l)). exact H.
  - apply (Permutation_in _ (Permutation_sym (sort_by_key_perm l))). exact H.
Qed.

Lemma sort_by_key_nil (l : list A) : sort_by_key key l = [] -> l = [].
Proof.
  intros H. pose proof (sort_by_key_perm l) as P. rewrite H in P.
  apply Permutation_nil. exact P.
Qed.

End ByKey.

End PySortProps.

(* ================================================================== *)
(** ** IV percentile and expected move *)

Module IvAnalyticsProps.

Import IvAnalytics IvAnalyticsSpec NumFacts.
Local Open Scope Q_scope.

Lemma iv_percentile_nonempty (x : Q) (hist : list Q) :
  hist <> [] ->
  calculate_iv_percentile x hist = py_round (exact_percentile x hist) 2.
Proof.
  intros Hne. destruct hist as [|h t]; [congruence|].
  unfold calculate_iv_percentile, exact_percentile, count_lower.
  apply py_round_comp.
  set (c := inject_Z (Z.of_nat (List.length (filter (fun iv => Qltb iv x) (h :: t))))).
  set (n := inject_Z (Z.of_nat (List.length (h :: t)))).
  unfold Qdiv. ring.
Qed.

Section ExpectedMove.
Variable fsqrt : Q -> Q.

Lemma expected_move_positive_days (P iv : Q) (days ann : Z) :
  (0 < days)%Z -> (0 < ann)%Z ->
  calculate_expected_move fsqrt P iv days ann
  = Ok (py_round (P * iv * fsqrt (inject_Z days / inject_Z ann)) 2,
        py_round (iv * fsqrt (inject_Z days / inject_Z ann) * 100) 2,
        (py_round (P - P * iv * fsqrt (inject_Z days / inject_Z ann)) 2,
         py_round (P + P * iv * fsqrt (inject_Z days / inject_Z ann)) 2)).
Proof.
  intros Hd Ha. unfold calculate_expected_move, truediv.
  destruct (Z.eqb_spec ann 0) as [E|_]; [lia|].
  cbn [bind]. unfold math_sqrt.
  assert (Hpos : 0 < inject_Z days / inject_Z ann).
  { apply Qlt_shift_div_l.
    - change 0 with (inject_Z 0). rewrite <- Zlt_Qlt. exact Ha.
    - rewrite Qmult_0_l. change 0 with (inject_Z 0). rewrite <- Zlt_Qlt. exact Hd. }
  assert (Hlt : Qltb (inject_Z days / inject_Z ann) 0 = false).
  { unfold Qltb. apply negb_false_iff. apply Qle_bool_iff. apply Qlt_le_weak. exact Hpos. }
  rewrite Hlt. reflexivity.
Qed.

End ExpectedMove.

End IvAnalyticsProps.

(* ================================================================== *)
(** ** IV percentile and expected move in double precision *)

Module IvAnalytics64Props.

Import Binary64 Binary64Facts IvAnalytics64 IvAnalytics64Spec NumFacts.
Local Open Scope Q_scope.

(** *** The percentile *)

Lemma count_below_le (x : float) (hist : list float) :
  (count_below x hist <= List.length hist)%nat.
Proof. unfold count_below. apply filter_length_le. Qed.

Lemma count_below_all_equal (x : float) (hist : list float) :
  (forall h, In h hist -> h = x) -> count_below x hist = 0%nat.
Proof.
  intros H. unfold count_below. induction hist as [|h t IH]; [reflexivity|].
  simpl. rewrite (H h (or_introl eq_refl)), lt_irrefl.
  apply IH. intros h' Hh'. apply H. right. exact Hh'.
Qed.

(** The three roundings of the percentile, one after the other. *)
Lemma percentile_steps (c l : Z) :
  (0 <= c <= l)%Z -> (0 < l)%Z ->
  exists r1 r2 v,
    int_truediv c l = Ok (Fin r1)
    /\ mul (Fin r1) (Fin 100) = Fin r2
    /\ py_round (Fin r2) 2 = Fin v
    /\ Qabs (r1 - inject_Z c / inject_Z l) <= pow2 (-53)
    /\ Qabs (r2 - r1 * 100) <= pow2 (-46)
    /\ Qabs (inject_Z (round_half_even (r2 * 100)) - r2 * 100) <= 1 # 2
    /\ v = round_fin (inject_Z (round_half_even (r2 * 100)) / 100)
    /\ Qabs (v - inject_Z (round_half_even (r2 * 100)) / 100) <= pow2 (-46).
Proof.
  intros [Hc Hcl] Hl.
  assert (Hl' : 0 < inject_Z l) by (change 0 with (inject_Z 0); rewrite <- Zlt_Qlt; exact Hl).
  assert (Hc' : 0 <= inject_Z c) by (change 0 with (inject_Z 0); rewrite <- Zle_Qle; exact Hc).
  assert (Hcl' : inject_Z c <= inject_Z l) by (rewrite <- Zle_Qle; exact Hcl).
  remember (inject_Z c / inject_Z l) as q1 eqn:Eq1.
  assert (Hq1 : 0 <= q1 <= 1).
  { rewrite Eq1. split.
    - apply Qle_shift_div_l; [exact Hl' | lra].
    - apply Qle_shift_div_r; [exact Hl' | lra]. }
  assert (P0 : pow2 0 == 1) by reflexivity.
  assert (P7 : pow2 7 == 128) by reflexivity.
  assert (P53 : pow2 (-53) == 1 # 9007199254740992) by reflexivity.
  assert (P46 : pow2 (-46) == 1 # 70368744177664) by reflexivity.
  destruct (of_Q_near q1 0 ltac:(lia)) as [r1 [E1 B1]].
  { rewrite P0. apply Qabs_Qle_condition. split; lra. }
  change (0 - 53)%Z with (-53)%Z in B1.
  assert (B1' := B1). rewrite P53 in B1'. apply Qabs_diff_Qle_condition in B1'.
  destruct B1' as [B1a B1b]. destruct Hq1 as [Hq1a Hq1b].
  destruct (of_Q_near (r1 * 100) 7 ltac:(lia)) as [r2 [E2 B2]].
  { rewrite P7. apply Qabs_Qle_condition. clear - B1a B1b Hq1a Hq1b. split; lra. }
  change (7 - 53)%Z with (-46)%Z in B2.
  assert (B2' := B2). rewrite P46 in B2'. apply Qabs_diff_Qle_condition in B2'.
  destruct B2' as [B2a B2b].
  pose proof (round_half_even_error (r2 * 100)) as B3.
  remember (round_half_even (r2 * 100)) as k eqn:Ek.
  assert (B3' := B3). apply Qabs_Qle_condition in B3'. destruct B3' as [B3a B3b].
  assert (Hk : Qabs (inject_Z k / 100) <= pow2 7).
  { rewrite P7. apply Qabs_Qle_condition.
    clear - B1a B1b B2a B2b B3a B3b Hq1a Hq1b.
    unfold Qdiv. change (/ 100) with (1 # 100). split; lra. }
  destruct (of_Q_near (inject_Z k / 100) 7 ltac:(lia) Hk) as [v [E3 B4]].
  change (7 - 53)%Z with (-46)%Z in B4.
  subst k. exists r1, r2, v.
  split.
  { unfold int_truediv. destruct (Z.eqb_spec l 0) as [E|_]; [lia|].
    rewrite <- Eq1, E1. reflexivity. }
  split; [exact E2|].
  split; [exact E3|].
  split; [exact B1|]. split; [exact B2|]. split; [exact B3|].
  split; [|exact B4].
  match type of E3 with
  | of_Q ?a = _ => assert (Ef : of_Q a = Fin (round_fin a))
  end.
  { apply (of_Q_fin _ 7); [lia | exact Hk]. }
  rewrite Ef in E3. injection E3 as E3. symmetry. exact E3.
Qed.

(** C6 (as amended): the percentile of an empty history is 50; on a
    non-empty history it is [(count(h < x) / len(hist)) * 100] evaluated in
    double precision and rounded to two decimals: a value within 0.005
    (and a rounding error below [10 ^ -12]) of [100 * count(h < x) /
    len(hist)], and the double nearest to that quotient whenever the
    quotient has at most two decimals; ties do not count, so a value equal
    to every entry gives 0. *)
Theorem iv_percentile_is_rounded_share (x : float) (hist : list float)
    (Hne : hist <> []) :
  calculate_iv_percentile x [] = Ok (Fin 50)
  /\ exists v,
       calculate_iv_percentile x hist = Ok (Fin v)
       /\ Qabs (v - exact_share x hist) <= (1 # 200) + (1 # 1000000000000)
       /\ (forall j : Z, exact_share x hist == inject_Z j / 100 ->
                         Fin v = of_Q (inject_Z j / 100))
       /\ ((forall h, In h hist -> h = x) -> v = 0).
Proof.
  split; [reflexivity|].
  pose proof (count_below_le x hist) as Hle.
  assert (Hlen : (0 < List.length hist)%nat).
  { destruct hist; [congruence | simpl; lia]. }
  destruct (percentile_steps (Z.of_nat (count_below x hist))
                             (Z.of_nat (List.length hist)) ltac:(lia) ltac:(lia))
    as [r1 [r2 [v [E1 [E2 [E3 [B1 [B2 [B3 [Ev B4]]]]]]]]]].
  assert (Ecall : calculate_iv_percentile x hist = Ok (Fin v)).
  { unfold calculate_iv_percentile. destruct hist as [|h t]; [congruence|].
    fold (count_below x (h :: t)). rewrite E1. cbn [bind]. rewrite E2, E3. reflexivity. }
  assert (P53 : pow2 (-53) == 1 # 9007199254740992) by reflexivity.
  assert (P46 : pow2 (-46) == 1 # 70368744177664) by reflexivity.
  assert (Hl' : 0 < inject_Z (Z.of_nat (List.length hist))).
  { change 0 with (inject_Z 0). rewrite <- Zlt_Qlt. lia. }
  set (c := inject_Z (Z.of_nat (count_below x hist))) in *.
  set (l := inject_Z (Z.of_nat (List.length hist))) in *.
  assert (Es : exact_share x hist == 100 * (c / l)).
  { unfold exact_share. fold c l. field. lra. }
  rewrite P53 in B1. rewrite P46 in B2, B4.
  apply Qabs_diff_Qle_condition in B1, B2, B4.
  apply Qabs_Qle_condition in B3.
  destruct B1 as [B1a B1b], B2 as [B2a B2b], B3 as [B3a B3b], B4 as [B4a B4b].
  exists v. split; [exact Ecall|]. split; [|split].
  - apply Qabs_diff_Qle_condition. rewrite Es.
    revert B1a B1b. generalize (c / l). intros q1 B1a B1b.
    unfold Qdiv in *. change (/ 100) with (1 # 100) in *. split; lra.
  - intros j Hj. rewrite Es in Hj.
    assert (Ek : round_half_even (r2 * 100) = j).
    { apply round_half_even_near. apply Qabs_diff_Qlt_condition.
      clear - Hj B1a B1b B2a B2b. revert Hj B1a B1b. generalize (c / l).
      intros q1 Hj B1a B1b.
      unfold Qdiv in *. change (/ 100) with (1 # 100) in *. split; lra. }
    rewrite Ev, Ek. symmetry. apply (of_Q_fin _ 7); [lia|].
    assert (P7 : pow2 7 == 128) by reflexivity.
    rewrite P7. rewrite Ek in *.
    apply Qabs_Qle_condition.
    clear - Hj B1a B1b B2a B2b B3a B3b Hl' Hle. 
    assert (Hq : 0 <= c / l <= 1).
    { split; [apply Qle_shift_div_l | apply Qle_shift_div_r]; try exact Hl';
        unfold c, l; rewrite ?Qmult_0_l, ?Qmult_1_l;
        [change 0 with (inject_Z 0)|]; rewrite <- Zle_Qle; lia. }
    destruct Hq as [Hqa Hqb].
    revert Hj B1a B1b Hqa Hqb. generalize (c / l). intros q1 Hj B1a B1b Hqa Hqb.
    unfold Qdiv in *. change (/ 100) with (1 # 100) in *. split; lra.
  - intros Hall.
    assert (E0 : count_below x hist = 0%nat) by (apply count_below_all_equal; exact Hall).
    unfold calculate_iv_percentile in Ecall. destruct hist as [|h t]; [congruence|].
    fold (count_below x (h :: t)) in Ecall. rewrite E0 in Ecall.
    unfold int_truediv in Ecall.
    destruct (Z.eqb_spec (Z.of_nat (List.length (h :: t))) 0) as [E|_]; [simpl in E; lia|].
    rewrite (of_Q_comp _ 0) in Ecall by (unfold Qdiv; apply Qmult_0_l).
    change (of_Q 0) with (Fin 0) in Ecall. cbn [bind] in Ecall.
    change (py_round (mul (Fin 0) (Fin 100)) 2) with (Fin 0) in Ecall.
    injection Ecall as Ecall. symmetry. exact Ecall.
Qed.

Lemma iv_percentile_is_rounded_share_witness :
  calculate_iv_percentile (of_Q (32 # 100))
    [of_Q (20 # 100); of_Q (25 # 100); of_Q (30 # 100); of_Q (35 # 100); of_Q (40 # 100)]
  = Ok (Fin 60).
Proof.
  destruct (iv_percentile_is_rounded_share (of_Q (32 # 100))
              [of_Q (20 # 100); of_Q (25 # 100); of_Q (30 # 100); of_Q (35 # 100);
               of_Q (40 # 100)] ltac:(discriminate))
    as [_ [v [E [_ [Hexact _]]]]].
  rewrite E. f_equal. exact (Hexact 6000%Z eq_refl).
Defined.

(** C6, counterexample: with one of three entries below the current value
    the function returns 33.33, not 100/3. *)
Lemma iv_percentile_not_exact :
  ~ (exists v, calculate_iv_percentile (Fin 2) [Fin 1; Fin 2; Fin 3] = Ok (Fin v)
               /\ v == exact_share (Fin 2) [Fin 1; Fin 2; Fin 3]).
Proof.
  intros [v [E H]]. vm_compute in E. injection E as <-.
  vm_compute in H. discriminate H.
Qed.

(** With 23 of 160 entries below, the quotient is 14.375 and ends in a
    tie; the double-precision product is just below it and 14.37 is
    returned. *)
Example iv_percentile_at_a_tie :
  calculate_iv_percentile (of_Q (235 # 10))
    (map (fun n => Fin (inject_Z (Z.of_nat n))) (seq 1 160))
  = Ok (of_Q (1437 # 100))
  /\ exact_share (of_Q (235 # 10))
       (map (fun n => Fin (inject_Z (Z.of_nat n))) (seq 1 160)) == 14375 # 1000.
Proof. split; vm_compute; reflexivity. Qed.


(** *** The expected move *)

Lemma of_Q_zero (q : Q) : q == 0 -> of_Q q = Fin 0.
Proof. intros H. rewrite (of_Q_comp q 0 H). reflexivity. Qed.

Lemma int_truediv_zero (b : Z) : b <> 0%Z -> int_truediv 0 b = Ok (Fin 0).
Proof.
  intros Hb. unfold int_truediv. destruct (Z.eqb_spec b 0) as [E|_]; [contradiction|].
  rewrite of_Q_zero; [reflexivity|]. unfold Qdiv. apply Qmult_0_l.
Qed.

(** The quotient of two day counts below [2 ^ 63] and its square root. *)
Lemma time_factor_spec (days ann : Z) :
  (0 < days < 2 ^ 63)%Z -> (0 < ann < 2 ^ 63)%Z ->
  exists ratio tf,
    int_truediv days ann = Ok (Fin ratio)
    /\ math_sqrt (Fin ratio) = Ok (Fin tf)
    /\ 0 < tf
    /\ Qabs (tf * tf - inject_Z days / inject_Z ann)
       <= inject_Z days / inject_Z ann * pow2 (-50).
Proof.
  intros [Hd1 Hd2] [Ha1 Ha2].
  assert (Hd : 1 <= inject_Z days < 9223372036854775808).
  { split.
    - change 1 with (inject_Z 1). rewrite <- Zle_Qle. lia.
    - change 9223372036854775808 with (inject_Z (2 ^ 63)). rewrite <- Zlt_Qlt. exact Hd2. }
  assert (Ha : 1 <= inject_Z ann < 9223372036854775808).
  { split.
    - change 1 with (inject_Z 1). rewrite <- Zle_Qle. lia.
    - change 9223372036854775808 with (inject_Z (2 ^ 63)). rewrite <- Zlt_Qlt. exact Ha2. }
  destruct Hd as [Hd Hd']. destruct Ha as [Ha Ha'].
  remember (inject_Z days / inject_Z ann) as q eqn:Eq.
  assert (P63 : pow2 63 == 9223372036854775808) by reflexivity.
  assert (N63 : pow2 (-63) == 1 # 9223372036854775808) by reflexivity.
  assert (Hq1 : q <= pow2 63).
  { rewrite Eq, P63. apply Qle_shift_div_r; [lra|].
    revert Hd Hd' Ha Ha'. generalize (inject_Z days), (inject_Z ann). intros d a. intros. nra. }
  assert (Hq2 : pow2 (-63) <= q).
  { rewrite Eq, N63. apply Qle_shift_div_l; [lra|].
    revert Hd Hd' Ha Ha'. generalize (inject_Z days), (inject_Z ann). intros d a. intros. nra. }
  pose proof (pow2_pos (-63)) as Hp63.
  assert (Hq0 : 0 < q) by lra.
  assert (Eabs : Qabs q == q) by (apply Qabs_pos; lra).
  assert (Efin : of_Q q = Fin (round_fin q)).
  { apply (of_Q_fin q 63); [lia|]. rewrite Eabs. exact Hq1. }
  assert (Hrel : Qabs (round_fin q - q) <= q * pow2 (-53)).
  { assert (Hn : pow2 (-1022) <= Qabs q).
    { rewrite Eabs.
      eapply Qle_trans; [apply (pow2_le (-1022) (-63)); lia | exact Hq2]. }
    pose proof (round_fin_rel q Hn) as H. rewrite Eabs in H. exact H. }
  assert (P53 : pow2 (-53) == 1 # 9007199254740992) by reflexivity.
  assert (P51 : pow2 (-51) == 1 # 2251799813685248) by reflexivity.
  assert (P50 : pow2 (-50) == 1 # 1125899906842624) by reflexivity.
  rewrite P53 in Hrel. apply Qabs_diff_Qle_condition in Hrel. destruct Hrel as [Hr1 Hr2].
  set (r := round_fin q) in *.
  assert (Hr0 : 0 < r) by (clear - Hr1 Hr2 Hq0; lra).
  destruct (sqrt_fin_spec r Hr0) as [Ht0 Ht].
  rewrite P51 in Ht. apply Qabs_diff_Qle_condition in Ht. destruct Ht as [Ht1 Ht2].
  exists r, (sqrt_fin r).
  split.
  { unfold int_truediv. destruct (Z.eqb_spec ann 0) as [E|_]; [lia|].
    rewrite <- Eq, Efin. reflexivity. }
  split.
  { unfold math_sqrt, Qltb.
    assert (E : Qle_bool 0 r = true) by (apply Qle_bool_iff; lra).
    rewrite E. reflexivity. }
  split; [exact Ht0|].
  rewrite P50. apply Qabs_diff_Qle_condition.
  clear - Hr1 Hr2 Ht1 Ht2 Hq0 Hr0.
  revert Ht1 Ht2. generalize (sqrt_fin r * sqrt_fin r). intros s Ht1 Ht2. split; lra.
Qed.

(** C7 (as amended): with zero days the move and its percentage are 0 and
    the range is collapsed to the price rounded to cents, for every finite
    price and IV whose product is finite; with a positive number of days
    the time factor is the double-precision square root of [days /
    annualization_days] (its square is that quotient up to a relative
    error of [2 ^ -50]), the dollar move is [P * iv * time_factor] in
    double precision, and the dollar move, the percentage and both bounds
    are each rounded to two decimals. *)
Theorem expected_move_scaling (P iv : float) (days ann : Z) :
  (forall p i pi,
     P = Fin p -> is_binary64 P -> iv = Fin i -> mul P iv = Fin pi -> ann <> 0%Z ->
     calculate_expected_move P iv 0 ann
     = Ok (Fin 0, Fin 0, (py_round P 2, py_round P 2)))
  /\ ((0 < days < 2 ^ 63)%Z -> (0 < ann < 2 ^ 63)%Z ->
      exists tf,
        0 < tf
        /\ Qabs (tf * tf - inject_Z days / inject_Z ann)
           <= inject_Z days / inject_Z ann * pow2 (-50)
        /\ calculate_expected_move P iv days ann
           = Ok (py_round (mul (mul P iv) (Fin tf)) 2,
                 py_round (mul (mul iv (Fin tf)) (Fin 100)) 2,
                 (py_round (sub P (mul (mul P iv) (Fin tf))) 2,
                  py_round (add P (mul (mul P iv) (Fin tf))) 2))).
Proof.
  split.
  - intros p i pi -> Hp -> Hpi Hann.
    unfold calculate_expected_move. rewrite (int_truediv_zero ann Hann). cbn [bind].
    change (math_sqrt (Fin 0)) with (@inr exn _ (Fin 0)). cbn [bind].
    rewrite Hpi.
    assert (E1 : mul (Fin pi) (Fin 0) = Fin 0).
    { simpl. apply of_Q_zero. ring. }
    assert (E2 : mul (Fin i) (Fin 0) = Fin 0).
    { simpl. apply of_Q_zero. ring. }
    rewrite E1, E2.
    assert (E3 : sub (Fin p) (Fin 0) = Fin p).
    { simpl. rewrite (of_Q_comp (p - 0) p) by ring. exact Hp. }
    assert (E4 : add (Fin p) (Fin 0) = Fin p).
    { simpl. rewrite (of_Q_comp (p + 0) p) by ring. exact Hp. }
    rewrite E3, E4. reflexivity.
  - intros Hd Ha.
    destruct (time_factor_spec days ann Hd Ha) as [ratio [tf [E1 [E2 [Ht0 Ht]]]]].
    exists tf. split; [exact Ht0|]. split; [exact Ht|].
    unfold calculate_expected_move. rewrite E1. cbn [bind]. rewrite E2. reflexivity.
Qed.

Lemma expected_move_scaling_witness :
  calculate_expected_move (Fin 100) (Fin (1 # 4)) 0 365
  = Ok (Fin 0, Fin 0, (py_round (Fin 100) 2, py_round (Fin 100) 2))
  /\ exists tf,
       0 < tf
       /\ Qabs (tf * tf - inject_Z 30 / inject_Z 365)
          <= inject_Z 30 / inject_Z 365 * pow2 (-50)
       /\ calculate_expected_move (Fin 100) (Fin (1 # 4)) 30 365
          = Ok (py_round (mul (mul (Fin 100) (Fin (1 # 4))) (Fin tf)) 2,
                py_round (mul (mul (Fin (1 # 4)) (Fin tf)) (Fin 100)) 2,
                (py_round (sub (Fin 100) (mul (mul (Fin 100) (Fin (1 # 4))) (Fin tf))) 2,
                 py_round (add (Fin 100) (mul (mul (Fin 100) (Fin (1 # 4))) (Fin tf))) 2)).
Proof.
  split.
  - apply (proj1 (expected_move_scaling (Fin 100) (Fin (1 # 4)) 30 365)
             100 (1 # 4) 25).
    + reflexivity.
    + vm_compute. reflexivity.
    + reflexivity.
    + vm_compute. reflexivity.
    + discriminate.
  - apply (proj2 (expected_move_scaling (Fin 100) (Fin (1 # 4)) 30 365)).
    + split; reflexivity.
    + split; reflexivity.
Defined.

(** C7, counterexample: at a price of 100.123 with zero days the range is
    (100.12, 100.12), not the price itself. *)
Lemma expected_move_zero_days_rounds_price :
  calculate_expected_move (of_Q (100123 # 1000)) (of_Q (3 # 10)) 0 365
  = Ok (Fin 0, Fin 0, (of_Q (10012 # 100), of_Q (10012 # 100)))
  /\ of_Q (10012 # 100) <> of_Q (100123 # 1000).
Proof. split; [vm_compute; reflexivity | vm_compute; discriminate]. Qed.

(** The example of the docstring, and a move that ends in a tie in exact
    arithmetic: 1.02 * 1.25 is 1.275, its double is just below and the
    move is 1.27. *)
Example expected_move_examples :
  calculate_expected_move (Fin 100) (of_Q (3 # 10)) 30 365
  = Ok (of_Q (86 # 10), of_Q (86 # 10), (of_Q (914 # 10), of_Q (1086 # 10)))
  /\ calculate_expected_move (of_Q (102 # 100)) (of_Q (125 # 100)) 365 365
     = Ok (of_Q (127 # 100), Fin 125, (of_Q (- 25 # 100), of_Q (229 # 100))).
Proof. split; vm_compute; reflexivity. Qed.


End IvAnalytics64Props.

(* ================================================================== *)
(** ** Date windows and the screening pipeline *)

Module CatalystScreenerProps.

Import CatalystScreener CatalystScreenerSpec Samples NumFacts.
Local Open Scope Z_scope.

(** *** Loops whose body always returns *)

Lemma for_each_returns {A S : Type} (body : S -> A -> result S) :
  (forall s x, returns (body s x)) ->
  forall l s, returns (for_each body l s).
Proof.
  intros Hb l. induction l as [|x l IH]; intros s; simpl.
  - exists s. reflexivity.
  - destruct (Hb s x) as [s' ->]. simpl. apply IH.
Qed.

Lemma apply_each_total {A B : Type} (f : A -> result B) (g : A -> B) :
  (forall x, f x = Ok (g x)) -> forall l, apply_each f l = Ok (map g l).
Proof.
  intros Hf l. induction l as [|x l IH]; simpl; [reflexivity|].
  rewrite Hf. simpl. rewrite IH. reflexivity.
Qed.

(** *** The text of an expiration, read as a date or skipped *)

Lemma guarded_parse {B : Type} (x : pyval) (k : date -> result B) (h : result B) :
  try_except_VT (s <- slice10 x ;; d <- strptime s ;; k d)%py h
  = match element_date x with
    | Some d => try_except_VT (k d) h
    | None => h
    end.
Proof.
  destruct x as [s|d|]; simpl; try reflexivity.
  unfold strptime. destruct (strptime_ymd (substring 0 10 s)); reflexivity.
Qed.

Lemma proximity_body_eq (cd db da : Z) (acc : list pyval) (x : pyval) :
  proximity_body cd db da acc x
  = Ok (match element_date x with
        | Some d =>
            if (- db <=? days_between d cd) && (days_between d cd <=? da)
            then acc ++ [x] else acc
        | None => acc
        end).
Proof.
  unfold proximity_body. rewrite guarded_parse.
  destruct (element_date x) as [d|]; [|reflexivity].
  destruct ((- db <=? days_between d cd) && (days_between d cd <=? da)); reflexivity.
Qed.

Lemma nearest_body_eq (cd mn mx : Z) (acc : list (pyval * Z)) (x : pyval) :
  nearest_body cd mn mx acc x
  = Ok (match element_date x with
        | Some d =>
            if (mn <=? days_between d cd) && (days_between d cd <=? mx)
            then acc ++ [(x, days_between d cd)] else acc
        | None => acc
        end).
Proof.
  unfold nearest_body. rewrite guarded_parse.
  destruct (element_date x) as [d|]; [|reflexivity].
  destruct ((mn <=? days_between d cd) && (days_between d cd <=? mx)); reflexivity.
Qed.

Lemma filter_by_catalyst_proximity_returns exps cd db da :
  returns (filter_by_catalyst_proximity exps cd db da).
Proof.
  apply for_each_returns. intros s x. rewrite proximity_body_eq. eexists; reflexivity.
Qed.

(** Every expiration kept by the window filter is a text that parses to a
    date inside the closed window. *)
Lemma filter_by_catalyst_proximity_sound exps cd db da out :
  filter_by_catalyst_proximity exps cd db da = Ok out ->
  forall e, In e out ->
    In e exps
    /\ exists d, element_date e = Some d
                 /\ - db <= days_between d cd <= da.
Proof.
  intros H.
  assert (G : forall l acc acc',
             (forall e, In e acc -> In e exps
                /\ exists d, element_date e = Some d /\ - db <= days_between d cd <= da) ->
             (forall e, In e l -> In e exps) ->
             for_each (proximity_body cd db da) l acc = Ok acc' ->
             forall e, In e acc' -> In e exps
                /\ exists d, element_date e = Some d /\ - db <= days_between d cd <= da).
  { induction l as [|x l IH]; intros acc acc' Hacc Hl Hrun; simpl in Hrun.
    - injection Hrun as <-. exact Hacc.
    - rewrite proximity_body_eq in Hrun. simpl in Hrun.
      refine (IH _ acc' _ (fun e He => Hl e (or_intror He)) Hrun).
      intros e He.
      destruct (element_date x) as [d|] eqn:Ex; [|apply Hacc; exact He].
      destruct ((- db <=? days_between d cd) && (days_between d cd <=? da)) eqn:W;
        [|apply Hacc; exact He].
      apply in_app_or in He. destruct He as [He|[<-|[]]]; [apply Hacc; exact He|].
      split; [apply Hl; left; reflexivity|].
      exists d. split; [exact Ex|].
      apply andb_true_iff in W. destruct W as [W1 W2].
      apply Z.leb_le in W1. apply Z.leb_le in W2. lia. }
  apply (G exps [] out); [intros e [] | auto | exact H].
Qed.

Lemma find_nearest_post_catalyst_expiration_returns exps cd mn mx :
  returns (find_nearest_post_catalyst_expiration exps cd mn mx).
Proof.
  unfold find_nearest_post_catalyst_expiration.
  destruct (for_each_returns (nearest_body cd mn mx)
              (fun s x => ex_intro _ _ (nearest_body_eq cd mn mx s x)) exps [])
    as [v ->].
  simpl. destruct (PySort.sort_by_key snd v) as [|[e k] t]; eexists; reflexivity.
Qed.

(** The expiration found, if any, is an element of the list whose text
    parses to a date inside the window. *)
Lemma find_nearest_post_catalyst_expiration_sound exps cd mn mx e :
  find_nearest_post_catalyst_expiration exps cd mn mx = Ok (Some e) ->
  In e exps
  /\ exists d, element_date e = Some d /\ mn <= days_between d cd <= mx.
Proof.
  unfold find_nearest_post_catalyst_expiration. intros H.
  destruct (for_each (nearest_body cd mn mx) exps []) as [ex|valid] eqn:Ev;
    cbn [bind] in H; [discriminate|].
  set (P := fun (exps0 : list pyval) (acc : list (pyval * Z)) =>
              forall p, In p acc ->
                In (fst p) exps0
                /\ exists d, element_date (fst p) = Some d
                             /\ mn <= days_between d cd <= mx).
  assert (G : forall l acc acc',
             P exps acc -> (forall x, In x l -> In x exps) ->
             for_each (nearest_body cd mn mx) l acc = Ok acc' -> P exps acc').
  { induction l as [|x l IH]; intros acc acc' Hacc Hl Hrun; simpl in Hrun.
    - injection Hrun as <-. exact Hacc.
    - rewrite nearest_body_eq in Hrun. simpl in Hrun.
      refine (IH _ acc' _ (fun y Hy => Hl y (or_intror Hy)) Hrun).
      intros p Hp.
      destruct (element_date x) as [d|] eqn:Ex; [|apply Hacc; exact Hp].
      destruct ((mn <=? days_between d cd) && (days_between d cd <=? mx)) eqn:W;
        [|apply Hacc; exact Hp].
      apply in_app_or in Hp. destruct Hp as [Hp|[<-|[]]]; [apply Hacc; exact Hp|].
      simpl. split; [apply Hl; left; reflexivity|].
      exists d. split; [exact Ex|].
      apply andb_true_iff in W. destruct W as [W1 W2].
      apply Z.leb_le in W1. apply Z.leb_le in W2. lia. }
  assert (Hv : P exps valid) by (apply (G exps [] valid); [intros p [] | auto | exact Ev]).
  destruct (PySort.sort_by_key snd valid) as [|[e0 k] t] eqn:Es; [discriminate|].
  injection H as ->.
  assert (Hin : In (e, k) valid).
  { apply (PySortProps.sort_by_key_in snd valid (e, k)). rewrite Es. left. reflexivity. }
  exact (Hv (e, k) Hin).
Qed.

(** *** The screening pipeline without the exception plumbing *)

Lemma parse_exp_total (x : pyval) : parse_exp x = Ok (parse_exp_value x).
Proof.
  destruct x as [s|d|]; simpl; try reflexivity;
    unfold strptime; match goal with |- context [strptime_ymd ?a] =>
      destruct (strptime_ymd a) end; reflexivity.
Qed.

Lemma combine_dated (df : DataFrame) :
  combine df (map parse_exp_value (map expiration df)) = dated df.
Proof. induction df as [|r df IH]; simpl; [reflexivity|]. rewrite IH. reflexivity. Qed.

Lemma screen_options_before_earnings_eq df ed price min_iv max_pct ot :
  screen_options_before_earnings df ed price min_iv max_pct ot
  = Ok (screened df ed price min_iv max_pct ot).
Proof.
  unfold screen_options_before_earnings, screened.
  destruct df as [|r0 df0] eqn:Edf.
  - simpl. destruct min_iv, ot; reflexivity.
  - rewrite <- Edf. replace (Chain.empty df) with false by (rewrite Edf; reflexivity).
    rewrite (apply_each_total parse_exp parse_exp_value parse_exp_total).
    cbn [bind]. rewrite combine_dated.
    fold (after_earnings df ed). fold (first_expiration_rows df ed).
    destruct (first_expiration_rows df ed) as [|r1 rows] eqn:E1.
    + simpl. destruct min_iv, ot; reflexivity.
    + cbn [Chain.empty]. fold (near_strikes price max_pct (r1 :: rows)).
      destruct (near_strikes price max_pct (r1 :: rows)) as [|r2 rows2] eqn:E2.
      * simpl. destruct min_iv, ot; reflexivity.
      * cbn [Chain.empty]. unfold iv_and_type. reflexivity.
Qed.

Lemma col_min_spec (l : list (option date)) :
  match col_min l with
  | Some m => In (Some m) l /\ forall x, In (Some x) l -> m <= x
  | None => forall x, ~ In (Some x) l
  end.
Proof.
  induction l as [|c l IH]; simpl; [intros x []|].
  destruct c as [x|]; destruct (col_min l) as [m|].
  - destruct IH as [Hin Hmin]. split.
    + destruct (Z.min_spec x m) as [[_ ->]|[_ ->]]; [left; reflexivity | right; exact Hin].
    + intros y [E|Hy]; [injection E as <-; lia | specialize (Hmin y Hy); lia].
  - split; [left; reflexivity|]. intros y [E|Hy]; [injection E as <-; lia | destruct (IH y Hy)].
  - destruct IH as [Hin Hmin]. split; [right; exact Hin|].
    intros y [E|Hy]; [discriminate | apply Hmin; exact Hy].
  - intros y [E|Hy]; [discriminate | apply (IH y); exact Hy].
Qed.

Lemma in_after_earnings df ed r c :
  In (r, c) (after_earnings df ed) <->
  In r df /\ c = parse_exp_value (expiration r) /\ exists d, c = Some d /\ ed < d.
Proof.
  unfold after_earnings, dated. rewrite filter_In, in_map_iff. simpl. split.
  - intros [[r' [E Hin]] Hgt]. injection E as -> <-.
    split; [exact Hin|]. split; [reflexivity|].
    destruct (parse_exp_value (expiration r)) as [d|]; simpl in Hgt; [|discriminate].
    exists d. split; [reflexivity | apply Z.ltb_lt; exact Hgt].
  - intros [Hin [-> [d [E Hlt]]]]. split.
    + exists r. split; [reflexivity | exact Hin].
    + rewrite E. simpl. apply Z.ltb_lt. exact Hlt.
Qed.

(** The rows left by the first step carry the earliest expiration lying
    strictly after the earnings date. *)
Lemma first_expiration_rows_spec df ed r :
  In r (first_expiration_rows df ed) ->
  In r df
  /\ exists d, parse_exp_value (expiration r) = Some d /\ ed < d
     /\ forall r' d', In r' df -> parse_exp_value (expiration r') = Some d' ->
                      ed < d' -> d <= d'.
Proof.
  unfold first_expiration_rows. intros H. apply in_map_iff in H.
  destruct H as [[r' c] [E H]]. simpl in E. subst r'.
  pose proof (col_min_spec (map snd (after_earnings df ed))) as Hm.
  destruct (col_min (map snd (after_earnings df ed))) as [m|].
  - apply filter_In in H. destruct H as [H Heq]. simpl in Heq.
    apply in_after_earnings in H. destruct H as [Hin [Hc [d [Ed Hlt]]]].
    subst c. rewrite Ed in Heq. simpl in Heq. apply Z.eqb_eq in Heq. subst m.
    split; [exact Hin|]. exists d. split; [exact Ed|]. split; [exact Hlt|].
    intros r' d' Hin' Ep Hlt'. destruct Hm as [_ Hmin]. apply Hmin.
    apply in_map_iff. exists (r', Some d'). split; [reflexivity|].
    apply in_after_earnings. split; [exact Hin'|]. split; [symmetry; exact Ep|].
    exists d'. split; [reflexivity | exact Hlt'].
  - exfalso. pose proof H as H0.
    apply in_after_earnings in H. destruct H as [_ [_ [d [Ed _]]]].
    apply (Hm d). apply in_map_iff. exists (r, c). split; [exact Ed | exact H0].
Qed.


Lemma parse_exp_some (x : pyval) (d : date) :
  parse_exp x = Ok (Some d) <-> parse_exp_value x = Some d.
Proof.
  rewrite parse_exp_total. split; [intros E; injection E; auto | intros ->; reflexivity].
Qed.

Lemma in_iv_and_type min_iv ot df r :
  In r (iv_and_type min_iv ot df) ->
  In r df
  /\ (forall m, min_iv = Some m -> (m <= normalized_iv (implied_volatility r))%Q)
  /\ (forall t, ot = Some t -> Chain.option_type r = t).
Proof.
  unfold iv_and_type. intros H.
  assert (H1 : In r (match min_iv with
                     | Some m => filter (fun r => Qgeb (normalized_iv (implied_volatility r)) m) df
                     | None => df end)
               /\ forall t, ot = Some t -> Chain.option_type r = t).
  { destruct ot as [t|].
    - apply filter_In in H. destruct H as [H E]. split; [exact H|].
      intros t' Et. injection Et as <-. apply String.eqb_eq. exact E.
    - split; [exact H | discriminate]. }
  destruct H1 as [H1 Ht]. split; [|split; [|exact Ht]].
  - destruct min_iv; [apply filter_In in H1; tauto | exact H1].
  - intros m Em. subst min_iv. apply filter_In in H1. destruct H1 as [_ G].
    unfold Qgeb in G. apply Qle_bool_iff. exact G.
Qed.

(** The normalization of the screen: a raw value above 10 is a percentage
    and is divided by 100, any other value is kept. *)
Lemma normalized_iv_cases (x : Q) :
  ((10 < x)%Q -> normalized_iv x = (x / 100)%Q)
  /\ ((x <= 10)%Q -> normalized_iv x = x).
Proof.
  unfold normalized_iv, Qgtb. split; intros H.
  - destruct (Qle_bool x 10) eqn:E; [|reflexivity].
    apply Qle_bool_iff in E. exfalso. apply (Qlt_not_le _ _ H E).
  - assert (E : Qle_bool x 10 = true) by (apply Qle_bool_iff; exact H).
    rewrite E. reflexivity.
Qed.

Lemma in_near_strikes price max_pct df r :
  In r (near_strikes price max_pct df) ->
  In r df
  /\ (~ price == 0 /\ Qabs (strike r - price) / price * 100 <= max_pct)%Q.
Proof.
  unfold near_strikes. intros H. apply filter_In in H. destruct H as [H G].
  split; [exact H|]. unfold strike_distance_pct in G.
  destruct (Qeq_bool price 0) eqn:E; simpl in G; [discriminate|].
  split.
  - intros Hz. apply Qeq_bool_iff in Hz. congruence.
  - apply Qle_bool_iff. exact G.
Qed.




(** A chain with an unparseable expiration among its rows is screened all
    the same: the row is dropped. *)
Example screen_skips_unparseable_expiration :
  screen_options_before_earnings chain_two_expirations 738910 100 None 10 None
  = Ok [mkRow 100 (PStr "2024-01-26") "call" (35 # 100) 10 5].
Proof. reflexivity. Qed.

(** The examples of the specification for the two window filters. *)
Example filter_by_proximity_example :
  filter_by_catalyst_proximity
    [PStr "2024-01-19"; PStr "2024-01-26"; PStr "2024-02-02"] 738910 7 3
  = Ok [PStr "2024-01-19"; PStr "2024-01-26"].
Proof. reflexivity. Qed.

Example nearest_post_catalyst_example :
  find_nearest_post_catalyst_expiration
    [PStr "2024-01-19"; PStr "2024-01-26"; PStr "2024-02-02"] 738910 1 14
  = Ok (Some (PStr "2024-01-26")).
Proof. reflexivity. Qed.

(** *** The score *)

Lemma Qltb_lt (a b : Q) : Qltb a b = true <-> (a < b)%Q.
Proof.
  unfold Qltb. rewrite negb_true_iff. split.
  - intros H. apply Qnot_le_lt. intros Hle. apply Qle_bool_iff in Hle. congruence.
  - intros H. destruct (Qle_bool b a) eqn:E; [|reflexivity].
    apply Qle_bool_iff in E. exfalso. apply (Qlt_not_le _ _ H E).
Qed.

Lemma Qltb_dec (a b : Q) : Qltb a b = if Qlt_le_dec a b then true else false.
Proof.
  destruct (Qlt_le_dec a b) as [H|H].
  - apply Qltb_lt. exact H.
  - unfold Qltb. apply negb_false_iff. apply Qle_bool_iff. exact H.
Qed.

Lemma time_score_matches (dtc dte : Z) :
  time_score dtc dte = time_score_spec (dte - dtc).
Proof.
  unfold time_score, time_score_spec.
  destruct (Z.ltb_spec (dte - dtc) 0); [lia|].
  destruct (Z.leb_spec (dte - dtc) 3), (Z.leb_spec 0 (dte - dtc)),
           (Z.leb_spec (dte - dtc) 7), (Z.leb_spec 4 (dte - dtc));
    cbn [andb]; lia.
Qed.

Lemma time_score_le_100 (dtc dte : Z) : time_score dtc dte <= 100.
Proof.
  unfold time_score.
  destruct (Z.ltb_spec (dte - dtc) 0); [lia|].
  destruct (Z.leb_spec (dte - dtc) 3); [lia|].
  destruct (Z.leb_spec (dte - dtc) 7); lia.
Qed.

Lemma move_score_le_100 (e : Q) : move_score e <= 100.
Proof.
  unfold move_score.
  destruct (Qltb e 2); [lia|]. destruct (Qltb e 5); [lia|]. destruct (Qltb e 10); lia.
Qed.

(** With a rank of 50 the weighted sum cannot pass 80 and the two strong
    recommendations are out of reach. *)
Lemma score_at_rank_50 (e : Q) (dtc dte : Z) :
  (composite_score (score_catalyst_play e 50 dtc dte) <= 80)%Q
  /\ recommendation (score_catalyst_play e 50 dtc dte) <> strong_sell
  /\ recommendation (score_catalyst_play e 50 dtc dte) <> strong_buy.
Proof.
  unfold score_catalyst_play. cbn [composite_score recommendation].
  split.
  - assert (Hw : (weighted_score 50 (time_score dtc dte) (move_score e) <= 80)%Q).
    { unfold weighted_score.
      pose proof (time_score_le_100 dtc dte) as Ht.
      pose proof (move_score_le_100 e) as Hm.
      rewrite Zle_Qle in Ht. rewrite Zle_Qle in Hm.
      set (t := inject_Z (time_score dtc dte)) in *.
      set (m := inject_Z (move_score e)) in *.
      change (inject_Z 100) with 100%Q in *. lra. }
    apply (py_round_le _ _ 1) in Hw.
    eapply Qle_trans; [exact Hw|]. vm_compute. discriminate.
  - unfold _get_recommendation.
    replace (Qgeb 50 70) with false by reflexivity.
    replace (Qltb 50 30) with false by reflexivity.
    rewrite !andb_false_r.
    destruct (Qgeb _ 60); [split; discriminate|].
    destruct (Qgeb _ 40); split; discriminate.
Qed.

End CatalystScreenerProps.

(* ================================================================== *)
(** ** The score in double precision *)

Module CatalystScreener64Props.

Import Binary64 Binary64Facts NumFacts.
Import CatalystScreener CatalystScreenerSpec CatalystScreener64 CatalystScreener64Spec.
Import CatalystScreenerProps.
Local Open Scope Q_scope.

Lemma move_score_matches64 (e : float) : move_score e = move_score_bins e.
Proof.
  destruct e as [q| | |]; try reflexivity.
  unfold move_score, move_score_bins, move_score_spec, lt. rewrite !Qltb_dec.
  destruct (Qlt_le_dec q 2), (Qlt_le_dec q 5), (Qlt_le_dec q 10); reflexivity.
Qed.

Lemma weighted_score_matches (r : float) (ts ms : Z) :
  weighted_score r ts ms = weighted_sum r ts ms.
Proof.
  unfold weighted_score, weighted_sum, of_score.
  rewrite (mul_comm r), (mul_comm (of_Q (inject_Z ts))), (mul_comm (of_Q (inject_Z ms))).
  reflexivity.
Qed.

Lemma time_score_bounds (dtc dte : Z) : (0 <= time_score dtc dte <= 100)%Z.
Proof.
  unfold time_score.
  destruct (Z.ltb_spec (dte - dtc) 0); [lia|].
  destruct (Z.leb_spec (dte - dtc) 3); [lia|].
  destruct (Z.leb_spec (dte - dtc) 7); lia.
Qed.

Lemma move_score_range64 (e : float) : (20 <= move_score e <= 100)%Z.
Proof.
  unfold move_score.
  destruct (lt e (Fin 2)); [lia|]. destruct (lt e (Fin 5)); [lia|].
  destruct (lt e (Fin 10)); lia.
Qed.

(** The reported composite score against the exact weighted sum. *)
Lemma composite_near (r : Q) (ts ms : Z) :
  0 <= r <= 100 -> (0 <= ts <= 100)%Z -> (0 <= ms <= 100)%Z ->
  exists c, py_round (weighted_score (Fin r) ts ms) 1 = Fin c
            /\ Qabs (c - exact_weighted_sum r ts ms) <= (1 # 20) + (1 # 1000000000000).
Proof.
  intros [Hr1 Hr2] Hts Hms.
  unfold weighted_score, of_score, exact_weighted_sum.
  rewrite (of_Q_int ts), (of_Q_int ms) by lia.
  assert (HT : 0 <= inject_Z ts <= 100).
  { split; [change 0 with (inject_Z 0) | change 100 with (inject_Z 100)];
      rewrite <- Zle_Qle; lia. }
  assert (HM : 0 <= inject_Z ms <= 100).
  { split; [change 0 with (inject_Z 0) | change 100 with (inject_Z 100)];
      rewrite <- Zle_Qle; lia. }
  destruct HT as [HT1 HT2]. destruct HM as [HM1 HM2].
  revert HT1 HT2 HM1 HM2. generalize (inject_Z ts), (inject_Z ms).
  intros T M HT1 HT2 HM1 HM2.
  change (of_Q (4 # 10)) with (Fin (3602879701896397 # 9007199254740992)).
  change (of_Q (35 # 100)) with (Fin (3152519739159347 # 9007199254740992)).
  change (of_Q (25 # 100)) with (Fin (1 # 4)).
  assert (P6 : pow2 6 == 64) by reflexivity.
  assert (P7 : pow2 7 == 128) by reflexivity.
  assert (P47 : pow2 (-47) == 1 # 140737488355328) by reflexivity.
  assert (P46 : pow2 (-46) == 1 # 70368744177664) by reflexivity.
  destruct (mul_near r (3602879701896397 # 9007199254740992) 6 ltac:(lia))
    as [a1 [E1 B1]].
  { rewrite P6. apply Qabs_Qle_condition. split; lra. }
  destruct (mul_near T (3152519739159347 # 9007199254740992) 6 ltac:(lia))
    as [a2 [E2 B2]].
  { rewrite P6. apply Qabs_Qle_condition. split; lra. }
  destruct (mul_near M (1 # 4) 6 ltac:(lia)) as [a3 [E3 B3]].
  { rewrite P6. apply Qabs_Qle_condition. split; lra. }
  change (6 - 53)%Z with (-47)%Z in B1, B2, B3. rewrite P47 in B1, B2, B3.
  apply Qabs_diff_Qle_condition in B1, B2, B3.
  destruct B1 as [B1a B1b], B2 as [B2a B2b], B3 as [B3a B3b].
  rewrite E1, E2, E3.
  destruct (add_near a1 a2 7 ltac:(lia)) as [s1 [E4 B4]].
  { rewrite P7. apply Qabs_Qle_condition. split; lra. }
  change (7 - 53)%Z with (-46)%Z in B4. rewrite P46 in B4.
  apply Qabs_diff_Qle_condition in B4. destruct B4 as [B4a B4b].
  rewrite E4.
  destruct (add_near s1 a3 7 ltac:(lia)) as [s2 [E5 B5]].
  { rewrite P7. apply Qabs_Qle_condition. split; lra. }
  change (7 - 53)%Z with (-46)%Z in B5. rewrite P46 in B5.
  apply Qabs_diff_Qle_condition in B5. destruct B5 as [B5a B5b].
  rewrite E5.
  destruct (py_round_near s2 1 7 ltac:(lia)) as [c [E6 B6]].
  { rewrite P7.
    assert (Hs : Qabs s2 <= 101) by (apply Qabs_Qle_condition; split; lra).
    lra. }
  change (7 - 53)%Z with (-46)%Z in B6. rewrite P46 in B6.
  change ((1 # 2) / inject_Z (pow10 1)) with (1 # 20) in B6.
  apply Qabs_diff_Qle_condition in B6. destruct B6 as [B6a B6b].
  exists c. split; [exact E6|].
  apply Qabs_diff_Qle_condition. split; lra.
Qed.

(** C3: the time-alignment score follows the piecewise rule on
    [d = days_to_expiration - days_to_catalyst], the expected-move score the
    right-open bins, and the composite score is
    [0.4 * iv_rank + 0.35 * time_score + 0.25 * move_score], evaluated in
    double precision as the code does, rounded to one decimal; for a rank
    within 0 and 100 it is within 0.05 (and a rounding error below
    [10 ^ -12]) of the exact weighted sum; the two examples of the
    specification hold. *)
Theorem score_catalyst_play_rule
    (expected_move_pct iv_rank : float) (days_to_catalyst days_to_expiration : Z) :
  let s := score_catalyst_play expected_move_pct iv_rank
                               days_to_catalyst days_to_expiration in
  let d := (days_to_expiration - days_to_catalyst)%Z in
  time_alignment_score s = time_score_spec d
  /\ expected_move_score s = move_score_bins expected_move_pct
  /\ composite_score s
     = py_round (weighted_sum iv_rank (time_score_spec d)
                              (move_score_bins expected_move_pct)) 1
  /\ (forall r, iv_rank = Fin r -> 0 <= r <= 100 ->
      exists c, composite_score s = Fin c
                /\ Qabs (c - exact_weighted_sum r (time_score_spec d)
                                                (move_score_bins expected_move_pct))
                   <= (1 # 20) + (1 # 1000000000000))
  /\ composite_score (score_catalyst_play (Fin 8) (Fin 85) 5 7) = Fin 89
  /\ ge (composite_score (score_catalyst_play (Fin 8) (Fin 85) 5 7)) (Fin 80) = true
  /\ recommendation (score_catalyst_play (Fin 8) (Fin 85) 5 7) = strong_sell
  /\ (time_alignment_score
        (score_catalyst_play expected_move_pct iv_rank 10 5) < 50)%Z.
Proof.
  cbv zeta. unfold score_catalyst_play at 1 2 3 4.
  cbn [time_alignment_score expected_move_score composite_score].
  split; [apply time_score_matches|]. split; [apply move_score_matches64|].
  split.
  - rewrite weighted_score_matches, time_score_matches, move_score_matches64. reflexivity.
  - split.
    + intros r -> Hr.
      rewrite <- time_score_matches, <- move_score_matches64.
      apply composite_near; [exact Hr | apply time_score_bounds |].
      pose proof (move_score_range64 expected_move_pct). lia.
    + split; [reflexivity|]. split; [reflexivity|]. split; reflexivity.
Qed.

(** At a tie of the exact sum the double-precision sum decides: the exact
    sum 46.45 would round to 46.4, the code reports 46.5; 73.55 would round
    to 73.6, the code reports 73.5. *)
Example composite_at_exact_ties :
  composite_score (score_catalyst_play (Fin 8) (of_Q (1 # 2)) 0 8) = of_Q (465 # 10)
  /\ composite_score (score_catalyst_play (Fin 8) (Fin 77) 0 10) = of_Q (735 # 10).
Proof. split; reflexivity. Qed.

End CatalystScreener64Props.

(* ================================================================== *)
(** ** The research summary *)

Module OptionsResearchProps.

Import CatalystScreener OptionsResearch OptionsResearchSpec CatalystScreenerSpec CatalystScreenerProps.
Local Open Scope Z_scope.

Lemma classify_matches (iv_rank iv_percentile : option Q) :
  _classify_iv_environment iv_rank iv_percentile = environment_spec iv_rank iv_percentile.
Proof. destruct iv_rank, iv_percentile; reflexivity. Qed.

Lemma days_until_key_le (a b : Catalyst) :
  days_until_key a <= days_until_key b -> days_until_le a b.
Proof.
  intros H. exists (days_until_key a), (days_until_key b).
  destruct a, b; simpl in *; auto.
Qed.

Lemma StronglySorted_impl {A : Type} (R S : A -> A -> Prop) (l : list A) :
  (forall a b, R a b -> S a b) -> StronglySorted R l -> StronglySorted S l.
Proof.
  intros HRS Hs. induction Hs as [|a l Hs IH Hall]; constructor; [exact IH|].
  apply Forall_forall. rewrite Forall_forall in Hall. intros x Hx. apply HRS, Hall, Hx.
Qed.

Section Build.
Variable fsqrt : Q -> Q.
Variable today : date.

Lemma expected_move_entries_returns (price : Q) (atm : option Q) :
  returns (expected_move_entries fsqrt price atm).
Proof.
  unfold expected_move_entries. destruct atm as [iv|]; [|eexists; reflexivity].
  destruct (Qeq_bool iv 0); [eexists; reflexivity|].
  cbn [apply_each].
  rewrite !(IvAnalyticsProps.expected_move_positive_days fsqrt) by lia.
  cbn [bind]. eexists; reflexivity.
Qed.

Lemma earnings_catalyst_returns (exps : list pyval) (ed : date) :
  returns (earnings_catalyst today exps ed).
Proof.
  unfold earnings_catalyst.
  destruct (filter_by_catalyst_proximity_returns exps ed 5 7) as [rel ->].
  destruct (find_nearest_post_catalyst_expiration_returns exps ed 1 14) as [n ->].
  simpl. eexists; reflexivity.
Qed.

Lemma trial_body_returns (exps : list pyval) (acc : list Catalyst) (t : Trial) :
  returns (trial_body today exps acc t).
Proof.
  unfold trial_body. destruct (truthy (primary_completion_date t)); [|eexists; reflexivity].
  destruct (primary_completion_date t) as [s|d|]; simpl.
  - unfold strptime. destruct (strptime_ymd (substring 0 10 s)) as [d|]; simpl;
      [|eexists; reflexivity].
    destruct (0 <? days_between d today); [|eexists; reflexivity].
    destruct (filter_by_catalyst_proximity_returns exps d 5 14) as [rel ->].
    simpl. eexists; reflexivity.
  - destruct (0 <? days_between d today); [|eexists; reflexivity].
    destruct (filter_by_catalyst_proximity_returns exps d 5 14) as [rel ->].
    simpl. eexists; reflexivity.
  - eexists; reflexivity.
Qed.

(** C8: the summary is always built; its IV environment is classified
    from the rank, from the percentile only when the rank is absent, with
    the thresholds 80, 60, 40 and 20, and is unknown when both are absent
    (so a rank of 90 is very high and a rank of 10 very low); the
    catalysts, whatever mixture of earnings and trials they come from,
    are in ascending order of [days_until]. *)
Theorem research_summary_environment_and_order
    (symbol : string) (price : Q) (exps : list pyval)
    (earnings_date : option date) (clinical_trials : option (list Trial))
    (atm_iv iv_rank iv_percentile : option Q) :
  exists s,
    build_research_summary fsqrt today symbol price exps earnings_date
                           clinical_trials atm_iv iv_rank iv_percentile = Ok s
    /\ iv_environment (overview s) = environment_spec iv_rank iv_percentile
    /\ StronglySorted days_until_le (catalysts s)
    /\ _classify_iv_environment (Some 90%Q) iv_percentile = "very_high"%string
    /\ _classify_iv_environment (Some 10%Q) iv_percentile = "very_low"%string
    /\ _classify_iv_environment None None = "unknown"%string.
Proof.
  unfold build_research_summary.
  destruct (expected_move_entries_returns price atm_iv) as [moves ->]. cbn [bind].
  assert (He : returns (match earnings_date with
                        | Some ed => (info <- earnings_catalyst today exps ed ;; Ok [info])%py
                        | None => Ok []
                        end)).
  { destruct earnings_date as [ed|]; [|eexists; reflexivity].
    destruct (earnings_catalyst_returns exps ed) as [info ->]. eexists; reflexivity. }
  destruct He as [from_earnings ->]. cbn [bind].
  assert (Ht : returns (match clinical_trials with
                        | Some trials =>
                            for_each (trial_body today exps) (firstn 5 trials) from_earnings
                        | None => Ok from_earnings
                        end)).
  { destruct clinical_trials as [trials|]; [|eexists; reflexivity].
    apply for_each_returns. intros s x. apply trial_body_returns. }
  destruct Ht as [with_trials ->]. cbn [bind].
  eexists. split; [reflexivity|]. cbn [overview iv_environment catalysts].
  split; [apply classify_matches|].
  split.
  - apply (StronglySorted_impl (fun a b => days_until_key a <= days_until_key b)).
    + apply days_until_key_le.
    + apply PySortProps.sort_by_key_sorted.
  - repeat split.
Qed.

End Build.

(** An earnings date in ten days among trials read out in five and in
    sixty days, a past trial, an unreadable date and a missing one. *)
Example catalysts_of_a_mixture :
  option_map (fun s => map get_days_until (catalysts s))
    (match build_research_summary sqrt_approx 738900 "XYZ" 100
             [PStr "2024-01-19"; PStr "2024-01-26"; PStr "2024-02-02"]
             (Some 738910)
             (Some [ mkTrial (PStr "2024-03-15") (Some (Some "late"%string)) None None None;
                     mkTrial (PStr "2024-01-20") (Some (Some "soon"%string)) None None None;
                     mkTrial (PStr "2023-03-15") (Some (Some "past"%string)) None None None;
                     mkTrial (PStr "unknown") (Some (Some "text"%string)) None None None;
                     mkTrial PNone (Some (Some "none"%string)) None None None ])
             None (Some 90%Q) None with
     | inr s => Some s
     | inl _ => None
     end)
  = Some [Some 5; Some 10; Some 60].
Proof. vm_compute. reflexivity. Qed.

End OptionsResearchProps.

(* ================================================================== *)
(** ** The IV normalization at its three sites *)

Module IvNormalizationProps.

Import NumFacts CatalystScreenerSpec Samples CatalystScreenerProps.
Local Open Scope Q_scope.

(** Away from the value 10 the three sites agree: the screen and the
    summary normalize alike, and the term structure rounds the same value
    to four decimals. *)
Lemma normalization_agrees_off_ten (x : Q) :
  ~ x == 10 ->
  CatalystScreener.normalized_iv x == OptionsResearch.normalized_iv x
  /\ IvAnalytics.normalized_atm_iv x = py_round (OptionsResearch.normalized_iv x) 4.
Proof.
  intros Hne.
  unfold CatalystScreener.normalized_iv, OptionsResearch.normalized_iv,
         IvAnalytics.normalized_atm_iv, Qgtb.
  rewrite Qltb_dec. destruct (Qlt_le_dec x 10) as [Hlt|Hge].
  - split; [|reflexivity].
    assert (E : Qle_bool x 10 = true) by (apply Qle_bool_iff, Qlt_le_weak, Hlt).
    rewrite E. reflexivity.
  - split; [|reflexivity].
    destruct (Qle_bool x 10) eqn:E; [|reflexivity].
    apply Qle_bool_iff in E. exfalso. apply Hne. apply Qle_antisym; assumption.
Qed.

(** C1, at the raw value 10: the min-IV filter of the screen leaves 10 as it
    is (the row passes a minimum of 5), while the term structure and the
    summary both turn it into 0.1: the summary's expected moves for an ATM
    IV of 10 are those of 0.1. *)
Theorem iv_threshold_at_exactly_ten :
  CatalystScreener.normalized_iv 10 == 10
  /\ CatalystScreener.screen_options_before_earnings
       [row_iv_ten] 738910%Z 100 (Some 5) 10 None = Ok [row_iv_ten]
  /\ IvAnalytics.normalized_atm_iv 10 == 1 # 10
  /\ IvAnalytics.iv_term_structure [row_iv_ten] 100
     = [("2024-01-26"%string, 1 # 10)]
  /\ OptionsResearch.normalized_iv 10 == 1 # 10
  /\ OptionsResearch.expected_move_entries sqrt_approx 100 (Some 10)
     = OptionsResearch.expected_move_entries sqrt_approx 100 (Some (1 # 10)).
Proof.
  split; [reflexivity|]. split; [reflexivity|]. split; [reflexivity|].
  split; [reflexivity|]. split; [reflexivity|]. vm_compute. reflexivity.
Qed.

End IvNormalizationProps.

(* ================================================================== *)
(** ** The clinical-trials adapter *)

Module ClinicalTrialsProps.

Import CatalystScreener ClinicalTrials ClinicalTrialsSpec Samples CatalystScreenerSpec CatalystScreenerProps.
Local Open Scope Z_scope.

(** *** Parsed dates lie in the calendar *)

Lemma days_before_month_bound (y m d : Z) :
  1 <= m <= 12 -> 1 <= d <= days_in_month y m ->
  1 <= days_before_month y m + d <= 365 + (if is_leap y then 1 else 0).
Proof.
  intros Hm Hd. unfold days_before_month, days_in_month in *.
  assert (Cases : m = 1 \/ m = 2 \/ m = 3 \/ m = 4 \/ m = 5 \/ m = 6 \/ m = 7
                  \/ m = 8 \/ m = 9 \/ m = 10 \/ m = 11 \/ m = 12) by lia.
  destruct (is_leap y);
    destruct Cases as [->|[->|[->|[->|[->|[->|[->|[->|[->|[->|[->| ->]]]]]]]]]]];
    cbv [days_before_month_tbl Z.eqb Pos.eqb Z.ltb Z.compare Pos.compare
         Pos.compare_cont andb orb] in *; lia.
Qed.

Lemma days_before_year_step (y : Z) :
  days_before_year (y + 1) = days_before_year y + 365 + (if is_leap y then 1 else 0).
Proof.
  unfold days_before_year, is_leap.
  replace (y + 1 - 1) with y by lia.
  destruct (Z.eqb_spec (y mod 4) 0), (Z.eqb_spec (y mod 100) 0),
           (Z.eqb_spec (y mod 400) 0); cbn [andb orb negb];
    Z.div_mod_to_equations; lia.
Qed.

Lemma days_before_year_mono (y z : Z) :
  y <= z -> days_before_year y <= days_before_year z.
Proof. unfold days_before_year. intros H. Z.div_mod_to_equations. lia. Qed.

Lemma mk_date_range (y m d : Z) (x : date) :
  mk_date y m d = Some x -> 1 <= x <= date_max.
Proof.
  unfold mk_date. intros H.
  destruct ((1 <=? y) && (y <=? 9999) && (1 <=? m) && (m <=? 12) && (1 <=? d)
            && (d <=? days_in_month y m)) eqn:E; [|discriminate].
  injection H as <-.
  repeat (apply andb_true_iff in E; destruct E as [E ?]).
  repeat match goal with H : (_ <=? _) = true |- _ => apply Z.leb_le in H end.
  pose proof (days_before_month_bound y m d ltac:(lia) ltac:(lia)) as Hb.
  pose proof (days_before_year_step y) as Hs.
  pose proof (days_before_year_mono 1 y ltac:(lia)) as Hlo.
  pose proof (days_before_year_mono (y + 1) 10000 ltac:(lia)) as Hhi.
  change (days_before_year 1) with 0 in Hlo.
  change (days_before_year 10000) with 3652059 in Hhi.
  unfold ymd2ord, date_max. lia.
Qed.

Lemma strptime_ymd_range (s : string) (x : date) :
  strptime_ymd s = Some x -> 1 <= x <= date_max.
Proof.
  unfold strptime_ymd. intros H.
  repeat match type of H with
         | match ?a with _ => _ end = _ => destruct a; try discriminate
         | (if ?a then _ else _) = _ => destruct a; try discriminate
         | (let (_, _) := ?a in _) = _ => destruct a
         end.
  eapply mk_date_range; eassumption.
Qed.


(** *** The adapter without the exception plumbing *)

Lemma parse_text_eq (s : string) : parse_text s = Ok (parse_text_value s).
Proof.
  unfold parse_text, parse_text_value, strptime.
  destruct (strptime_ymd (substring 0 10 s)); reflexivity.
Qed.

Lemma validate_dates_eq (v : DateStruct) : validate_dates v = Ok (derived_date v).
Proof. destruct v as [[s|]|]; simpl; [apply parse_text_eq | reflexivity | reflexivity]. Qed.

(** The range filter and the validated field read the same date. *)
Lemma primary_date_of_eq (v : DateStruct) : primary_date_of v = Ok (derived_date v).
Proof.
  destruct v as [[s|]|]; simpl; try reflexivity.
  destruct s; [reflexivity | apply parse_text_eq].
Qed.

Lemma model_validate_eq (st : Study) :
  model_validate (build_trial st)
  = match validated st with
    | Some r => Ok r
    | None => Raise ValidationError
    end.
Proof.
  unfold model_validate, validated, build_trial; simpl.
  destruct (nctId st); [|reflexivity].
  destruct (text_or (officialTitle st) (briefTitle st)); [|reflexivity].
  rewrite validate_dates_eq. reflexivity.
Qed.

Lemma validated_date (st : Study) (r : NIHClinicalTrialsData) :
  validated st = Some r -> primary_completion_date r = study_date st.
Proof.
  unfold validated. destruct (nctId st); [|discriminate].
  destruct (text_or _ _); [|discriminate]. intros E. injection E as <-. reflexivity.
Qed.

Lemma out_of_range_false (q : NIHClinicalTrialsQueryParams) (pd : option date) :
  out_of_range q pd = false <-> (forall d, pd = Some d -> in_window q d).
Proof.
  unfold out_of_range, in_window. destruct pd as [d|].
  - rewrite orb_false_iff. split.
    + intros [H1 H2] d' E. injection E as <-. split.
      * intros s Es. rewrite Es in H1. apply Z.ltb_ge in H1. exact H1.
      * intros e Ee. rewrite Ee in H2. apply Z.ltb_ge in H2. exact H2.
    + intros H. destruct (H d eq_refl) as [H1 H2]. split.
      * destruct (start_date q) as [s|]; [|reflexivity]. apply Z.ltb_ge. apply H1. reflexivity.
      * destruct (end_date q) as [e|]; [|reflexivity]. apply Z.ltb_ge. apply H2. reflexivity.
  - split; [intros _ d E; discriminate | reflexivity].
Qed.

Lemma out_of_range_true (q : NIHClinicalTrialsQueryParams) (pd : option date) :
  out_of_range q pd = true <->
  exists d, pd = Some d
            /\ ((exists s, start_date q = Some s /\ d < s)
                \/ (exists e, end_date q = Some e /\ e < d)).
Proof.
  unfold out_of_range. destruct pd as [d|].
  - rewrite orb_true_iff. split.
    + intros [H|H]; exists d; (split; [reflexivity|]).
      * left. destruct (start_date q) as [s|]; [|discriminate].
        exists s. split; [reflexivity | apply Z.ltb_lt; exact H].
      * right. destruct (end_date q) as [e|]; [|discriminate].
        exists e. split; [reflexivity | apply Z.ltb_lt; exact H].
    + intros [d' [E [[s [Es H]]|[e [Ee H]]]]]; injection E as <-.
      * left. rewrite Es. apply Z.ltb_lt. exact H.
      * right. rewrite Ee. apply Z.ltb_lt. exact H.
  - split; [discriminate | intros [d [E _]]; discriminate].
Qed.

Lemma transform_body_eq q results st :
  transform_body q results st
  = if out_of_range q (study_date st) then Ok results
    else match validated st with
         | Some r => Ok (results ++ [r])
         | None => Raise ValidationError
         end.
Proof.
  unfold transform_body. cbv zeta.
  replace (d_primary_completion_date (build_trial st))
    with (primaryCompletionDateStruct st) by reflexivity.
  rewrite primary_date_of_eq. cbn [bind]. fold (study_date st).
  destruct (out_of_range q (study_date st)); [reflexivity|].
  rewrite model_validate_eq. destruct (validated st); reflexivity.
Qed.

Lemma transform_loop q data :
  forall acc out,
    for_each (transform_body q) data acc = Ok out ->
    exists recs,
      out = acc ++ recs
      /\ Forall2 (fun st r => validated st = Some r) (kept q data) recs.
Proof.
  induction data as [|st data IH]; intros acc out H; simpl in H.
  - injection H as <-. exists []. split; [symmetry; apply app_nil_r | constructor].
  - rewrite transform_body_eq in H. unfold kept. simpl.
    destruct (out_of_range q (study_date st)); simpl in *.
    + apply IH. exact H.
    + destruct (validated st) as [r|] eqn:Ev; simpl in H; [|discriminate].
      destruct (IH _ _ H) as [recs [-> Hf]].
      exists (r :: recs). split; [rewrite <- app_assoc; reflexivity|].
      constructor; assumption.
Qed.

Lemma transform_loop_all_out q data :
  kept q data = [] -> forall acc, for_each (transform_body q) data acc = Ok acc.
Proof.
  unfold kept. induction data as [|st data IH]; intros Hk acc; simpl; [reflexivity|].
  rewrite transform_body_eq. simpl in Hk.
  destruct (out_of_range q (study_date st)); simpl in *; [apply IH; exact Hk | discriminate].
Qed.

Lemma Forall2_in_r {A B : Type} (R : A -> B -> Prop) (l : list A) (l' : list B) (b : B) :
  Forall2 R l l' -> In b l' -> exists a, In a l /\ R a b.
Proof.
  induction 1 as [|x y l l' Hxy _ IH]; intros Hin; [destruct Hin|].
  destruct Hin as [<-|Hin].
  - exists x. split; [left; reflexivity | exact Hxy].
  - destruct (IH Hin) as [a [Ha Ra]]. exists a. split; [right; exact Ha | exact Ra].
Qed.

Lemma sort_key_bound (st : Study) (r : NIHClinicalTrialsData) :
  validated st = Some r -> sort_key r <= date_max.
Proof.
  intros Ev. unfold sort_key. rewrite (validated_date st r Ev).
  unfold study_date, derived_date.
  destruct (primaryCompletionDateStruct st) as [[s|]|]; try (unfold date_max; lia).
  destruct (parse_text_value s) as [d|] eqn:E; [|unfold date_max; lia].
  apply strptime_ymd_range in E. lia.
Qed.

Lemma StronglySorted_after {A : Type} (R : A -> A -> Prop) (l1 l2 : list A) (a : A) :
  StronglySorted R (l1 ++ a :: l2) -> forall b, In b l2 -> R a b.
Proof.
  induction l1 as [|x l1 IH]; simpl; intros Hs b Hb.
  - inversion Hs as [|? ? _ Hall]; subst. rewrite Forall_forall in Hall. apply Hall, Hb.
  - inversion Hs as [|? ? Hs' _]; subst. apply IH; assumption.
Qed.


(** Three studies inside an inclusive window, one outside, one undated. *)
Example transform_data_example :
  transform_data (mkQuery (Some 738910) (Some 738917))
    [ study "NCT3" (Some (Some "2024-02-01"%string));
      study "NCT0" None;
      study "NCT4" (Some (Some "2024-02-02"%string));
      study "NCT2" (Some (Some "2024-01-25"%string));
      study "NCT1" (Some (Some "2024-01-24"%string));
      study "NCT5" (Some (Some "2024-01"%string)) ]
  = Ok [ record "NCT2" (Some 738910); record "NCT3" (Some 738917);
         record "NCT0" None; record "NCT5" None ].
Proof. reflexivity. Qed.

Example transform_data_all_filtered :
  transform_data (mkQuery (Some 738910) None)
    [ study "NCT1" (Some (Some "2024-01-24"%string)) ]
  = Raise (EmptyDataError "No clinical trials found matching the date criteria.").
Proof. reflexivity. Qed.


End ClinicalTrialsProps.

(* ================================================================== *)
(** ** The entry points of the router *)

Module OptionsRouterProps.

Import CatalystScreener OptionsRouter CatalystScreenerSpec Samples CatalystScreenerProps.
Local Open Scope Z_scope.

(** *** What [surface] checks *)

Lemma surface_no_data (data : ChainData) (target : string) (up : option Q) :
  records data = [] ->
  surface_preconditions data target up = Raise (OpenBBError msg_no_data).
Proof. intros E. unfold surface_preconditions. rewrite E. reflexivity. Qed.

Lemma surface_null_price (data : ChainData) (target : string) :
  records data <> [] -> price_column data = Some None ->
  surface_preconditions data target None = Raise (OpenBBError msg_last_price).
Proof.
  intros Hne E. unfold surface_preconditions, getattr_underlying_price.
  destruct (records data); [congruence|]. simpl. rewrite E. reflexivity.
Qed.

Lemma surface_no_target (data : ChainData) (target : string) (p : Q) :
  records data <> [] -> ~ (p == 0)%Q -> has_column data target = false ->
  surface_preconditions data target (Some p)
  = Raise (OpenBBError (msg_no_target target)).
Proof.
  intros Hne Hp Ht. unfold surface_preconditions.
  destruct (records data); [congruence|]. simpl.
  destruct (Qeq_bool p 0) eqn:E; [apply Qeq_bool_iff in E; contradiction|].
  simpl. rewrite Ht. reflexivity.
Qed.

(** Without a usable parameter and without the column, the attribute access
    fails before the check on [last_price] is reached. *)
Lemma surface_price_column_absent (data : ChainData) (target : string) :
  records data <> [] -> price_column data = None ->
  surface_preconditions data target None
  = Raise (AttributeError msg_no_attribute).
Proof.
  intros Hne E. unfold surface_preconditions, getattr_underlying_price.
  destruct (records data); [congruence|]. simpl. rewrite E. reflexivity.
Qed.

(** *** What [catalyst_screen] checks *)

Section Screen.
Variable fsqrt : Q -> Q.
Variable today : date.

Lemma catalyst_screen_no_data data cd up min_iv max_pct ot sc :
  records data = [] ->
  catalyst_screen fsqrt today data cd up min_iv max_pct ot sc
  = Raise (OpenBBError msg_no_data).
Proof. intros E. unfold catalyst_screen. rewrite E. reflexivity. Qed.

Lemma catalyst_screen_bad_date data cd up min_iv max_pct ot sc :
  records data <> [] -> strptime_ymd cd = None ->
  catalyst_screen fsqrt today data cd up min_iv max_pct ot sc
  = Raise (OpenBBError msg_invalid_date).
Proof.
  intros Hne E. unfold catalyst_screen, strptime.
  destruct (records data); [congruence|]. simpl. rewrite E. reflexivity.
Qed.

Lemma catalyst_screen_no_price data cd d min_iv max_pct ot sc :
  records data <> [] -> strptime_ymd cd = Some d ->
  price_column data = None \/ price_column data = Some None ->
  catalyst_screen fsqrt today data cd None min_iv max_pct ot sc
  = Raise (OpenBBError msg_price_required).
Proof.
  intros Hne E Hp. unfold catalyst_screen, strptime.
  destruct (records data); [congruence|]. simpl. rewrite E. simpl.
  destruct Hp as [-> | ->]; reflexivity.
Qed.

(** *** The scoring loop *)

Lemma apply_each_in {A B : Type} (f : A -> result B) (l : list A) (out : list B) :
  apply_each f l = Ok out ->
  forall y, In y out -> exists x, In x l /\ f x = Ok y.
Proof.
  revert out. induction l as [|x l IH]; intros out H y Hy; simpl in H.
  - injection H as <-. destruct Hy.
  - destruct (f x) as [e|b] eqn:Ef; simpl in H; [discriminate|].
    destruct (apply_each f l) as [e|bs] eqn:El; simpl in H; [discriminate|].
    injection H as <-. destruct Hy as [<-|Hy].
    + exists x. split; [left; reflexivity | exact Ef].
    + destruct (IH bs eq_refl y Hy) as [x' [Hx' Hf]].
      exists x'. split; [right; exact Hx' | exact Hf].
Qed.

Lemma score_record_fields (dtc : Z) (iv_rank : Q) (r : OptionRow) (rec : ScoredRecord) :
  score_record fsqrt today dtc iv_rank r = Ok rec ->
  exists e dte,
    row rec = r
    /\ catalyst_score rec = Some (composite_score (score_catalyst_play e iv_rank dtc dte))
    /\ recommendation rec
       = Some (CatalystScreener.recommendation (score_catalyst_play e iv_rank dtc dte)).
Proof.
  unfold score_record. cbv zeta. intros H.
  destruct (try_except_VT _ _) as [ex|dte]; cbn [bind] in H; [discriminate|].
  match type of H with
  | bind ?m _ = _ => destruct m as [ex|e]; cbn [bind] in H; [discriminate|]
  end.
  injection H as <-. exists e, dte. repeat split.
Qed.

End Screen.

(** C10: with scoring on, every record that [catalyst_screen] returns was
    scored by [score_catalyst_play] at the constant rank 50, whatever the
    chain holds: its [catalyst_score] is at most 80 and its recommendation
    is neither of the two strong ones. *)
Theorem catalyst_screen_scores_capped
    (fsqrt : Q -> Q) (today : date) (data : ChainData) (catalyst_date : string)
    (underlying_price min_iv : option Q) (max_strike_distance_pct : Q)
    (option_type : option string) (out : list ScoredRecord)
    (H : catalyst_screen fsqrt today data catalyst_date underlying_price min_iv
                         max_strike_distance_pct option_type true = Ok out) :
  forall rec, In rec out ->
    exists expected_move_pct days_to_catalyst days_to_expiration s t,
      s = composite_score (score_catalyst_play expected_move_pct 50
                             days_to_catalyst days_to_expiration)
      /\ t = CatalystScreener.recommendation
               (score_catalyst_play expected_move_pct 50
                  days_to_catalyst days_to_expiration)
      /\ catalyst_score rec = Some s /\ (s <= 80)%Q
      /\ recommendation rec = Some t /\ t <> strong_sell /\ t <> strong_buy.
Proof.
  intros rec Hrec. unfold catalyst_screen in H.
  destruct (Chain.empty (records data)); [discriminate|].
  destruct (try_except_V _ _) as [ex|cdt]; cbn [bind] in H; [discriminate|].
  match type of H with
  | match ?lp with _ => _ end = _ => destruct lp as [last_price|]; [|discriminate]
  end.
  destruct (screen_options_before_earnings _ _ _ _ _ _) as [ex|scr];
    cbn [bind] in H; [discriminate|].
  destruct (Chain.empty scr).
  - injection H as <-. destruct Hrec.
  - destruct (apply_each_in _ _ _ H rec Hrec) as [r [_ Hr]].
    destruct (score_record_fields fsqrt today _ _ r rec Hr) as [e [dte [_ [Hs Ht]]]].
    destruct (score_at_rank_50 e (days_between cdt today) dte) as [Hle [Hn1 Hn2]].
    exists e, (days_between cdt today), dte. eexists. eexists.
    split; [reflexivity|]. split; [reflexivity|].
    split; [exact Hs|]. split; [exact Hle|].
    split; [exact Ht|]. split; assumption.
Qed.

Lemma catalyst_screen_scores_capped_witness :
  exists expected_move_pct days_to_catalyst days_to_expiration s t,
    s = composite_score (score_catalyst_play expected_move_pct 50
                           days_to_catalyst days_to_expiration)
    /\ t = CatalystScreener.recommendation
             (score_catalyst_play expected_move_pct 50
                days_to_catalyst days_to_expiration)
    /\ catalyst_score scored_row = Some s /\ (s <= 80)%Q
    /\ recommendation scored_row = Some t /\ t <> strong_sell /\ t <> strong_buy.
Proof.
  exact (catalyst_screen_scores_capped sqrt_approx 738900 posted_chain
           "2024-01-25" (Some 100%Q) None 10 None [scored_row]
           eq_refl scored_row (or_introl eq_refl)).
Defined.

(** C5, at a chain posted without an [underlying_price] field and without
    the parameter: [surface] stops on the [AttributeError] of the column
    access, not on its own message about the missing last price, while
    [catalyst_screen] on the same input reports the missing price itself. *)
Theorem surface_missing_price_is_attribute_error :
  surface_preconditions posted_chain "implied_volatility" None
  = Raise (AttributeError msg_no_attribute)
  /\ surface_preconditions posted_chain "implied_volatility" None
     <> Raise (OpenBBError msg_last_price)
  /\ catalyst_screen sqrt_approx 738900 posted_chain "2024-01-25" None None 10
                     None true
     = Raise (OpenBBError msg_price_required).
Proof. split; [reflexivity|]. split; [discriminate | reflexivity]. Qed.

End OptionsRouterProps.

(* ================================================================== *)
(** * Further properties

    What the functions do beyond the statements above: bounds, error
    cases, and how the functions compose. *)

(** ** Rounding of whole numbers and bounds *)

Module RoundingFacts.

Import NumFacts.
Local Open Scope Q_scope.

Lemma py_round_int (z : Z) (n : nat) : py_round (inject_Z z) n == inject_Z z.
Proof.
  apply (py_round_exact _ n (z * pow10 n)%Z). rewrite inject_Z_mult. reflexivity.
Qed.

Lemma py_round_0 (n : nat) : py_round 0 n == 0.
Proof. apply (py_round_int 0 n). Qed.

Lemma py_round_100 (n : nat) : py_round 100 n == 100.
Proof. apply (py_round_int 100 n). Qed.

Lemma py_round_upper (q : Q) (z : Z) (n : nat) :
  q <= inject_Z z -> py_round q n <= inject_Z z.
Proof.
  intros H. apply (py_round_le _ _ n) in H.
  eapply Qle_trans; [exact H|]. rewrite py_round_int. apply Qle_refl.
Qed.

Lemma py_round_lower (q : Q) (z : Z) (n : nat) :
  inject_Z z <= q -> inject_Z z <= py_round q n.
Proof.
  intros H. apply (py_round_le _ _ n) in H.
  eapply Qle_trans; [|exact H]. rewrite py_round_int. apply Qle_refl.
Qed.

Lemma py_round_between (q lo hi : Q) (n : nat) :
  py_round lo n == lo -> py_round hi n == hi ->
  lo <= q <= hi -> lo <= py_round q n <= hi.
Proof.
  intros Hlo Hhi [H1 H2]. split.
  - rewrite <- Hlo. apply py_round_le. exact H1.
  - rewrite <- Hhi. apply py_round_le. exact H2.
Qed.

End RoundingFacts.

(* ================================================================== *)
(** ** The stable sort on text keys *)

Module PySortMore.

Import PySort.

Section ByLeb.
Context {A : Type}.
Variable leb : A -> A -> bool.
Hypothesis leb_total : forall a b, leb a b = true \/ leb b a = true.
Hypothesis leb_trans : forall a b c, leb a b = true -> leb b c = true -> leb a c = true.

Lemma insert_leb_perm (x : A) (l : list A) : Permutation (insert leb x l) (x :: l).
Proof.
  induction l as [|y l IH]; simpl; [apply Permutation_refl|].
  destruct (leb x y); [apply Permutation_refl|].
  eapply Permutation_trans; [apply perm_skip; exact IH | apply perm_swap].
Qed.

Lemma sort_leb_perm (l : list A) : Permutation (sort leb l) l.
Proof.
  unfold sort. induction l as [|x l IH]; simpl; [apply Permutation_refl|].
  eapply Permutation_trans; [apply insert_leb_perm | apply perm_skip; exact IH].
Qed.

Lemma insert_leb_sorted (x : A) (l : list A) :
  StronglySorted (fun a b => leb a b = true) l ->
  StronglySorted (fun a b => leb a b = true) (insert leb x l).
Proof.
  induction l as [|y l IH]; intros Hs; simpl.
  - constructor; constructor.
  - destruct (leb x y) eqn:E.
    + constructor; [exact Hs|].
      inversion Hs as [|? ? Hs' Hall]; subst.
      constructor; [exact E|].
      apply Forall_forall. intros z Hz.
      rewrite Forall_forall in Hall. apply (leb_trans x y z E). apply Hall, Hz.
    + inversion Hs as [|? ? Hs' Hall]; subst.
      constructor; [apply IH; exact Hs'|].
      apply Forall_forall. intros z Hz.
      apply (Permutation_in _ (insert_leb_perm x l)) in Hz.
      destruct Hz as [<-|Hz].
      * destruct (leb_total x y) as [H|H]; [congruence | exact H].
      * rewrite Forall_forall in Hall. apply Hall. exact Hz.
Qed.

Lemma sort_leb_sorted (l : list A) :
  StronglySorted (fun a b => leb a b = true) (sort leb l).
Proof.
  unfold sort. induction l as [|x l IH]; simpl; [constructor|].
  apply insert_leb_sorted. exact IH.
Qed.

End ByLeb.

Lemma string_leb_trans (a b c : string) :
  String.leb a b = true -> String.leb b c = true -> String.leb a c = true.
Proof.
  unfold String.leb. intros H1 H2.
  destruct (String.compare a b) eqn:E1; try discriminate;
  destruct (String.compare b c) eqn:E2; try discriminate.
  - apply String.compare_eq_iff in E1. subst. rewrite E2. reflexivity.
  - apply String.compare_eq_iff in E1. subst. rewrite E2. reflexivity.
  - apply String.compare_eq_iff in E2. subst. rewrite E1. reflexivity.
  - apply OrderedTypeEx.String_as_OT.cmp_lt in E1.
    apply OrderedTypeEx.String_as_OT.cmp_lt in E2.
    pose proof (OrderedTypeEx.String_as_OT.lt_trans _ _ _ E1 E2) as H.
    apply OrderedTypeEx.String_as_OT.cmp_lt in H.
    unfold OrderedTypeEx.String_as_OT.cmp in H. rewrite H. reflexivity.
Qed.

Lemma sort_by_text_sorted {A : Type} (key : A -> string) (l : list A) :
  StronglySorted (fun a b => String.leb (key a) (key b) = true) (sort_by_text key l).
Proof.
  unfold sort_by_text.
  apply (sort_leb_sorted (fun a b => String.leb (key a) (key b))).
  - intros a b. apply String.leb_total.
  - intros a b c. apply string_leb_trans.
Qed.

Lemma sort_by_text_in {A : Type} (key : A -> string) (l : list A) (x : A) :
  In x (sort_by_text key l) <-> In x l.
Proof.
  unfold sort_by_text. split; intros H.
  - apply (Permutation_in _ (sort_leb_perm (fun a b => String.leb (key a) (key b)) l)). exact H.
  - apply (Permutation_in _ (Permutation_sym (sort_leb_perm (fun a b => String.leb (key a) (key b)) l))). exact H.
Qed.

End PySortMore.

(* ================================================================== *)
(** ** IV rank, percentile and expected move *)

Module IvAnalyticsMore.

Import IvAnalytics IvAnalyticsSpec NumFacts RoundingFacts CatalystScreenerProps.
Local Open Scope Q_scope.

Lemma clamp_bounds (x : Q) : 0 <= Qmax 0 (Qmin 100 x) <= 100.
Proof.
  split; [apply Q.le_max_l|].
  apply Q.max_lub; [discriminate | apply Q.le_min_l].
Qed.

Lemma clamp_le (x y : Q) : x <= y -> Qmax 0 (Qmin 100 x) <= Qmax 0 (Qmin 100 y).
Proof.
  intros H. apply Q.max_le_compat_l. apply Q.min_le_compat_l. exact H.
Qed.

(** X1: [calculate_iv_rank] stays within [0, 100] whatever the three values
    are, and is 50 when the range is a single point. *)
Theorem iv_rank_bounds (current_iv iv_low iv_high : Q) :
  0 <= calculate_iv_rank current_iv iv_low iv_high <= 100
  /\ calculate_iv_rank current_iv iv_low iv_low == 50.
Proof.
  split.
  - unfold calculate_iv_rank. destruct (Qeq_bool iv_high iv_low).
    + split; discriminate.
    + apply py_round_between; [apply py_round_0 | apply py_round_100 | apply clamp_bounds].
  - unfold calculate_iv_rank.
    assert (E : Qeq_bool iv_low iv_low = true) by (apply Qeq_bool_iff; reflexivity).
    rewrite E. reflexivity.
Qed.

Lemma Qdiv_le_compat_pos (a b c : Q) : 0 < c -> a <= b -> a / c <= b / c.
Proof.
  intros Hc H. unfold Qdiv. apply Qmult_le_compat_r; [exact H|].
  apply Qlt_le_weak. apply Qinv_lt_0_compat. exact Hc.
Qed.

(** X2: with a proper range ([iv_low < iv_high]) the rank does not decrease
    when the current IV grows. *)
Theorem iv_rank_monotone (c1 c2 iv_low iv_high : Q)
    (Hrange : iv_low < iv_high) (Hle : c1 <= c2) :
  calculate_iv_rank c1 iv_low iv_high <= calculate_iv_rank c2 iv_low iv_high.
Proof.
  unfold calculate_iv_rank.
  destruct (Qeq_bool iv_high iv_low) eqn:E.
  - apply Qle_refl.
  - apply py_round_le. apply clamp_le.
    apply Qmult_le_compat_r; [|discriminate].
    apply Qdiv_le_compat_pos; lra.
Qed.

Lemma iv_rank_monotone_witness :
  calculate_iv_rank (30 # 100) (20 # 100) (50 # 100)
  <= calculate_iv_rank (35 # 100) (20 # 100) (50 # 100).
Proof.
  apply (iv_rank_monotone (30 # 100) (35 # 100) (20 # 100) (50 # 100)).
  - reflexivity.
  - discriminate.
Defined.

(** X3: with a proper range the rank is 0 at and below [iv_low] and 100 at and
    above [iv_high]. *)
Theorem iv_rank_saturates (current_iv iv_low iv_high : Q)
    (Hrange : iv_low < iv_high) :
  (current_iv <= iv_low -> calculate_iv_rank current_iv iv_low iv_high == 0)
  /\ (iv_high <= current_iv -> calculate_iv_rank current_iv iv_low iv_high == 100).
Proof.
  unfold calculate_iv_rank.
  assert (E : Qeq_bool iv_high iv_low = false).
  { destruct (Qeq_bool iv_high iv_low) eqn:E; [|reflexivity].
    apply Qeq_bool_iff in E. lra. }
  rewrite E.
  assert (Hd : 0 < iv_high - iv_low) by lra.
  split; intros H.
  - rewrite (py_round_comp _ 0 2); [apply py_round_0|].
    assert (Hx : (current_iv - iv_low) / (iv_high - iv_low) * 100 <= 0).
    { assert (Hq : (current_iv - iv_low) / (iv_high - iv_low) <= 0 / (iv_high - iv_low))
        by (apply Qdiv_le_compat_pos; lra).
      unfold Qdiv at 2 in Hq. rewrite Qmult_0_l in Hq. lra. }
    apply Qle_antisym; [|apply Q.le_max_l].
    apply Q.max_lub; [apply Qle_refl|].
    eapply Qle_trans; [apply Q.le_min_r | exact Hx].
  - rewrite (py_round_comp _ 100 2); [apply py_round_100|].
    assert (Hx : 100 <= (current_iv - iv_low) / (iv_high - iv_low) * 100).
    { assert (Hq : (iv_high - iv_low) / (iv_high - iv_low)
                   <= (current_iv - iv_low) / (iv_high - iv_low))
        by (apply Qdiv_le_compat_pos; lra).
      assert (H1 : (iv_high - iv_low) / (iv_high - iv_low) == 1) by (field; lra).
      rewrite H1 in Hq. lra. }
    rewrite (Q.min_l 100 _ Hx). apply Q.max_r. discriminate.
Qed.

Lemma iv_rank_saturates_witness :
  calculate_iv_rank (10 # 100) (20 # 100) (50 # 100) == 0
  /\ calculate_iv_rank (60 # 100) (20 # 100) (50 # 100) == 100.
Proof.
  destruct (iv_rank_saturates (10 # 100) (20 # 100) (50 # 100) eq_refl) as [H _].
  destruct (iv_rank_saturates (60 # 100) (20 # 100) (50 # 100) eq_refl) as [_ H'].
  split; [apply H | apply H']; discriminate.
Defined.


Lemma count_lower_le_length (x : Q) (hist : list Q) :
  (count_lower x hist <= List.length hist)%nat.
Proof. unfold count_lower. apply filter_length_le. Qed.

Lemma Qltb_trans_le (h x y : Q) : x <= y -> Qltb h x = true -> Qltb h y = true.
Proof.
  intros Hxy H. apply Qltb_lt in H. apply Qltb_lt. eapply Qlt_le_trans; eassumption.
Qed.

Lemma count_lower_mono (x y : Q) (hist : list Q) :
  x <= y -> (count_lower x hist <= count_lower y hist)%nat.
Proof.
  intros Hxy. unfold count_lower. induction hist as [|h t IH]; simpl; [lia|].
  destruct (Qltb h x) eqn:E.
  - rewrite (Qltb_trans_le h x y Hxy E). simpl. lia.
  - destruct (Qltb h y); simpl; lia.
Qed.

Lemma exact_percentile_le (x y : Q) (hist : list Q) :
  x <= y -> exact_percentile x hist <= exact_percentile y hist.
Proof.
  intros Hxy. unfold exact_percentile.
  destruct hist as [|h t].
  - simpl. unfold Qdiv. rewrite !Qmult_0_r. apply Qle_refl.
  - apply Qdiv_le_compat_pos.
    + change 0 with (inject_Z 0). rewrite <- Zlt_Qlt. simpl. lia.
    + apply Qmult_le_l; [reflexivity|]. rewrite <- Zle_Qle.
      apply Nat2Z.inj_le. apply count_lower_mono. exact Hxy.
Qed.

Lemma exact_percentile_bounds (x : Q) (hist : list Q) :
  hist <> [] -> 0 <= exact_percentile x hist <= 100.
Proof.
  intros Hne. unfold exact_percentile.
  destruct hist as [|h t]; [congruence|].
  set (n := inject_Z (Z.of_nat (List.length (h :: t)))).
  set (c := inject_Z (Z.of_nat (count_lower x (h :: t)))).
  assert (Hn : 0 < n).
  { unfold n. change 0 with (inject_Z 0). rewrite <- Zlt_Qlt. simpl. lia. }
  assert (Hc : 0 <= c).
  { unfold c. change 0 with (inject_Z 0). rewrite <- Zle_Qle. lia. }
  assert (Hcn : c <= n).
  { unfold c, n. rewrite <- Zle_Qle. apply Nat2Z.inj_le. apply count_lower_le_length. }
  split.
  - apply Qle_shift_div_l; [exact Hn|]. rewrite Qmult_0_l.
    apply Qmult_le_0_compat; [discriminate | exact Hc].
  - apply Qle_shift_div_r; [exact Hn|]. apply Qmult_le_l; [reflexivity | exact Hcn].
Qed.

(** X4: the percentile stays within [0, 100] and does not decrease when the
    current value grows. *)
Theorem iv_percentile_bounds_and_monotone (x y : Q) (hist : list Q) :
  0 <= calculate_iv_percentile x hist <= 100
  /\ (x <= y -> calculate_iv_percentile x hist <= calculate_iv_percentile y hist).
Proof.
  destruct hist as [|h t].
  - split; [split; discriminate | intros _; apply Qle_refl].
  - assert (Hne : h :: t <> []) by discriminate.
    rewrite !(IvAnalyticsProps.iv_percentile_nonempty _ _ Hne). split.
    + apply py_round_between;
        [apply py_round_0 | apply py_round_100 | apply exact_percentile_bounds; exact Hne].
    + intros Hxy. apply py_round_le. apply exact_percentile_le. exact Hxy.
Qed.

(** *** The range of the expected move *)

Section Moves.
Variable fsqrt : Q -> Q.

(** X6: for a non-negative price and IV (and a square root that is never
    negative) the move and its percentage are non-negative and the range
    brackets the rounded price. *)
Theorem expected_move_brackets_price (P iv : Q) (days ann : Z)
    (m pct lo hi : Q)
    (Hsqrt : forall x, 0 <= fsqrt x) (HP : 0 <= P) (Hiv : 0 <= iv)
    (H : calculate_expected_move fsqrt P iv days ann = Ok (m, pct, (lo, hi))) :
  0 <= m /\ 0 <= pct /\ lo <= py_round P 2 <= hi.
Proof.
  unfold calculate_expected_move in H.
  destruct (truediv days ann) as [e|ratio]; cbn [bind] in H; [discriminate|].
  unfold math_sqrt in H. destruct (Qltb ratio 0); cbn [bind] in H; [discriminate|].
  injection H as <- <- <- <-.
  pose proof (Hsqrt ratio) as Ht.
  assert (Hm : 0 <= P * iv * fsqrt ratio).
  { apply Qmult_le_0_compat; [apply Qmult_le_0_compat|]; assumption. }
  assert (Hp : 0 <= iv * fsqrt ratio * 100).
  { apply Qmult_le_0_compat; [apply Qmult_le_0_compat|]; [assumption..|discriminate]. }
  split; [rewrite <- (py_round_0 2); apply py_round_le; exact Hm|].
  split; [rewrite <- (py_round_0 2); apply py_round_le; exact Hp|].
  split; apply py_round_le; lra.
Qed.

End Moves.

Lemma sqrt_approx_nonneg (x : Q) : 0 <= sqrt_approx x.
Proof.
  unfold sqrt_approx. rewrite Qred_correct.
  apply Qle_shift_div_l; [reflexivity|]. rewrite Qmult_0_l.
  change 0 with (inject_Z 0). rewrite <- Zle_Qle. apply Z.sqrt_nonneg.
Qed.

Lemma expected_move_brackets_price_witness :
  0 <= 43 # 5 /\ 0 <= 43 # 5 /\ 457 # 5 <= py_round 100 2 <= 543 # 5.
Proof.
  exact (expected_move_brackets_price sqrt_approx 100 (3 # 10) 30 365
           (43 # 5) (43 # 5) (457 # 5) (543 # 5)
           sqrt_approx_nonneg ltac:(discriminate) ltac:(discriminate) eq_refl).
Defined.

End IvAnalyticsMore.

(* ================================================================== *)
(** ** The expected move in double precision: errors and accuracy *)

Module IvAnalytics64More.

Import Binary64 Binary64Facts NumFacts IvAnalytics64 CatalystScreenerProps.
Local Open Scope Q_scope.

Lemma quotient_abs (a b : Z) :
  b <> 0%Z ->
  Qabs (inject_Z a / inject_Z b) == inject_Z (Z.abs a) / inject_Z (Z.abs b).
Proof.
  intros Hb. unfold Qdiv. rewrite Qabs_Qmult, Qabs_Qinv. reflexivity.
Qed.

Lemma quotient_sign (a b : Z) :
  b <> 0%Z -> (inject_Z a / inject_Z b < 0 <-> (a * b < 0)%Z).
Proof.
  intros Hb.
  assert (Hq : inject_Z a / inject_Z b == inject_Z (a * b) / inject_Z (b * b)).
  { rewrite !inject_Z_mult. field. intros H. apply Hb.
    apply (inject_Z_injective b 0). exact H. }
  assert (Hpos : 0 < inject_Z (b * b)).
  { change 0 with (inject_Z 0). rewrite <- Zlt_Qlt. nia. }
  rewrite Hq. split; intros H.
  - destruct (Z.lt_ge_cases (a * b) 0) as [Hlt|Hge]; [exact Hlt|].
    exfalso. apply (Qlt_not_le _ _ H).
    apply Qle_shift_div_l; [exact Hpos|]. rewrite Qmult_0_l.
    change 0 with (inject_Z 0). rewrite <- Zle_Qle. exact Hge.
  - apply Qlt_shift_div_r; [exact Hpos|]. rewrite Qmult_0_l.
    change 0 with (inject_Z 0). rewrite <- Zlt_Qlt. exact H.
Qed.

Lemma abs_pos_Q (b : Z) : b <> 0%Z -> 0 < inject_Z (Z.abs b).
Proof. intros Hb. change 0 with (inject_Z 0). rewrite <- Zlt_Qlt. lia. Qed.

(** X5: [calculate_expected_move] raises [ZeroDivisionError] for a zero
    annualization factor and [OverflowError] when the quotient of the two
    ints reaches [2 ^ 1024]; below [2 ^ 1023] a negative quotient (not so
    small that it rounds to zero) is a [ValueError] from the square root,
    and a quotient that is not negative always gives a result, whatever the
    price and the IV are. *)
Theorem expected_move_domain (P iv : float) (days ann : Z) :
  (ann = 0%Z -> calculate_expected_move P iv days ann = Raise ZeroDivisionError)
  /\ (ann <> 0%Z -> (2 ^ 1024 * Z.abs ann <= Z.abs days)%Z ->
      calculate_expected_move P iv days ann = Raise OverflowError)
  /\ (ann <> 0%Z -> (Z.abs days <= 2 ^ 1023 * Z.abs ann)%Z ->
      (days * ann < 0)%Z -> (Z.abs ann <= 2 ^ 1074 * Z.abs days)%Z ->
      calculate_expected_move P iv days ann = Raise ValueError)
  /\ (ann <> 0%Z -> (Z.abs days <= 2 ^ 1023 * Z.abs ann)%Z ->
      (0 <= days * ann)%Z ->
      returns (calculate_expected_move P iv days ann)).
Proof.
  assert (P1024 : pow2 1024 == inject_Z (2 ^ 1024)) by reflexivity.
  assert (P1023 : pow2 1023 == inject_Z (2 ^ 1023)) by reflexivity.
  assert (N1074 : pow2 (-1074) == / inject_Z (2 ^ 1074)) by reflexivity.
  split; [|split; [|split]].
  - intros ->. reflexivity.
  - intros Hann Hbig. unfold calculate_expected_move, int_truediv.
    destruct (Z.eqb_spec ann 0) as [E|_]; [contradiction|].
    assert (Hq : pow2 1024 <= Qabs (inject_Z days / inject_Z ann)).
    { rewrite (quotient_abs days ann Hann), P1024.
      apply Qle_shift_div_l; [apply abs_pos_Q; exact Hann|].
      rewrite <- inject_Z_mult, <- Zle_Qle. exact Hbig. }
    pose proof (of_Q_overflow _ Hq) as Hof.
    destruct (of_Q (inject_Z days / inject_Z ann)) as [r| | |]; try reflexivity.
    exfalso. apply (Hof r). reflexivity.
  - intros Hann Hsmall Hneg Htiny. unfold calculate_expected_move, int_truediv.
    destruct (Z.eqb_spec ann 0) as [E|_]; [contradiction|].
    assert (Hq : Qabs (inject_Z days / inject_Z ann) <= pow2 1023).
    { rewrite (quotient_abs days ann Hann), P1023.
      apply Qle_shift_div_r; [apply abs_pos_Q; exact Hann|].
      rewrite <- inject_Z_mult, <- Zle_Qle. exact Hsmall. }
    rewrite (of_Q_fin _ 1023) by (try lia; exact Hq). cbn [bind].
    assert (Hlt : round_fin (inject_Z days / inject_Z ann) < 0).
    { apply round_fin_negative; [apply quotient_sign; assumption|].
      rewrite (quotient_abs days ann Hann), N1074.
      apply Qle_shift_div_l; [apply abs_pos_Q; exact Hann|].
      assert (H74 : 0 < inject_Z (2 ^ 1074)) by reflexivity.
      rewrite Qmult_comm. apply (Qle_shift_div_r _ _ _ H74).
      rewrite Qmult_comm, <- inject_Z_mult, <- Zle_Qle. exact Htiny. }
    unfold math_sqrt. apply Qltb_lt in Hlt. rewrite Hlt. reflexivity.
  - intros Hann Hsmall Hnn. unfold calculate_expected_move, int_truediv.
    destruct (Z.eqb_spec ann 0) as [E|_]; [contradiction|].
    assert (Hq : Qabs (inject_Z days / inject_Z ann) <= pow2 1023).
    { rewrite (quotient_abs days ann Hann), P1023.
      apply Qle_shift_div_r; [apply abs_pos_Q; exact Hann|].
      rewrite <- inject_Z_mult, <- Zle_Qle. exact Hsmall. }
    rewrite (of_Q_fin _ 1023) by (try lia; exact Hq). cbn [bind].
    assert (Hge : 0 <= round_fin (inject_Z days / inject_Z ann)).
    { apply round_fin_nonneg.
      destruct (Qlt_le_dec (inject_Z days / inject_Z ann) 0) as [H|H]; [|exact H].
      apply (quotient_sign days ann Hann) in H. lia. }
    unfold math_sqrt, Qltb.
    assert (E : Qle_bool 0 (round_fin (inject_Z days / inject_Z ann)) = true)
      by (apply Qle_bool_iff; exact Hge).
    rewrite E. cbn [negb bind]. eexists. reflexivity.
Qed.

(** X7: a zero price is a [ZeroDivisionError], whatever the straddle is.
    For a straddle between 0 and the price, and a price of at most
    [2 ^ 20], the call returns four finite numbers: each is within 0.005
    (and a rounding error below [10 ^ -9]) of what it stands for, the
    straddle, [100 * straddle / price], [price - straddle] and
    [price + straddle]. *)
Theorem straddle_move (straddle_price underlying_price : float) :
  (underlying_price = Fin 0 ->
   calculate_expected_move_from_straddle straddle_price underlying_price
   = Raise ZeroDivisionError)
  /\ (forall s p,
        straddle_price = Fin s -> underlying_price = Fin p ->
        0 <= s <= p -> 0 < p <= 1048576 ->
        exists m pct lo hi,
          calculate_expected_move_from_straddle straddle_price underlying_price
          = Ok (Fin m, Fin pct, (Fin lo, Fin hi))
          /\ Qabs (m - s) <= (1 # 200) + (1 # 1000000000)
          /\ Qabs (pct - 100 * (s / p)) <= (1 # 200) + (1 # 1000000000)
          /\ Qabs (lo - (p - s)) <= (1 # 200) + (1 # 1000000000)
          /\ Qabs (hi - (p + s)) <= (1 # 200) + (1 # 1000000000)).
Proof.
  split.
  - intros ->. unfold calculate_expected_move_from_straddle.
    destruct straddle_price; reflexivity.
  - intros s p -> -> [Hs1 Hs2] [Hp1 Hp2].
    unfold calculate_expected_move_from_straddle, truediv.
    assert (E0 : Qeq_bool p 0 = false).
    { destruct (Qeq_bool p 0) eqn:E; [|reflexivity]. apply Qeq_bool_iff in E. lra. }
    rewrite E0. cbn [bind].
    assert (P0 : pow2 0 == 1) by reflexivity.
    assert (P7 : pow2 7 == 128) by reflexivity.
    assert (P21 : pow2 21 == 2097152) by reflexivity.
    assert (P22 : pow2 22 == 4194304) by reflexivity.
    assert (P53 : pow2 (-53) == 1 # 9007199254740992) by reflexivity.
    assert (P46 : pow2 (-46) == 1 # 70368744177664) by reflexivity.
    assert (P32 : pow2 (-32) == 1 # 4294967296) by reflexivity.
    assert (P31 : pow2 (-31) == 1 # 2147483648) by reflexivity.
    assert (H100 : (1 # 2) / inject_Z (pow10 2) == 1 # 200) by reflexivity.
    remember (s / p) as q eqn:Eq.
    assert (Hq : 0 <= q <= 1).
    { rewrite Eq. split.
      - apply Qle_shift_div_l; [exact Hp1 | lra].
      - apply Qle_shift_div_r; [exact Hp1 | lra]. }
    destruct Hq as [Hq1 Hq2].
    (* the percentage *)
    destruct (of_Q_near q 0 ltac:(lia)) as [r1 [E1 B1]].
    { rewrite P0. apply Qabs_Qle_condition. split; lra. }
    change (0 - 53)%Z with (-53)%Z in B1. rewrite P53 in B1.
    apply Qabs_diff_Qle_condition in B1. destruct B1 as [B1a B1b].
    rewrite E1.
    destruct (mul_near r1 100 7 ltac:(lia)) as [r2 [E2 B2]].
    { rewrite P7. apply Qabs_Qle_condition. split; lra. }
    change (7 - 53)%Z with (-46)%Z in B2. rewrite P46 in B2.
    apply Qabs_diff_Qle_condition in B2. destruct B2 as [B2a B2b].
    rewrite E2.
    destruct (py_round_near r2 2 7 ltac:(lia)) as [pct [E3 B3]].
    { rewrite P7. assert (Ha : Qabs r2 <= 101) by (apply Qabs_Qle_condition; split; lra). lra. }
    change (7 - 53)%Z with (-46)%Z in B3. rewrite P46, H100 in B3.
    apply Qabs_diff_Qle_condition in B3. destruct B3 as [B3a B3b].
    rewrite E3.
    (* the move *)
    destruct (py_round_near s 2 21 ltac:(lia)) as [m [E4 B4]].
    { rewrite P21. assert (Ha : Qabs s <= 1048576) by (apply Qabs_Qle_condition; split; lra). lra. }
    change (21 - 53)%Z with (-32)%Z in B4. rewrite P32, H100 in B4.
    apply Qabs_diff_Qle_condition in B4. destruct B4 as [B4a B4b].
    rewrite E4.
    (* the bounds *)
    destruct (sub_near p s 21 ltac:(lia)) as [d [E5 B5]].
    { rewrite P21. apply Qabs_Qle_condition. split; lra. }
    change (21 - 53)%Z with (-32)%Z in B5. rewrite P32 in B5.
    apply Qabs_diff_Qle_condition in B5. destruct B5 as [B5a B5b].
    rewrite E5.
    destruct (py_round_near d 2 21 ltac:(lia)) as [lo [E6 B6]].
    { rewrite P21. assert (Ha : Qabs d <= 1048577) by (apply Qabs_Qle_condition; split; lra). lra. }
    change (21 - 53)%Z with (-32)%Z in B6. rewrite P32, H100 in B6.
    apply Qabs_diff_Qle_condition in B6. destruct B6 as [B6a B6b].
    rewrite E6.
    destruct (add_near p s 22 ltac:(lia)) as [u [E7 B7]].
    { rewrite P22. apply Qabs_Qle_condition. split; lra. }
    change (22 - 53)%Z with (-31)%Z in B7. rewrite P31 in B7.
    apply Qabs_diff_Qle_condition in B7. destruct B7 as [B7a B7b].
    rewrite E7.
    destruct (py_round_near u 2 22 ltac:(lia)) as [hi [E8 B8]].
    { rewrite P22. assert (Ha : Qabs u <= 2097153) by (apply Qabs_Qle_condition; split; lra). lra. }
    change (22 - 53)%Z with (-31)%Z in B8. rewrite P31, H100 in B8.
    apply Qabs_diff_Qle_condition in B8. destruct B8 as [B8a B8b].
    rewrite E8.
    exists m, pct, lo, hi. split; [reflexivity|].
    split; [apply Qabs_diff_Qle_condition; split; lra|].
    split; [apply Qabs_diff_Qle_condition; split; lra|].
    split; apply Qabs_diff_Qle_condition; split; lra.
Qed.

(** The example of the docstring, and a percentage at a tie of the exact
    quotient: 23 over 160 is 14.375 and is reported as 14.37. *)
Example straddle_examples :
  calculate_expected_move_from_straddle (of_Q (85 # 10)) (Fin 100)
  = Ok (of_Q (85 # 10), of_Q (85 # 10), (of_Q (915 # 10), of_Q (1085 # 10)))
  /\ calculate_expected_move_from_straddle (Fin 23) (Fin 160)
     = Ok (Fin 23, of_Q (1437 # 100), (Fin 137, Fin 183)).
Proof. split; reflexivity. Qed.

End IvAnalytics64More.

(* ================================================================== *)
(** ** ATM IV and the term structure *)

Module AtmIvProps.

Import IvAnalytics IvAnalyticsViews NumFacts CatalystScreenerProps.
Local Open Scope Q_scope.

Lemma idxmin_spec {A : Type} (key : A -> Q) (l : list A) :
  match idxmin key l with
  | Some x => In x l /\ forall y, In y l -> key x <= key y
  | None => l = []
  end.
Proof.
  induction l as [|a l IH]; simpl; [reflexivity|].
  destruct (idxmin key l) as [m|].
  - destruct IH as [Hin Hmin].
    destruct (Qle_bool (key a) (key m)) eqn:E.
    + apply Qle_bool_iff in E. split; [left; reflexivity|].
      intros y [<-|Hy]; [apply Qle_refl|].
      eapply Qle_trans; [exact E | apply Hmin; exact Hy].
    + assert (Hlt : key m < key a).
      { apply Qnot_le_lt. intros H. apply Qle_bool_iff in H. congruence. }
      split; [right; exact Hin|].
      intros y [<-|Hy]; [apply Qlt_le_weak; exact Hlt | apply Hmin; exact Hy].
  - subst l. split; [left; reflexivity|].
    intros y [<-|[]]. apply Qle_refl.
Qed.

(** Restricting to an expiration is the same as handing over the rows of
    that expiration; an empty expiration text restricts nothing. *)
Lemma get_atm_iv_restrict (df : DataFrame) (price : Q) (e : string) :
  get_atm_iv df price (Some e)
  = if String.eqb e EmptyString then get_atm_iv df price None
    else get_atm_iv (rows_of_expiration e df) price None.
Proof.
  unfold get_atm_iv, rows_of_expiration, expiration_text.
  destruct (String.eqb e EmptyString); cbn [negb]; [reflexivity|].
  destruct df as [|r0 df0]; [reflexivity|].
  cbn [Chain.empty].
  destruct (filter _ (r0 :: df0)) as [|r1 rows]; reflexivity.
Qed.

Lemma first_iv_in (rows : DataFrame) (v : Q) :
  In v (first_iv rows) -> exists r, In r rows /\ implied_volatility r = v.
Proof.
  destruct rows as [|r rows]; simpl; [intros []|].
  intros [<-|[]]. exists r. split; [left; reflexivity | reflexivity].
Qed.

Lemma get_atm_iv_cases (df : DataFrame) (price : Q) :
  (get_atm_iv df price None = None <-> df = [])
  /\ (forall iv, get_atm_iv df price None = Some iv ->
      exists r1 r2,
        In r1 df /\ In r2 df /\ strike r1 == strike r2
        /\ (forall r, In r df -> strike_gap price r1 <= strike_gap price r)
        /\ iv == (implied_volatility r1 + implied_volatility r2) / 2).
Proof.
  unfold get_atm_iv.
  destruct df as [|r0 df0] eqn:Edf.
  { split; [split; reflexivity | discriminate]. }
  rewrite <- Edf. cbn [Chain.empty].
  replace (Chain.empty df) with false by (rewrite Edf; reflexivity).
  pose proof (idxmin_spec (fun r => Qabs (strike r - price)) df) as Hmin.
  destruct (idxmin (fun r => Qabs (strike r - price)) df) as [atm|];
    [|rewrite Edf in Hmin; discriminate].
  destruct Hmin as [Hatm Hleast].
  set (atm_options := filter (fun r => Qeq_bool (strike r) (strike atm)) df).
  assert (Hopt : forall r, In r atm_options -> In r df /\ strike r == strike atm).
  { intros r Hr. apply filter_In in Hr. destruct Hr as [Hr E].
    split; [exact Hr | apply Qeq_bool_iff; exact E]. }
  assert (Hatm_in : In atm atm_options).
  { apply filter_In. split; [exact Hatm | apply Qeq_bool_iff; reflexivity]. }
  assert (Hnear : forall r1, In r1 atm_options ->
                  forall r, In r df -> strike_gap price r1 <= strike_gap price r).
  { intros r1 H1 r Hr. unfold strike_gap. destruct (Hopt r1 H1) as [_ E].
    rewrite E. apply (Hleast r Hr). }
  set (calls := filter (fun r => String.eqb (Chain.option_type r) "call") atm_options).
  set (puts := filter (fun r => String.eqb (Chain.option_type r) "put") atm_options).
  assert (Hc : forall r, In r calls -> In r atm_options)
    by (intros r Hr; apply filter_In in Hr; tauto).
  assert (Hp : forall r, In r puts -> In r atm_options)
    by (intros r Hr; apply filter_In in Hr; tauto).
  split.
  { split; [|intros E; rewrite E in Edf; discriminate].
    destruct (first_iv calls ++ first_iv puts)%list; [|discriminate].
    destruct atm_options; [destruct Hatm_in | discriminate]. }
  intros iv H.
  destruct calls as [|c calls']; destruct puts as [|q puts']; cbn [first_iv app] in H.
  - destruct atm_options as [|r rows] eqn:Eo; [destruct Hatm_in|].
    injection H as <-.
    assert (Hr : In r (r :: rows)) by (left; reflexivity).
    exists r, r. destruct (Hopt r Hr) as [Hin _].
    split; [exact Hin|]. split; [exact Hin|]. split; [reflexivity|].
    split; [apply Hnear; exact Hr|]. field.
  - injection H as <-.
    assert (Hq : In q atm_options) by (apply Hp; left; reflexivity).
    exists q, q. destruct (Hopt q Hq) as [Hin _].
    split; [exact Hin|]. split; [exact Hin|]. split; [reflexivity|].
    split; [apply Hnear; exact Hq|]. simpl. field.
  - injection H as <-.
    assert (Hq : In c atm_options) by (apply Hc; left; reflexivity).
    exists c, c. destruct (Hopt c Hq) as [Hin _].
    split; [exact Hin|]. split; [exact Hin|]. split; [reflexivity|].
    split; [apply Hnear; exact Hq|]. simpl. field.
  - injection H as <-.
    assert (Hcc : In c atm_options) by (apply Hc; left; reflexivity).
    assert (Hqq : In q atm_options) by (apply Hp; left; reflexivity).
    exists c, q. destruct (Hopt c Hcc) as [Hin1 E1]. destruct (Hopt q Hqq) as [Hin2 E2].
    split; [exact Hin1|]. split; [exact Hin2|]. split; [rewrite E1, E2; reflexivity|].
    split; [apply Hnear; exact Hcc|]. simpl. field.
Qed.

(** X8: on a non-empty chain the ATM IV is always found; it is read at the
    strike nearest to the price: it is the IV of a row at that strike, or
    the mean of the IV of a call and of a put at that strike. *)
Theorem get_atm_iv_nearest_strike (df : DataFrame) (price : Q) :
  (get_atm_iv df price None = None <-> df = [])
  /\ (forall iv, get_atm_iv df price None = Some iv ->
      exists r1 r2,
        In r1 df /\ In r2 df /\ strike r1 == strike r2
        /\ (forall r, In r df -> strike_gap price r1 <= strike_gap price r)
        /\ iv == (implied_volatility r1 + implied_volatility r2) / 2).
Proof. exact (get_atm_iv_cases df price). Qed.


Lemma pyval_eqb_eq (a b : pyval) : pyval_eqb a b = true <-> a = b.
Proof.
  destruct a as [s|d|], b as [t|e|]; simpl; split; intros H;
    try discriminate; try reflexivity.
  - apply String.eqb_eq in H. subst. reflexivity.
  - injection H as ->. apply String.eqb_refl.
  - apply Z.eqb_eq in H. subst. reflexivity.
  - injection H as ->. apply Z.eqb_refl.
Qed.

Lemma unique_in (l : list pyval) (x : pyval) : In x (unique l) <-> In x l.
Proof.
  induction l as [|y l IH]; simpl; [tauto|].
  rewrite filter_In, IH. split.
  - intros [H|[H _]]; [left; exact H | right; exact H].
  - intros [H|H]; [left; exact H|].
    destruct (pyval_eqb y x) eqn:E.
    + left. apply pyval_eqb_eq. exact E.
    + right. split; [exact H | reflexivity].
Qed.

(** X9: the term structure is in ascending order of the expiration text;
    each of its lines stands for an expiration of the chain, written as
    the first ten characters of its text, for which an ATM IV is found;
    and every expiration of the chain has its line. *)
Theorem iv_term_structure_lines (df : DataFrame) (price : Q) :
  StronglySorted (fun a b : TermPoint => String.leb (fst a) (fst b) = true)
                 (iv_term_structure df price)
  /\ (forall e v, In (e, v) (iv_term_structure df price) ->
      (exists r, In r df /\ e = expiration_text r)
      /\ get_atm_iv df price (Some e) <> None)
  /\ (forall r, In r df ->
      exists v, In (expiration_text r, v) (iv_term_structure df price)).
Proof.
  unfold iv_term_structure.
  destruct df as [|r0 df0] eqn:Edf.
  { split; [constructor|]. split; [intros ? ? [] | intros ? []]. }
  rewrite <- Edf. replace (Chain.empty df) with false by (rewrite Edf; reflexivity).
  split; [apply PySortMore.sort_by_text_sorted|]. split.
  - intros e v H. apply (proj1 (PySortMore.sort_by_text_in _ _ _)) in H.
    apply in_flat_map in H. destruct H as [cell [Hcell H]].
    apply (proj1 (unique_in _ _)) in Hcell. apply in_map_iff in Hcell.
    destruct Hcell as [r [Er Hr]]. subst cell.
    fold (expiration_text r) in H.
    destruct (get_atm_iv df price (Some (expiration_text r))) as [iv|] eqn:E;
      [|destruct H].
    destruct H as [H|[]]. injection H as <- <-.
    split; [exists r; split; [exact Hr | reflexivity]|].
    rewrite E. discriminate.
  - intros r Hr.
    destruct (get_atm_iv df price (Some (expiration_text r))) as [iv|] eqn:E.
    + exists (normalized_atm_iv iv). apply PySortMore.sort_by_text_in.
      apply in_flat_map. exists (expiration r). split.
      * apply unique_in. apply in_map. exact Hr.
      * fold (expiration_text r). rewrite E. left. reflexivity.
    + exfalso. rewrite get_atm_iv_restrict in E.
      destruct (String.eqb (expiration_text r) EmptyString) eqn:Ee.
      * apply (proj1 (get_atm_iv_cases df price)) in E.
        rewrite E in Hr. destruct Hr.
      * apply (proj1 (get_atm_iv_cases _ price)) in E.
        assert (Hin : In r (rows_of_expiration (expiration_text r) df)).
        { apply filter_In. split; [exact Hr | apply String.eqb_refl]. }
        rewrite E in Hin. destruct Hin.
Qed.

End AtmIvProps.

(* ================================================================== *)
(** ** The two date windows *)

Module WindowProps.

Import CatalystScreener CatalystScreenerSpec CatalystScreenerViews CatalystScreenerProps.
Local Open Scope Z_scope.

Lemma proximity_loop (cd db da : Z) (l acc : list pyval) :
  for_each (proximity_body cd db da) l acc
  = Ok (acc ++ filter (within cd (- db) da) l).
Proof.
  revert acc. induction l as [|x l IH]; intros acc; simpl.
  - rewrite app_nil_r. reflexivity.
  - rewrite proximity_body_eq. cbn [bind]. rewrite IH. unfold within at 2.
    destruct (element_date x) as [d|]; [|reflexivity].
    destruct ((- db <=? days_between d cd) && (days_between d cd <=? da));
      [rewrite <- app_assoc|]; reflexivity.
Qed.

Lemma filter_by_catalyst_proximity_eq
    (exps : list pyval) (cd : date) (db da : Z) :
  filter_by_catalyst_proximity exps cd db da
  = Ok (filter (within cd (- db) da) exps).
Proof. unfold filter_by_catalyst_proximity. apply proximity_loop. Qed.

(** X10: the window filter is a plain filter: it keeps, in their order,
    exactly the elements that are a text parsing to a date between
    [days_before] days before and [days_after] days after the catalyst,
    both ends included; anything else in the list is skipped and nothing
    makes the call fail. *)
Theorem filter_by_catalyst_proximity_is_filter
    (exps : list pyval) (cd : date) (db da : Z) :
  filter_by_catalyst_proximity exps cd db da
  = Ok (filter (within cd (- db) da) exps).
Proof. exact (filter_by_catalyst_proximity_eq exps cd db da). Qed.

Lemma within_widen (cd lo hi lo' hi' : Z) (x : pyval) :
  lo' <= lo -> hi <= hi' -> within cd lo hi x = true -> within cd lo' hi' x = true.
Proof.
  unfold within. intros H1 H2. destruct (element_date x) as [d|]; [|discriminate].
  rewrite !andb_true_iff, !Z.leb_le. lia.
Qed.

(** X11: A wider window never loses an expiration. *)
Theorem filter_by_catalyst_proximity_widens
    (exps : list pyval) (cd : date) (db da db' da' : Z) (out out' : list pyval)
    (Hb : db <= db') (Ha : da <= da')
    (H : filter_by_catalyst_proximity exps cd db da = Ok out)
    (H' : filter_by_catalyst_proximity exps cd db' da' = Ok out') :
  forall e, In e out -> In e out'.
Proof.
  rewrite filter_by_catalyst_proximity_eq in H, H'.
  injection H as <-. injection H' as <-.
  intros e He. apply filter_In in He. destruct He as [He Hw].
  apply filter_In. split; [exact He|].
  apply (within_widen cd (- db) da); [lia | lia | exact Hw].
Qed.

Lemma filter_by_catalyst_proximity_widens_witness :
  In (PStr "2024-01-26")
     [PStr "2024-01-19"; PStr "2024-01-26"; PStr "2024-02-02"].
Proof.
  exact (filter_by_catalyst_proximity_widens
           [PStr "2024-01-19"; PStr "2024-01-26"; PStr "2024-02-02"; PStr "soon"]
           738910 7 3 10 14
           [PStr "2024-01-19"; PStr "2024-01-26"]
           [PStr "2024-01-19"; PStr "2024-01-26"; PStr "2024-02-02"]
           ltac:(lia) ltac:(lia) eq_refl eq_refl
           (PStr "2024-01-26") (or_intror (or_introl eq_refl))).
Defined.

(** *** The nearest expiration after the catalyst *)

Lemma nearest_loop (cd mn mx : Z) (l : list pyval) (acc : list (pyval * Z)) :
  for_each (nearest_body cd mn mx) l acc
  = Ok (acc ++ map (fun x => (x, days_after cd x)) (filter (within cd mn mx) l)).
Proof.
  revert acc. induction l as [|x l IH]; intros acc; simpl.
  - rewrite app_nil_r. reflexivity.
  - rewrite nearest_body_eq. cbn [bind]. rewrite IH.
    assert (W : within cd mn mx x
                = match element_date x with
                  | Some d => (mn <=? days_between d cd) && (days_between d cd <=? mx)
                  | None => false
                  end) by reflexivity.
    rewrite W.
    destruct (element_date x) as [d|] eqn:E; [|reflexivity].
    destruct ((mn <=? days_between d cd) && (days_between d cd <=? mx)); [|reflexivity].
    cbn [map]. rewrite <- app_assoc. cbn [app].
    unfold days_after at 2. rewrite E. reflexivity.
Qed.

(** The head of the stable sort is the first element with the least key. *)
Lemma sort_by_key_head {A : Type} (key : A -> Z) (l : list A) (x : A) (t : list A) :
  PySort.sort_by_key key l = x :: t ->
  exists l1 l2, l = l1 ++ x :: l2
                /\ (forall y, In y l1 -> key x < key y)
                /\ (forall y, In y l2 -> key x <= key y).
Proof.
  unfold PySort.sort_by_key, PySort.sort.
  revert x t. induction l as [|a l IH]; intros x t H; simpl in H; [discriminate|].
  destruct (fold_right (PySort.insert (fun a b => key a <=? key b)) [] l) as [|m s] eqn:Es.
  - simpl in H. injection H as <- <-.
    assert (El : l = []).
    { apply (PySortProps.sort_by_key_nil key). exact Es. }
    subst l. exists [], []. split; [reflexivity|]. split; intros y [].
  - simpl in H. destruct (IH m s eq_refl) as [l1 [l2 [El [H1 H2]]]].
    destruct (Z.leb_spec (key a) (key m)) as [Hle|Hgt].
    + injection H as <- <-. exists [], l. split; [reflexivity|].
      split; [intros y []|]. intros y Hy. subst l.
      apply in_app_or in Hy. destruct Hy as [Hy|[<-|Hy]].
      * specialize (H1 y Hy). lia.
      * exact Hle.
      * specialize (H2 y Hy). lia.
    + injection H as <- <-. exists (a :: l1), l2. split; [rewrite El; reflexivity|].
      split; [|exact H2]. intros y [<-|Hy]; [exact Hgt | apply H1; exact Hy].
Qed.

Lemma filter_split {A : Type} (f : A -> bool) (l : list A) (a b : list A) (x : A) :
  filter f l = a ++ x :: b ->
  exists l1 l2, l = l1 ++ x :: l2 /\ filter f l1 = a /\ filter f l2 = b.
Proof.
  revert a. induction l as [|y l IH]; intros a H; simpl in H.
  - destruct a; discriminate.
  - destruct (f y) eqn:E.
    + destruct a as [|a0 a]; simpl in H; injection H as -> H.
      * exists [], l. split; [reflexivity|]. split; [reflexivity | exact H].
      * destruct (IH a H) as [l1 [l2 [-> [H1 H2]]]].
        exists (a0 :: l1), l2. split; [reflexivity|].
        split; [simpl; rewrite E, H1; reflexivity | exact H2].
    + destruct (IH a H) as [l1 [l2 [-> [H1 H2]]]].
      exists (y :: l1), l2. split; [reflexivity|].
      split; [simpl; rewrite E; exact H1 | exact H2].
Qed.

Lemma map_split {A B : Type} (f : A -> B) (l : list A) (a b : list B) (y : B) :
  map f l = a ++ y :: b ->
  exists l1 x l2, l = l1 ++ x :: l2 /\ map f l1 = a /\ f x = y /\ map f l2 = b.
Proof.
  revert a. induction l as [|z l IH]; intros a H; simpl in H.
  - destruct a; discriminate.
  - destruct a as [|a0 a]; simpl in H; injection H as H0 H.
    + exists [], z, l. repeat split; assumption.
    + destruct (IH a H) as [l1 [x [l2 [-> [H1 [H2 H3]]]]]].
      exists (z :: l1), x, l2. repeat split; try assumption.
      simpl. rewrite H0, H1. reflexivity.
Qed.

Lemma within_days (cd lo hi : Z) (x : pyval) :
  within cd lo hi x = true <->
  exists d, element_date x = Some d /\ lo <= days_between d cd <= hi.
Proof.
  unfold within. destruct (element_date x) as [d|].
  - rewrite andb_true_iff, !Z.leb_le. split.
    + intros H. exists d. split; [reflexivity | lia].
    + intros [d' [E H]]. injection E as <-. lia.
  - split; [discriminate | intros [d [E _]]; discriminate].
Qed.

Lemma find_nearest_cases
    (exps : list pyval) (cd : date) (mn mx : Z) :
  (find_nearest_post_catalyst_expiration exps cd mn mx = Ok None
   <-> forall e, In e exps -> within cd mn mx e = false)
  /\ (forall e,
        find_nearest_post_catalyst_expiration exps cd mn mx = Ok (Some e) ->
        within cd mn mx e = true
        /\ exists l1 l2,
             exps = l1 ++ e :: l2
             /\ (forall y, In y l1 -> within cd mn mx y = true ->
                           days_after cd e < days_after cd y)
             /\ (forall y, In y l2 -> within cd mn mx y = true ->
                           days_after cd e <= days_after cd y)).
Proof.
  unfold find_nearest_post_catalyst_expiration.
  rewrite nearest_loop. cbn [bind app].
  set (valid := map (fun x => (x, days_after cd x)) (filter (within cd mn mx) exps)).
  split.
  - split.
    + intros H e He.
      destruct (PySort.sort_by_key snd valid) as [|[e0 k] t] eqn:Es; [|discriminate].
      apply PySortProps.sort_by_key_nil in Es. unfold valid in Es.
      apply map_eq_nil in Es.
      destruct (within cd mn mx e) eqn:W; [|reflexivity].
      assert (Hin : In e (filter (within cd mn mx) exps))
        by (apply filter_In; split; assumption).
      rewrite Es in Hin. destruct Hin.
    + intros H.
      assert (Ef : filter (within cd mn mx) exps = []).
      { destruct (filter (within cd mn mx) exps) as [|x l] eqn:E; [reflexivity|].
        assert (Hin : In x (filter (within cd mn mx) exps)) by (rewrite E; left; reflexivity).
        apply filter_In in Hin. destruct Hin as [Hin W]. rewrite (H x Hin) in W. discriminate. }
      unfold valid. rewrite Ef. reflexivity.
  - intros e H.
    destruct (PySort.sort_by_key snd valid) as [|[e0 k] t] eqn:Es; [discriminate|].
    injection H as ->.
    destruct (sort_by_key_head snd valid (e, k) t Es) as [v1 [v2 [Ev [H1 H2]]]].
    unfold valid in Ev.
    destruct (map_split _ _ _ _ _ Ev) as [f1 [x [f2 [Ef [Ev1 [Ex Ev2]]]]]].
    injection Ex as -> <-.
    destruct (filter_split _ _ _ _ _ Ef) as [l1 [l2 [El [Ef1 Ef2]]]].
    assert (We : within cd mn mx e = true).
    { assert (Hin : In e (filter (within cd mn mx) exps))
        by (rewrite Ef; apply in_or_app; right; left; reflexivity).
      apply filter_In in Hin. tauto. }
    split; [exact We|].
    exists l1, l2. split; [exact El|]. split.
    + intros y Hy Wy.
      assert (Hin : In (y, days_after cd y) v1).
      { rewrite <- Ev1. apply (in_map (fun x => (x, days_after cd x))).
        rewrite <- Ef1. apply filter_In. split; assumption. }
      apply (H1 _ Hin).
    + intros y Hy Wy.
      assert (Hin : In (y, days_after cd y) v2).
      { rewrite <- Ev2. apply (in_map (fun x => (x, days_after cd x))).
        rewrite <- Ef2. apply filter_In. split; assumption. }
      apply (H2 _ Hin).
Qed.

(** X12: [find_nearest_post_catalyst_expiration] finds nothing exactly when
    no element lies in the window; what it finds is the first element of
    the list, in list order, among those in the window at the least
    distance from the catalyst. *)
Theorem find_nearest_is_first_minimum
    (exps : list pyval) (cd : date) (mn mx : Z) :
  (find_nearest_post_catalyst_expiration exps cd mn mx = Ok None
   <-> forall e, In e exps -> within cd mn mx e = false)
  /\ (forall e,
        find_nearest_post_catalyst_expiration exps cd mn mx = Ok (Some e) ->
        within cd mn mx e = true
        /\ exists l1 l2,
             exps = l1 ++ e :: l2
             /\ (forall y, In y l1 -> within cd mn mx y = true ->
                           days_after cd e < days_after cd y)
             /\ (forall y, In y l2 -> within cd mn mx y = true ->
                           days_after cd e <= days_after cd y)).
Proof. exact (find_nearest_cases exps cd mn mx). Qed.


(** X13: the two window functions agree with each other: a nearest expiration
    that also lies in the window of the filter is among the filtered ones,
    and a filtered expiration that lies in the window of the search means
    that the search finds one. *)
Theorem nearest_and_filter_agree
    (exps : list pyval) (cd : date) (db da mn mx : Z) (out : list pyval)
    (H : filter_by_catalyst_proximity exps cd db da = Ok out) :
  (forall e, find_nearest_post_catalyst_expiration exps cd mn mx = Ok (Some e) ->
             within cd (- db) da e = true -> In e out)
  /\ (forall e, In e out -> within cd mn mx e = true ->
                exists e', find_nearest_post_catalyst_expiration exps cd mn mx
                           = Ok (Some e')
                           /\ days_after cd e' <= days_after cd e).
Proof.
  rewrite filter_by_catalyst_proximity_eq in H. injection H as <-.
  destruct (find_nearest_cases exps cd mn mx) as [Hnone Hsome].
  split.
  - intros e He W. destruct (Hsome e He) as [_ [l1 [l2 [El _]]]].
    apply filter_In. split; [|exact W]. rewrite El. apply in_or_app. right. left. reflexivity.
  - intros e He W. apply filter_In in He. destruct He as [He _].
    destruct (find_nearest_post_catalyst_expiration_returns exps cd mn mx) as [[e'|] E].
    + exists e'. split; [exact E|].
      destruct (Hsome e' E) as [_ [l1 [l2 [El [H1 H2]]]]].
      rewrite El in He. apply in_app_or in He. destruct He as [He|[<-|He]].
      * specialize (H1 e He W). lia.
      * lia.
      * apply (H2 e He W).
    + exfalso. rewrite (proj1 Hnone E e He) in W. discriminate.
Qed.

Lemma nearest_and_filter_agree_witness :
  In (PStr "2024-01-26") [PStr "2024-01-26"].
Proof.
  exact (proj1 (nearest_and_filter_agree
                  [PStr "2024-01-19"; PStr "2024-01-26"; PStr "2024-02-02"]
                  738910 5 7 1 14 [PStr "2024-01-26"] eq_refl)
               (PStr "2024-01-26") eq_refl eq_refl).
Defined.

End WindowProps.

(* ================================================================== *)
(** ** The screen as a function of its filters *)

Module ScreenMore.

Import CatalystScreener CatalystScreenerSpec Samples NumFacts CatalystScreenerProps.
Local Open Scope Z_scope.

Lemma filter_all {A : Type} (f : A -> bool) (l : list A) :
  (forall x, In x l -> f x = true) -> filter f l = l.
Proof.
  induction l as [|x l IH]; intros H; simpl; [reflexivity|].
  rewrite (H x (or_introl eq_refl)). f_equal. apply IH.
  intros y Hy. apply H. right. exact Hy.
Qed.

Lemma filter_filter_same {A : Type} (f : A -> bool) (l : list A) :
  filter f (filter f l) = filter f l.
Proof. apply filter_all. intros x Hx. apply filter_In in Hx. tauto. Qed.

Lemma filter_comm {A : Type} (f g : A -> bool) (l : list A) :
  filter f (filter g l) = filter g (filter f l).
Proof.
  induction l as [|x l IH]; simpl; [reflexivity|].
  destruct (f x) eqn:Ef, (g x) eqn:Eg; simpl; rewrite ?Ef, ?Eg, IH; reflexivity.
Qed.

(** Rows that all carry one and the same date after the earnings date pass
    the first step untouched. *)
Lemma first_expiration_rows_fixed (l : DataFrame) (ed d0 : date) :
  ed < d0 -> (forall r, In r l -> parse_exp_value (expiration r) = Some d0) ->
  first_expiration_rows l ed = l.
Proof.
  intros Hlt Hall.
  assert (Ea : after_earnings l ed = dated l).
  { unfold after_earnings. apply filter_all. intros [r c] H.
    unfold dated in H. apply in_map_iff in H. destruct H as [r' [E Hr]].
    injection E as -> <-. simpl. rewrite (Hall r Hr). simpl. apply Z.ltb_lt. exact Hlt. }
  unfold first_expiration_rows. rewrite Ea.
  assert (Em : map fst (dated l) = l).
  { unfold dated. rewrite map_map. simpl. apply map_id. }
  destruct (col_min (map snd (dated l))) as [m|] eqn:Ec; [|exact Em].
  pose proof (col_min_spec (map snd (dated l))) as Hs. rewrite Ec in Hs.
  destruct Hs as [Hin _]. apply in_map_iff in Hin. destruct Hin as [[r c] [E Hr]].
  simpl in E. subst c. unfold dated in Hr. apply in_map_iff in Hr.
  destruct Hr as [r' [E Hr]]. injection E as -> E. rewrite (Hall r Hr) in E.
  injection E as <-.
  rewrite filter_all; [exact Em|].
  intros [r1 c1] H1. unfold dated in H1. apply in_map_iff in H1.
  destruct H1 as [r2 [E H2]]. injection E as -> <-. simpl.
  rewrite (Hall r1 H2). simpl. apply Z.eqb_refl.
Qed.

Lemma first_expiration_rows_same_date (df : DataFrame) (ed : date) :
  first_expiration_rows df ed = []
  \/ exists d0, ed < d0
       /\ forall r, In r (first_expiration_rows df ed) ->
                    parse_exp_value (expiration r) = Some d0.
Proof.
  destruct (first_expiration_rows df ed) as [|r0 rows] eqn:E; [left; reflexivity|].
  right. rewrite <- E.
  assert (H0 : In r0 (first_expiration_rows df ed)) by (rewrite E; left; reflexivity).
  destruct (first_expiration_rows_spec df ed r0 H0) as [Hin0 [d0 [E0 [Hlt0 Hmin0]]]].
  exists d0. split; [exact Hlt0|].
  intros r Hr.
  destruct (first_expiration_rows_spec df ed r Hr) as [Hin [d [Ed [Hlt Hmin]]]].
  pose proof (Hmin0 r d Hin Ed Hlt). pose proof (Hmin r0 d0 Hin0 E0 Hlt0).
  rewrite Ed. f_equal. lia.
Qed.

Lemma first_expiration_rows_sub (df : DataFrame) (ed : date) (l : DataFrame) :
  (forall r, In r l -> In r (first_expiration_rows df ed)) ->
  first_expiration_rows l ed = l.
Proof.
  intros Hsub.
  destruct (first_expiration_rows_same_date df ed) as [E|[d0 [Hlt Hall]]].
  - destruct l as [|r l]; [reflexivity|].
    specialize (Hsub r (or_introl eq_refl)). rewrite E in Hsub. destruct Hsub.
  - apply (first_expiration_rows_fixed l ed d0 Hlt).
    intros r Hr. apply Hall, Hsub, Hr.
Qed.

Lemma iv_and_type_fixed (min_iv : option Q) (ot : option string) (l0 l : DataFrame) :
  (forall r, In r l -> In r (iv_and_type min_iv ot l0)) ->
  iv_and_type min_iv ot l = l.
Proof.
  intros Hsub. unfold iv_and_type in *.
  destruct min_iv as [m|], ot as [t|].
  - rewrite (filter_all _ l); [apply filter_all|];
      intros r Hr; specialize (Hsub r Hr);
      apply filter_In in Hsub; destruct Hsub as [Hsub Ht];
      apply filter_In in Hsub; tauto.
  - apply filter_all. intros r Hr. specialize (Hsub r Hr).
    apply filter_In in Hsub. tauto.
  - apply filter_all. intros r Hr. specialize (Hsub r Hr).
    apply filter_In in Hsub. tauto.
  - reflexivity.
Qed.

Lemma screened_idempotent df ed price min_iv max_pct ot :
  screened (screened df ed price min_iv max_pct ot) ed price min_iv max_pct ot
  = screened df ed price min_iv max_pct ot.
Proof.
  set (out := screened df ed price min_iv max_pct ot).
  assert (H3 : forall r, In r out ->
                 In r (iv_and_type min_iv ot
                         (near_strikes price max_pct (first_expiration_rows df ed))))
    by (intros r Hr; exact Hr).
  assert (H2 : forall r, In r out ->
                 In r (near_strikes price max_pct (first_expiration_rows df ed))).
  { intros r Hr. apply H3 in Hr. apply in_iv_and_type in Hr. tauto. }
  assert (H1 : forall r, In r out -> In r (first_expiration_rows df ed)).
  { intros r Hr. apply H2 in Hr. unfold near_strikes in Hr. apply filter_In in Hr. tauto. }
  unfold screened at 1.
  rewrite (first_expiration_rows_sub df ed out H1).
  assert (E2 : near_strikes price max_pct out = out).
  { unfold near_strikes. apply filter_all. intros r Hr.
    apply H2 in Hr. unfold near_strikes in Hr. apply filter_In in Hr. tauto. }
  rewrite E2. apply (iv_and_type_fixed min_iv ot _ out H3).
Qed.

(** X14: screening is idempotent: the screen of a screened chain, with the same
    arguments, is that chain. *)
Theorem screen_idempotent
    (df : DataFrame) (ed : date) (price : Q) (min_iv : option Q) (max_pct : Q)
    (ot : option string) (out : DataFrame)
    (H : screen_options_before_earnings df ed price min_iv max_pct ot = Ok out) :
  screen_options_before_earnings out ed price min_iv max_pct ot = Ok out.
Proof.
  rewrite screen_options_before_earnings_eq in H. injection H as <-.
  rewrite screen_options_before_earnings_eq. f_equal. apply screened_idempotent.
Qed.

Lemma screen_idempotent_witness :
  screen_options_before_earnings
    [mkRow 100 (PStr "2024-01-26") "call" (35 # 100) 10 5] 738910 100
    (Some (3 # 10)%Q) 10 (Some "call"%string)
  = Ok [mkRow 100 (PStr "2024-01-26") "call" (35 # 100) 10 5].
Proof.
  exact (screen_idempotent chain_two_expirations 738910 100 (Some (3 # 10)%Q) 10
           (Some "call"%string)
           [mkRow 100 (PStr "2024-01-26") "call" (35 # 100) 10 5] eq_refl).
Defined.

Lemma Qle_bool_trans (a b c : Q) :
  Qle_bool a b = true -> (b <= c)%Q -> Qle_bool a c = true.
Proof.
  intros H1 H2. apply Qle_bool_iff. apply Qle_bool_iff in H1.
  eapply Qle_trans; eassumption.
Qed.

(** X15: the optional filters only ever remove rows: the screen for one option
    type is the rows of that type in the screen for both types, the screen
    with a minimum IV is the rows reaching it in the screen without one,
    and a tighter strike distance gives a part of the wider screen. *)
Theorem screen_filters_only_remove
    (df : DataFrame) (ed : date) (price : Q) (min_iv : option Q)
    (max_pct : Q) (ot : option string) :
  (forall t,
     screen_options_before_earnings df ed price min_iv max_pct (Some t)
     = (all <- screen_options_before_earnings df ed price min_iv max_pct None ;;
        Ok (filter (fun r => String.eqb (Chain.option_type r) t) all))%py)
  /\ (forall m,
       screen_options_before_earnings df ed price (Some m) max_pct ot
       = (all <- screen_options_before_earnings df ed price None max_pct ot ;;
          Ok (filter (fun r => Qgeb (normalized_iv (implied_volatility r)) m)
                     all))%py)
  /\ (forall wider out out',
       (max_pct <= wider)%Q ->
       screen_options_before_earnings df ed price min_iv max_pct ot = Ok out ->
       screen_options_before_earnings df ed price min_iv wider ot = Ok out' ->
       forall r, In r out -> In r out').
Proof.
  split; [|split].
  - intros t. rewrite !screen_options_before_earnings_eq. cbn [bind].
    unfold screened, iv_and_type. reflexivity.
  - intros m. rewrite !screen_options_before_earnings_eq. cbn [bind].
    unfold screened, iv_and_type. destruct ot as [t|]; [|reflexivity].
    f_equal. apply filter_comm.
  - intros wider out out' Hw H H' r Hr.
    rewrite screen_options_before_earnings_eq in H, H'.
    injection H as <-. injection H' as <-.
    unfold screened in *.
    assert (Hmono : forall l r0, In r0 (near_strikes price max_pct l) ->
                                 In r0 (near_strikes price wider l)).
    { intros l r0 H0. unfold near_strikes in *. apply filter_In in H0.
      destruct H0 as [H0 Hc]. apply filter_In. split; [exact H0|].
      destruct (strike_distance_pct (strike r0) price) as [v|]; simpl in *;
        [apply (Qle_bool_trans _ _ _ Hc Hw) | discriminate]. }
    revert Hr. generalize (Hmono (first_expiration_rows df ed)).
    generalize (near_strikes price max_pct (first_expiration_rows df ed)).
    generalize (near_strikes price wider (first_expiration_rows df ed)).
    intros l' l Hsub. unfold iv_and_type.
    destruct min_iv as [m|], ot as [t|]; rewrite ?filter_In; intuition.
Qed.

End ScreenMore.

(* ================================================================== *)
(** ** Scores, recommendation and IV crush *)

Module ScoreMore.

Import CatalystScreener CatalystScreenerSpec NumFacts RoundingFacts CatalystScreenerProps.
Local Open Scope Z_scope.

Lemma time_score_range (dtc dte : Z) : 0 <= time_score dtc dte <= 100.
Proof.
  unfold time_score.
  destruct (Z.ltb_spec (dte - dtc) 0); [lia|].
  destruct (Z.leb_spec (dte - dtc) 3); [lia|].
  destruct (Z.leb_spec (dte - dtc) 7); lia.
Qed.

Lemma move_score_range (e : Q) : 20 <= move_score e <= 100.
Proof.
  unfold move_score.
  destruct (Qltb e 2); [lia|]. destruct (Qltb e 5); [lia|]. destruct (Qltb e 10); lia.
Qed.

Lemma weighted_score_range (ivr : Q) (ts ms : Z) :
  (0 <= ivr <= 100)%Q -> 0 <= ts <= 100 -> 0 <= ms <= 100 ->
  (0 <= weighted_score ivr ts ms <= 100)%Q.
Proof.
  intros Hi [Ht1 Ht2] [Hm1 Hm2]. unfold weighted_score.
  rewrite Zle_Qle in Ht1, Ht2, Hm1, Hm2.
  set (t := inject_Z ts) in *. set (m := inject_Z ms) in *.
  change (inject_Z 0) with 0%Q in *. change (inject_Z 100) with 100%Q in *.
  lra.
Qed.

(** X16: for an IV rank within [0, 100] every score that [score_catalyst_play]
    reports lies within [0, 100]. *)
Theorem score_components_in_range
    (expected_move_pct iv_rank : Q) (days_to_catalyst days_to_expiration : Z)
    (Hrank : (0 <= iv_rank <= 100)%Q) :
  let s := score_catalyst_play expected_move_pct iv_rank
                               days_to_catalyst days_to_expiration in
  (0 <= composite_score s <= 100)%Q
  /\ (0 <= iv_rank_score s <= 100)%Q
  /\ 0 <= time_alignment_score s <= 100
  /\ 20 <= expected_move_score s <= 100.
Proof.
  cbv zeta. unfold score_catalyst_play.
  cbn [composite_score iv_rank_score time_alignment_score expected_move_score].
  pose proof (time_score_range days_to_catalyst days_to_expiration) as Ht.
  pose proof (move_score_range expected_move_pct) as Hm.
  assert (Hm' : 0 <= move_score expected_move_pct <= 100) by lia.
  assert (Hw := weighted_score_range iv_rank _ _ Hrank Ht Hm').
  assert (R0 : forall n, (py_round 0 n == 0)%Q) by apply py_round_0.
  assert (R100 : forall n, (py_round 100 n == 100)%Q)
    by (intros n; apply (py_round_int 100 n)).
  split; [split; [rewrite <- (R0 1%nat) | rewrite <- (R100 1%nat)];
          apply py_round_le; tauto|].
  split; [split; [rewrite <- (R0 1%nat) | rewrite <- (R100 1%nat)];
          apply py_round_le; tauto|].
  split; assumption.
Qed.

Lemma score_components_in_range_witness :
  (0 <= composite_score (score_catalyst_play 8 85 5 7) <= 100)%Q.
Proof.
  apply (score_components_in_range 8 85 5 7). split; discriminate.
Defined.

Lemma Qgeb_le (a b : Q) : Qgeb a b = true <-> (b <= a)%Q.
Proof. unfold Qgeb. apply Qle_bool_iff. Qed.

(** X17: the recommendation is one of the five texts, chosen on the unrounded
    weighted sum; a strong text goes with a reported composite score of at
    least 80 and the matching side of the IV rank, the poor text with a
    reported score of at most 40, and a reported score below 40 always
    carries the poor text. *)
Theorem recommendation_follows_score
    (expected_move_pct iv_rank : Q) (days_to_catalyst days_to_expiration : Z) :
  let s := score_catalyst_play expected_move_pct iv_rank
                               days_to_catalyst days_to_expiration in
  In (recommendation s) [strong_sell; strong_buy; moderate; weak; poor]
  /\ (recommendation s = strong_sell ->
      (80 <= composite_score s)%Q /\ (70 <= iv_rank)%Q)
  /\ (recommendation s = strong_buy ->
      (80 <= composite_score s)%Q /\ (iv_rank < 30)%Q)
  /\ (recommendation s = poor -> (composite_score s <= 40)%Q)
  /\ ((composite_score s < 40)%Q -> recommendation s = poor).
Proof.
  cbv zeta. unfold score_catalyst_play. cbn [composite_score recommendation].
  set (w := weighted_score iv_rank (time_score days_to_catalyst days_to_expiration)
                           (move_score expected_move_pct)).
  assert (R80 : (py_round 80 1 == 80)%Q) by apply (py_round_int 80 1).
  assert (R40 : (py_round 40 1 == 40)%Q) by apply (py_round_int 40 1).
  unfold _get_recommendation.
  destruct (Qgeb w 80) eqn:E80; cbn [andb].
  - apply Qgeb_le in E80.
    assert (H80 : (80 <= py_round w 1)%Q)
      by (rewrite <- R80; apply py_round_le; exact E80).
    destruct (Qgeb iv_rank 70) eqn:E70.
    + apply Qgeb_le in E70.
      split; [simpl; tauto|]. split; [intros _; split; assumption|].
      split; [discriminate|]. split; [discriminate|].
      intros Hlt. exfalso. apply (Qlt_not_le _ _ Hlt).
      eapply Qle_trans; [|exact H80]. discriminate.
    + destruct (Qltb iv_rank 30) eqn:E30.
      * apply Qltb_lt in E30.
        split; [simpl; tauto|]. split; [discriminate|].
        split; [intros _; split; assumption|]. split; [discriminate|].
        intros Hlt. exfalso. apply (Qlt_not_le _ _ Hlt).
        eapply Qle_trans; [|exact H80]. discriminate.
      * assert (E60 : Qgeb w 60 = true).
        { apply Qgeb_le. eapply Qle_trans; [|exact E80]. discriminate. }
        rewrite E60.
        split; [simpl; tauto|]. split; [discriminate|]. split; [discriminate|].
        split; [discriminate|].
        intros Hlt. exfalso. apply (Qlt_not_le _ _ Hlt).
        eapply Qle_trans; [|exact H80]. discriminate.
  - destruct (Qgeb w 60) eqn:E60.
    + apply Qgeb_le in E60.
      split; [simpl; tauto|]. split; [discriminate|]. split; [discriminate|].
      split; [discriminate|].
      intros Hlt. exfalso. apply (Qlt_not_le _ _ Hlt).
      rewrite <- R40. apply py_round_le. eapply Qle_trans; [|exact E60]. discriminate.
    + destruct (Qgeb w 40) eqn:E40.
      * apply Qgeb_le in E40.
        split; [simpl; tauto|]. split; [discriminate|]. split; [discriminate|].
        split; [discriminate|].
        intros Hlt. exfalso. apply (Qlt_not_le _ _ Hlt).
        rewrite <- R40. apply py_round_le. exact E40.
      * split; [simpl; tauto|]. split; [discriminate|]. split; [discriminate|].
        split; [|reflexivity].
        intros _. rewrite <- R40. apply py_round_le.
        apply Qlt_le_weak. apply Qnot_le_lt. intros H.
        apply Qgeb_le in H. congruence.
Qed.

(** At the threshold the reported score and the text can part: a weighted
    sum of 79.96 is reported as 80.0 and yet, with a rank of 79.9, gets the
    moderate text. *)
Example reported_80_without_strong_text :
  composite_score (score_catalyst_play 8 (799 # 10) 0 5) = 80%Q
  /\ recommendation (score_catalyst_play 8 (799 # 10) 0 5) = moderate.
Proof. split; reflexivity. Qed.

(** *** The IV crush *)

(** X18: without a positive IV before earnings the relative crush is 0; with
    one, an IV after earnings between 0 and the IV before gives a relative
    crush within [0, 100], and a higher IV after earnings a crush that is
    not positive. *)
Theorem iv_crush_sign_and_range (pre post : Q) :
  ((pre <= 0)%Q -> (iv_crush_pct (calculate_earnings_iv_premium pre post) == 0)%Q)
  /\ ((0 < pre)%Q -> (0 <= post <= pre)%Q ->
      (0 <= iv_crush (calculate_earnings_iv_premium pre post))%Q
      /\ (0 <= iv_crush_pct (calculate_earnings_iv_premium pre post) <= 100)%Q)
  /\ ((0 < pre)%Q -> (pre <= post)%Q ->
      (iv_crush (calculate_earnings_iv_premium pre post) <= 0)%Q
      /\ (iv_crush_pct (calculate_earnings_iv_premium pre post) <= 0)%Q).
Proof.
  unfold calculate_earnings_iv_premium. cbn [iv_crush iv_crush_pct].
  assert (R0 : forall n, (py_round 0 n == 0)%Q) by apply py_round_0.
  assert (R100 : forall n, (py_round 100 n == 100)%Q)
    by (intros n; apply (py_round_int 100 n)).
  split; [|split].
  - intros Hle. unfold Qgtb.
    assert (E : Qle_bool pre 0 = true) by (apply Qle_bool_iff; exact Hle).
    rewrite E. apply R0.
  - intros Hpos [Hp1 Hp2]. unfold Qgtb.
    assert (E : Qle_bool pre 0 = false).
    { destruct (Qle_bool pre 0) eqn:E; [|reflexivity].
      apply Qle_bool_iff in E. exfalso. apply (Qlt_not_le _ _ Hpos E). }
    rewrite E. simpl negb. cbv iota.
    assert (Hq1 : (0 <= (pre - post) / pre)%Q).
    { apply Qle_shift_div_l; [exact Hpos|]. lra. }
    assert (Hq2 : ((pre - post) / pre <= 1)%Q).
    { apply Qle_shift_div_r; [exact Hpos|]. lra. }
    split; [apply (py_round_lower _ 0); unfold inject_Z; lra|].
    split; [apply (py_round_lower _ 0) | apply (py_round_upper _ 100)];
      unfold inject_Z; lra.
  - intros Hpos Hle. unfold Qgtb.
    assert (E : Qle_bool pre 0 = false).
    { destruct (Qle_bool pre 0) eqn:E; [|reflexivity].
      apply Qle_bool_iff in E. exfalso. apply (Qlt_not_le _ _ Hpos E). }
    rewrite E. simpl negb. cbv iota.
    assert (Hq1 : ((pre - post) / pre <= 0)%Q).
    { apply Qle_shift_div_r; [exact Hpos|]. lra. }
    split; apply (py_round_upper _ 0); unfold inject_Z; lra.
Qed.

Example iv_crush_docstring :
  calculate_earnings_iv_premium (1 # 2) (3 # 10) = mkIvCrush (1 # 5) 40.
Proof. reflexivity. Qed.

End ScoreMore.

(* ================================================================== *)
(** ** Catalysts combined with expirations *)

Module CombineProps.

Import CatalystScreener CatalystScreenerSpec CatalystScreenerViews
       CatalystScreenerProps WindowProps.
Local Open Scope Z_scope.

Section Combine.
Variable today : date.
Variable exps : list pyval.
Variables date_field name_field : string.

Lemma combine_body_cases (results : list CombinedCatalyst) (cat : CatalystDict) :
  (catalyst_day date_field cat = None
   /\ combine_body today exps date_field name_field results cat = Ok results)
  \/ exists d nearest,
       catalyst_day date_field cat = Some d
       /\ find_nearest_post_catalyst_expiration exps d 1 14 = Ok nearest
       /\ combine_body today exps date_field name_field results cat
          = Ok (if any_expiration (filter (within d (- 5) 7) exps) nearest
                then results ++
                     [{| catalyst_date := isoformat d;
                         catalyst_name :=
                           dict_get_default cat name_field (PStr "Unknown");
                         catalyst_type := dict_get_default cat "type" (PStr "event");
                         relevant_expirations := filter (within d (- 5) 7) exps;
                         nearest_post_catalyst_expiration := nearest;
                         days_to_catalyst := days_between d today |}]
                else results).
Proof.
  unfold combine_body, catalyst_day.
  destruct (dict_get cat date_field) as [[s|d|]|]; try (left; split; reflexivity).
  - unfold strptime. destruct (strptime_ymd (substring 0 10 s)) as [d|];
      cbn [bind try_except_VT]; [|left; split; reflexivity].
    right. destruct (find_nearest_post_catalyst_expiration_returns exps d 1 14) as [n En].
    exists d, n. split; [reflexivity|]. split; [exact En|].
    rewrite filter_by_catalyst_proximity_eq, En. cbn [bind].
    destruct (any_expiration _ _); reflexivity.
  - right. destruct (find_nearest_post_catalyst_expiration_returns exps d 1 14) as [n En].
    exists d, n. split; [reflexivity|]. split; [exact En|]. cbn [bind].
    rewrite filter_by_catalyst_proximity_eq, En. cbn [bind].
    destruct (any_expiration _ _); reflexivity.
Qed.

Lemma any_expiration_true (rel : list pyval) (n : option pyval) :
  any_expiration rel n = true -> rel <> [] \/ n <> None.
Proof.
  destruct rel; simpl; [|intros _; left; discriminate].
  destruct n; [intros _; right; discriminate | discriminate].
Qed.

Lemma combine_loop (cats0 cats : list CatalystDict) :
  forall acc,
    (forall cat, In cat cats -> In cat cats0) ->
    exists more,
      for_each (combine_body today exps date_field name_field) cats acc
      = Ok (acc ++ more)
      /\ (List.length more <= List.length cats)%nat
      /\ forall c, In c more -> well_formed today exps date_field cats0 c.
Proof.
  induction cats as [|cat cats IH]; intros acc Hsub; simpl.
  - exists []. rewrite app_nil_r. split; [reflexivity|]. split; [simpl; lia | intros c []].
  - assert (Hsub' : forall c, In c cats -> In c cats0)
      by (intros c Hc; apply Hsub; right; exact Hc).
    destruct (combine_body_cases acc cat) as [[_ E]|[d [n [Ed [En E]]]]].
    + rewrite E. cbn [bind].
      destruct (IH acc Hsub') as [more [Em [Hl Hw]]].
      exists more. split; [exact Em|]. split; [simpl; lia | exact Hw].
    + destruct (any_expiration (filter (within d (- 5) 7) exps) n) eqn:Ea.
      * match type of E with
        | _ = Ok (acc ++ [?r]) => set (rec := r) in *
        end.
        rewrite E. cbn [bind].
        destruct (IH (acc ++ [rec]) Hsub') as [more [Em [Hl Hw]]].
        exists (rec :: more). split; [rewrite Em, <- app_assoc; reflexivity|].
        split; [simpl; lia|].
        intros c [<-|Hc]; [|apply Hw; exact Hc].
        exists cat, d. unfold rec. simpl.
        split; [apply Hsub; left; reflexivity|].
        split; [exact Ed|]. split; [reflexivity|]. split; [reflexivity|].
        split; [reflexivity|]. split; [exact En|].
        apply any_expiration_true. exact Ea.
      * rewrite E. cbn [bind].
        destruct (IH acc Hsub') as [more [Em [Hl Hw]]].
        exists more. split; [exact Em|]. split; [simpl; lia | exact Hw].
Qed.

(** X19: [combine_catalysts_with_options] always returns; its records are in
    ascending order of [days_to_catalyst], there is at most one per
    catalyst, and each of them comes from a catalyst with a readable date
    and carries at least one expiration: the expirations from 5 days before
    to 7 days after that date, and the nearest one from 1 to 14 days
    after. *)
Theorem combine_catalysts_sorted_with_expirations (catalysts : list CatalystDict) :
  exists out,
    combine_catalysts_with_options today exps catalysts date_field name_field
    = Ok out
    /\ StronglySorted (fun a b => days_to_catalyst a <= days_to_catalyst b) out
    /\ (List.length out <= List.length catalysts)%nat
    /\ forall c, In c out -> well_formed today exps date_field catalysts c.
Proof.
  unfold combine_catalysts_with_options.
  destruct (combine_loop catalysts catalysts [] (fun c H => H)) as [more [E [Hl Hw]]].
  rewrite E. cbn [bind app]. eexists. split; [reflexivity|].
  split; [apply PySortProps.sort_by_key_sorted|].
  split.
  - rewrite (Permutation_length (PySortProps.sort_by_key_perm days_to_catalyst more)).
    exact Hl.
  - intros c Hc. apply Hw.
    apply (proj1 (PySortProps.sort_by_key_in days_to_catalyst more c)). exact Hc.
Qed.

(** X20: without expirations, or without a catalyst whose date can be read,
    the result is empty. *)
Theorem combine_catalysts_empty (catalysts : list CatalystDict) :
  exps = [] \/ (forall cat, In cat catalysts -> catalyst_day date_field cat = None) ->
  combine_catalysts_with_options today exps catalysts date_field name_field = Ok [].
Proof.
  intros H. unfold combine_catalysts_with_options.
  destruct (combine_loop catalysts catalysts [] (fun c Hc => Hc)) as [out [E [_ Hw]]].
  rewrite E. cbn [bind app]. f_equal. destruct out as [|c out]; [reflexivity|].
  exfalso. destruct (Hw c (or_introl eq_refl)) as [cat [d [Hin [Ed [_ [_ [Er [En Hne]]]]]]]].
  destruct H as [H|H].
  - rewrite H in Er, En. simpl in Er. rewrite Er in Hne.
    assert (En' : @inr exn _ (@None pyval) = Ok (nearest_post_catalyst_expiration c))
      by exact En.
    injection En' as En'. rewrite <- En' in Hne. destruct Hne; congruence.
  - rewrite (H cat Hin) in Ed. discriminate.
Qed.

End Combine.

Lemma combine_catalysts_empty_witness :
  combine_catalysts_with_options 738900 [PStr "2024-01-26"]
    [[("name"%string, PStr "Q4 Earnings")]; [("date"%string, PStr "soon")]]
    "date" "name"
  = Ok [].
Proof.
  apply combine_catalysts_empty. right.
  intros cat [<-|[<-|[]]]; reflexivity.
Defined.

End CombineProps.

(* ================================================================== *)
(** ** Strategy ideas *)

Module StrategyProps.

Import CatalystScreener OptionsResearch.
Local Open Scope Z_scope.

Ltac ideas_cases ivr ivp near exps :=
  unfold _generate_strategy_ideas, high_iv_ideas, low_iv_ideas, neutral_iv_ideas,
         post_catalyst_idea;
  destruct ivr as [r|]; [|destruct ivp as [r|]];
  try (destruct (Qgeb r 70); [|destruct (Qle_bool r 30)]);
  destruct near;
  destruct (2 <? Z.of_nat (List.length exps)) eqn:Elen;
  cbn [andb app map strategy timing_note List.length].

(** X21: the strategy ideas are at most four and carry distinct strategy names;
    the premium-selling and the premium-buying ideas never appear together;
    an idea with a timing note is only given when a catalyst is near; and
    the list is empty exactly when no IV metric is known and the
    post-catalyst idea does not apply. *)
Theorem strategy_ideas_shape
    (iv_rank iv_percentile : option Q) (near : bool) (exps : list pyval) :
  let ideas := _generate_strategy_ideas iv_rank iv_percentile near exps in
  (List.length ideas <= 4)%nat
  /\ NoDup (map strategy ideas)
  /\ ~ (In "iron_condor"%string (map strategy ideas)
        /\ In "long_straddle"%string (map strategy ideas))
  /\ (forall i, In i ideas -> timing_note i <> None -> near = true)
  /\ (ideas = [] <->
      iv_rank = None /\ iv_percentile = None
      /\ (near = false \/ (List.length exps <= 2)%nat)).
Proof.
  cbv zeta.
  assert (Hlen : (2 <? Z.of_nat (List.length exps)) = false
                 <-> (List.length exps <= 2)%nat).
  { rewrite Z.ltb_ge. lia. }
  split; [ideas_cases iv_rank iv_percentile near exps; lia|].
  split; [ideas_cases iv_rank iv_percentile near exps;
          repeat constructor; simpl; intuition discriminate|].
  split; [ideas_cases iv_rank iv_percentile near exps;
          simpl; intuition discriminate|].
  split.
  - ideas_cases iv_rank iv_percentile near exps; try reflexivity;
      intros i Hi Hn; simpl in Hi;
      repeat (destruct Hi as [<-|Hi]; [simpl in Hn; congruence|]); destruct Hi.
  - ideas_cases iv_rank iv_percentile near exps;
      (split; [try discriminate; intros _ | intros [H1 [H2 H3]]; try discriminate]);
      try (split; [reflexivity|split; [reflexivity|]]);
      try reflexivity;
      try (right; apply Hlen; reflexivity);
      try (left; reflexivity);
      try (exfalso; destruct H3 as [H3|H3]; [discriminate | apply Hlen in H3; congruence]).
Qed.

(** X22: which family of ideas is given follows the IV metric, the rank when it
    is known and the percentile otherwise: at 70 and above the list opens
    with the premium-selling pair, at 30 and below with the premium-buying
    pair, strictly between with the vertical spread alone. *)
Theorem strategy_ideas_follow_metric
    (iv_rank iv_percentile : option Q) (near : bool) (exps : list pyval) (m : Q)
    (Hm : match iv_rank with Some r => Some r | None => iv_percentile end = Some m) :
  let names := map strategy (_generate_strategy_ideas iv_rank iv_percentile near exps) in
  ((70 <= m)%Q -> firstn 2 names = ["iron_condor"; "short_strangle"]%string)
  /\ ((m <= 30)%Q -> firstn 2 names = ["long_straddle"; "calendar_spread"]%string)
  /\ ((30 < m)%Q -> (m < 70)%Q -> firstn 1 names = ["vertical_spread"%string]
                                  /\ ~ In "iron_condor"%string names
                                  /\ ~ In "long_straddle"%string names).
Proof.
  cbv zeta. unfold _generate_strategy_ideas. rewrite Hm.
  unfold high_iv_ideas, low_iv_ideas, neutral_iv_ideas, post_catalyst_idea.
  split; [|split].
  - intros H. assert (E : Qgeb m 70 = true) by (apply Qle_bool_iff; exact H).
    rewrite E. reflexivity.
  - intros H.
    assert (E : Qgeb m 70 = false).
    { unfold Qgeb. destruct (Qle_bool 70 m) eqn:E; [|reflexivity].
      apply Qle_bool_iff in E. exfalso.
      assert (H70 : (70 <= 30)%Q) by (eapply Qle_trans; eassumption).
      apply H70. reflexivity. }
    assert (E' : Qle_bool m 30 = true) by (apply Qle_bool_iff; exact H).
    rewrite E, E'. reflexivity.
  - intros H1 H2.
    assert (E : Qgeb m 70 = false).
    { unfold Qgeb. destruct (Qle_bool 70 m) eqn:E; [|reflexivity].
      apply Qle_bool_iff in E. exfalso. apply (Qlt_not_le _ _ H2 E). }
    assert (E' : Qle_bool m 30 = false).
    { destruct (Qle_bool m 30) eqn:E'; [|reflexivity].
      apply Qle_bool_iff in E'. exfalso. apply (Qlt_not_le _ _ H1 E'). }
    rewrite E, E'.
    destruct (near && (2 <? Z.of_nat (List.length exps))); simpl;
      (split; [reflexivity|]; split; intuition discriminate).
Qed.

Lemma strategy_ideas_follow_metric_witness :
  firstn 2 (map strategy
              (_generate_strategy_ideas (Some 85%Q) (Some 10%Q) true
                 [PStr "2024-01-19"; PStr "2024-01-26"; PStr "2024-02-02"]))
  = ["iron_condor"; "short_strangle"]%string.
Proof.
  apply (strategy_ideas_follow_metric (Some 85%Q) (Some 10%Q) true
           [PStr "2024-01-19"; PStr "2024-01-26"; PStr "2024-02-02"] 85%Q eq_refl).
  discriminate.
Defined.

End StrategyProps.

(* ================================================================== *)
(** ** The catalysts of the research summary *)

Module SummaryProps.

Import CatalystScreener CatalystScreenerSpec CatalystScreenerViews OptionsResearch
       OptionsResearchSpec OptionsResearchViews CatalystScreenerProps WindowProps.
Local Open Scope Z_scope.

Section Build.
Variable fsqrt : Q -> Q.
Variable today : date.

Lemma trial_body_eq (exps : list pyval) (acc : list Catalyst) (t : Trial) :
  trial_body today exps acc t = Ok (acc ++ future_trials today exps [t]).
Proof.
  unfold trial_body, future_trials, trial_day, trial_info. simpl.
  destruct (primary_completion_date t) as [s|d|]; simpl.
  - destruct s as [|c s']; [simpl; rewrite app_nil_r; reflexivity|].
    cbn [truthy]. unfold strptime.
    destruct (strptime_ymd (substring 0 10 (String c s'))) as [d|]; cbn [bind try_except_VT];
      [|rewrite app_nil_r; reflexivity].
    destruct (0 <? days_between d today); [|rewrite app_nil_r; reflexivity].
    rewrite filter_by_catalyst_proximity_eq. reflexivity.
  - destruct (0 <? days_between d today); [|rewrite app_nil_r; reflexivity].
    rewrite filter_by_catalyst_proximity_eq. reflexivity.
  - rewrite app_nil_r. reflexivity.
Qed.

Lemma trial_loop (exps : list pyval) (ts : list Trial) (acc : list Catalyst) :
  for_each (trial_body today exps) ts acc = Ok (acc ++ future_trials today exps ts).
Proof.
  revert acc. induction ts as [|t ts IH]; intros acc; simpl.
  - rewrite app_nil_r. reflexivity.
  - rewrite trial_body_eq. cbn [bind]. rewrite IH.
    unfold future_trials. simpl. rewrite app_nil_r, <- app_assoc. reflexivity.
Qed.

Lemma future_trials_length (exps : list pyval) (ts : list Trial) :
  (List.length (future_trials today exps ts) <= List.length ts)%nat.
Proof.
  unfold future_trials. induction ts as [|t ts IH]; simpl; [lia|].
  rewrite length_app.
  destruct (trial_day t) as [d|]; [destruct (0 <? days_between d today)|]; simpl; lia.
Qed.


End Build.

(** The name of a trial record: the brief title when the key is there,
    also when it holds [None]; else the title; else the text
    ["Unknown"]. *)
Example trial_name_cases :
  trial_name (mkTrial PNone (Some None) (Some (Some "T2"%string)) None None) = None
  /\ trial_name (mkTrial PNone None (Some (Some "T2"%string)) None None)
     = Some "T2"%string
  /\ trial_name (mkTrial PNone None None None None) = Some "Unknown"%string.
Proof. repeat split. Qed.

End SummaryProps.

(* ================================================================== *)
(** ** The outcomes of the clinical-trials adapter *)

Module TrialsMore.

Import CatalystScreener ClinicalTrials ClinicalTrialsSpec Samples
       CatalystScreenerProps ClinicalTrialsProps.
Local Open Scope Z_scope.

Lemma transform_loop_fails q data :
  forall acc,
    (exists st, In st (kept q data) /\ validated st = None) ->
    for_each (transform_body q) data acc = Raise ValidationError.
Proof.
  induction data as [|st data IH]; intros acc [bad [Hin Hbad]]; [destruct Hin|].
  simpl. rewrite transform_body_eq. unfold kept in Hin. simpl in Hin.
  destruct (out_of_range q (study_date st)); simpl in Hin.
  - cbn [bind]. apply IH. exists bad. split; assumption.
  - destruct (validated st) as [r|] eqn:Ev; cbn [bind]; [|reflexivity].
    destruct Hin as [<-|Hin]; [congruence|].
    apply IH. exists bad. split; assumption.
Qed.

Lemma transform_loop_returns q data :
  forall acc,
    (forall st, In st (kept q data) -> validated st <> None) ->
    returns (for_each (transform_body q) data acc).
Proof.
  induction data as [|st data IH]; intros acc Hall; simpl; [eexists; reflexivity|].
  rewrite transform_body_eq. unfold kept in Hall. simpl in Hall.
  destruct (out_of_range q (study_date st)); simpl in Hall; cbn [bind].
  - apply IH. exact Hall.
  - destruct (validated st) as [r|] eqn:Ev; cbn [bind].
    + apply IH. intros st' H. apply Hall. right. exact H.
    + exfalso. apply (Hall st (or_introl eq_refl)). exact Ev.
Qed.

(** X24: the three outcomes of [transform_data] are decided by the studies that
    pass the date range: none of them, and the call is an
    [EmptyDataError]; one of them without the id or the title the data
    model requires, and it is a [ValidationError]; otherwise it returns as
    many records as studies passed.  A study outside the range is never
    validated, so what it lacks cannot make the call fail. *)
Theorem transform_data_outcomes
    (q : NIHClinicalTrialsQueryParams) (data : list Study) :
  (kept q data = [] -> exists msg, transform_data q data = Raise (EmptyDataError msg))
  /\ ((exists st, In st (kept q data) /\ validated st = None) ->
      transform_data q data = Raise ValidationError)
  /\ (kept q data <> [] ->
      (forall st, In st (kept q data) -> validated st <> None) ->
      exists out, transform_data q data = Ok out
                  /\ List.length out = List.length (kept q data)).
Proof.
  split.
  { intros Hk. unfold transform_data. destruct data as [|st data]; [eexists; reflexivity|].
    rewrite (transform_loop_all_out q _ Hk). cbn [bind]. eexists; reflexivity. }
  split.
  - intros Hbad. unfold transform_data.
    destruct data as [|st0 data0] eqn:Ed.
    { destruct Hbad as [st [[] _]]. }
    rewrite <- Ed in *. rewrite (transform_loop_fails q data [] Hbad). reflexivity.
  - intros Hne Hall. unfold transform_data.
    destruct data as [|st0 data0] eqn:Ed; [exfalso; apply Hne; reflexivity|].
    rewrite <- Ed in *.
    destruct (transform_loop_returns q data [] Hall) as [results Er].
    rewrite Er. cbn [bind].
    destruct (transform_loop q data [] results Er) as [recs [E Hf]].
    simpl in E. subst recs.
    assert (Hlen : List.length results = List.length (kept q data)).
    { symmetry. eapply Forall2_length. exact Hf. }
    destruct results as [|r rs] eqn:Eres.
    + exfalso. apply Hne. apply length_zero_iff_nil. rewrite <- Hlen. reflexivity.
    + rewrite <- Eres in *. eexists. split; [reflexivity|].
      rewrite (Permutation_length (PySortProps.sort_by_key_perm sort_key results)).
      exact Hlen.
Qed.

(** A study without an id that lies outside the range is skipped, while
    the same study inside the range fails the call. *)
Example unvalidated_outside_range :
  transform_data (mkQuery (Some 738910) None)
    [ mkStudy None None None [] (Some (Some "2024-01-24"%string));
      study "NCT2" (Some (Some "2024-01-26"%string)) ]
  = Ok [record "NCT2" (Some 738911)]
  /\ transform_data (mkQuery None None)
       [ mkStudy None None None [] (Some (Some "2024-01-24"%string));
         study "NCT2" (Some (Some "2024-01-26"%string)) ]
     = Raise ValidationError.
Proof. split; reflexivity. Qed.

End TrialsMore.

(* ================================================================== *)
(** ** The rows of [catalyst_screen] *)

Module RouterMore.

Import CatalystScreener CatalystScreenerSpec OptionsRouter OptionsRouterViews Samples
       CatalystScreenerProps OptionsRouterProps.
Local Open Scope Z_scope.

Section Screen.
Variable fsqrt : Q -> Q.
Variable today : date.

Lemma normalized_record_iv_zero (iv : Q) :
  Qeq_bool (if negb (Qeq_bool iv 0) && Qgtb iv 10 then (iv / 100)%Q else iv) 0
  = Qeq_bool iv 0.
Proof.
  destruct (Qeq_bool iv 0) eqn:E; cbn [negb andb]; [exact E|].
  destruct (Qgtb iv 10); [|exact E].
  destruct (Qeq_bool (iv / 100) 0) eqn:E'; [|reflexivity].
  apply Qeq_bool_iff in E'.
  assert (H : (iv == 0)%Q).
  { assert (H100 : (iv == iv / 100 * 100)%Q) by (field).
    rewrite H100, E'. reflexivity. }
  apply Qeq_bool_iff in H. congruence.
Qed.

Lemma dte_ratio_negative (dte : Z) :
  Qltb (inject_Z dte / 365) 0 = (dte <? 0).
Proof.
  destruct (Z.ltb_spec dte 0) as [H|H].
  - apply Qltb_lt. apply Qlt_shift_div_r; [reflexivity|].
    rewrite Qmult_0_l. change 0%Q with (inject_Z 0). rewrite <- Zlt_Qlt. exact H.
  - unfold Qltb. apply negb_false_iff. apply Qle_bool_iff.
    apply Qle_shift_div_l; [reflexivity|]. rewrite Qmult_0_l.
    change 0%Q with (inject_Z 0). rewrite <- Zle_Qle. exact H.
Qed.

Lemma score_record_outcome (dtc : Z) (iv_rank : Q) (r : OptionRow) :
  if expired_with_iv today r
  then score_record fsqrt today dtc iv_rank r = Raise TypeError
  else exists rec, score_record fsqrt today dtc iv_rank r = Ok rec /\ row rec = r.
Proof.
  unfold score_record, expired_with_iv, scoring_dte, strptime. cbv zeta.
  destruct (strptime_ymd (substring 0 10 (py_str (expiration r)))) as [d|];
    cbn [bind try_except_VT].
  - rewrite normalized_record_iv_zero.
    destruct (Qeq_bool (implied_volatility r) 0); cbn [negb andb].
    + rewrite andb_false_r. cbn [bind]. eexists. split; reflexivity.
    + rewrite andb_true_r. unfold pow_half. rewrite dte_ratio_negative.
      destruct (days_between d today <? 0); cbn [bind]; [reflexivity|].
      eexists. split; reflexivity.
  - rewrite normalized_record_iv_zero.
    destruct (Qeq_bool (implied_volatility r) 0); cbn [negb andb bind].
    + eexists. split; reflexivity.
    + unfold pow_half. rewrite dte_ratio_negative. cbn [Z.ltb Z.compare bind].
      eexists. split; reflexivity.
Qed.

Lemma score_loop_outcome (dtc : Z) (iv_rank : Q) (rows : DataFrame) :
  if existsb (expired_with_iv today) rows
  then apply_each (score_record fsqrt today dtc iv_rank) rows = Raise TypeError
  else exists out, apply_each (score_record fsqrt today dtc iv_rank) rows = Ok out
                   /\ map row out = rows.
Proof.
  induction rows as [|r rows IH]; simpl.
  - exists []. split; reflexivity.
  - pose proof (score_record_outcome dtc iv_rank r) as Hr.
    destruct (expired_with_iv today r); cbn [orb].
    + rewrite Hr. reflexivity.
    + destruct Hr as [rec [-> Erow]]. cbn [bind].
      destruct (existsb (expired_with_iv today) rows).
      * rewrite IH. reflexivity.
      * destruct IH as [out [-> Eout]]. cbn [bind].
        exists (rec :: out). split; [reflexivity|]. simpl. rewrite Erow, Eout. reflexivity.
Qed.

(** X25: once the three checks pass, [catalyst_screen] hands the chain to
    [screen_options_before_earnings] with the parsed date and the resolved
    price, and its result carries exactly the screened rows, in their
    order: unscored without scoring; with scoring, each with its score,
    unless a screened row has expired and has a non-zero IV, in which case
    the call ends in a [TypeError]. *)
Theorem catalyst_screen_rows
    (data : ChainData) (catalyst_date : string) (underlying_price min_iv : option Q)
    (max_pct : Q) (option_type : option string) (include_scoring : bool)
    (cdt : date) (price : Q)
    (Hdata : records data <> [])
    (Hdate : strptime_ymd catalyst_date = Some cdt)
    (Hprice : resolved_price data underlying_price = Some price) :
  exists rows,
    screen_options_before_earnings (records data) cdt price min_iv max_pct option_type
    = Ok rows
    /\ if include_scoring && existsb (expired_with_iv today) rows
       then catalyst_screen fsqrt today data catalyst_date underlying_price min_iv
                            max_pct option_type include_scoring = Raise TypeError
       else exists out,
              catalyst_screen fsqrt today data catalyst_date underlying_price min_iv
                              max_pct option_type include_scoring = Ok out
              /\ map row out = rows.
Proof.
  unfold catalyst_screen.
  destruct (records data) as [|r0 rs] eqn:Er; [congruence|]. rewrite <- Er.
  cbn [Chain.empty].
  replace (Chain.empty (records data)) with false by (rewrite Er; reflexivity).
  unfold strptime. rewrite Hdate. cbn [try_except_V bind].
  unfold resolved_price in Hprice. rewrite Hprice.
  rewrite screen_options_before_earnings_eq. cbn [bind].
  exists (screened (records data) cdt price min_iv max_pct option_type).
  split; [reflexivity|].
  set (rows := screened (records data) cdt price min_iv max_pct option_type).
  destruct rows as [|r rows'] eqn:Erows.
  - cbn [Chain.empty existsb]. rewrite andb_false_r. exists []. split; reflexivity.
  - rewrite <- Erows. replace (Chain.empty rows) with false by (rewrite Erows; reflexivity).
    destruct include_scoring; cbn [andb].
    + pose proof (score_loop_outcome (days_between cdt today) 50 rows) as H.
      destruct (existsb (expired_with_iv today) rows); exact H.
    + eexists. split; [reflexivity|]. rewrite map_map. simpl. apply map_id.
Qed.

End Screen.

Lemma catalyst_screen_rows_witness :
  exists rows,
    screen_options_before_earnings (records posted_chain) 738910 100 None 10 None
    = Ok rows
    /\ if true && existsb (expired_with_iv 738920) rows
       then catalyst_screen sqrt_approx 738920 posted_chain "2024-01-25"
                            (Some 100%Q) None 10 None true = Raise TypeError
       else exists out,
              catalyst_screen sqrt_approx 738920 posted_chain "2024-01-25"
                              (Some 100%Q) None 10 None true = Ok out
              /\ map row out = rows.
Proof.
  apply (catalyst_screen_rows sqrt_approx 738920 posted_chain "2024-01-25"
           (Some 100%Q) None 10 None true 738910 100).
  - discriminate.
  - reflexivity.
  - reflexivity.
Defined.

(** A catalyst ten days back with expirations that have passed since: the
    scoring stops on the first row. *)
Example catalyst_screen_on_expired_rows :
  catalyst_screen sqrt_approx 738920 posted_chain "2024-01-25" (Some 100%Q)
                  None 10 None true = Raise TypeError
  /\ catalyst_screen sqrt_approx 738920 posted_chain "2024-01-25" (Some 100%Q)
                     None 10 None false
     = Ok [mkScored (mkRow 100 (PStr "2024-01-26") "call" (35 # 100) 10 5) None None].
Proof. split; reflexivity. Qed.

End RouterMore.
